(** * Router planner of Citus: single-shard planning of SELECT and of
      distributed table modifications

    A shallow embedding of
    [src/backend/distributed/planner/multi_router_planner.c].

    Conventions of the embedding.
    - C integers ([Oid], [uint64], [Index], [AttrNumber], [Datum]) are [Z];
      the one counter that is incremented ([queryTableCount], a [uint32])
      has its wrap-around written out.
    - A [char] flag (partition method, function volatility, relation kind)
      is an [ascii]; a C string is a [string].
    - A pointer that may be [NULL] is an [option]; a PostgreSQL [List] is a
      [list]; [lappend] is [++ [x]].
    - [ereport(ERROR, ...)] leaves the planner by a non-local exit: it is the
      [Fatal] case of [Outcome].  A [DeferredErrorMessage] handed back to the
      caller is the [Deferred] case (or [Some] where the C function returns
      the message pointer itself).
    - Everything the planner calls but which lives in PostgreSQL, in the
      catalog or in another part of the extension is a field of the class
      [Externals]; the planner functions take the instance implicitly. *)

From Stdlib Require Import ZArith List Bool String Ascii Lia Permutation Sorted.
From Stdlib Require Import DecimalString.
Import ListNotations.
Open Scope Z_scope.

Set Implicit Arguments.

(** ** Scalars and constants *)

Definition Oid := Z.
Definition Index := Z.
Definition uint64 := Z.
Definition AttrNumber := Z.
Definition Datum := Z.

Definition InvalidOid : Oid := 0.

(** PostgreSQL's [CmdType] (nodes/nodes.h). *)
Inductive CmdType : Type :=
| CMD_UNKNOWN | CMD_SELECT | CMD_UPDATE | CMD_INSERT | CMD_DELETE
| CMD_UTILITY | CMD_NOTHING.

Scheme Equality for CmdType.

(** PostgreSQL's [RTEKind] (nodes/parsenodes.h). *)
Inductive RTEKind : Type :=
| RTE_RELATION | RTE_SUBQUERY | RTE_JOIN | RTE_FUNCTION | RTE_VALUES | RTE_CTE.

Scheme Equality for RTEKind.

(** Access-mode bits of [requiredPerms] (nodes/parsenodes.h). *)
Definition ACL_INSERT : Z := Z.shiftl 1 0.
Definition ACL_SELECT : Z := Z.shiftl 1 1.
Definition ACL_UPDATE : Z := Z.shiftl 1 2.
Definition ACL_DELETE : Z := Z.shiftl 1 3.

Definition RELKIND_RELATION : ascii := "r"%char.
Definition RELKIND_VIEW : ascii := "v"%char.

(** Function volatility classes of [pg_proc.provolatile]. *)
Definition PROVOLATILE_IMMUTABLE : ascii := "i"%char.
Definition PROVOLATILE_STABLE : ascii := "s"%char.
Definition PROVOLATILE_VOLATILE : ascii := "v"%char.

Definition BTEqualStrategyNumber : Z := 3.

(** Modelled from the spec: the partition methods (NONE for a reference
    table, HASH, RANGE, APPEND) are macros of a catalog header that is not
    part of the planner file.  The planner keeps them in a [char]; only the
    fact that the four codes differ is ever used. *)
Definition DISTRIBUTE_BY_APPEND : ascii := "a"%char.
Definition DISTRIBUTE_BY_HASH : ascii := "h"%char.
Definition DISTRIBUTE_BY_RANGE : ascii := "r"%char.
Definition DISTRIBUTE_BY_NONE : ascii := "n"%char.

Definition uint32_wrap (z : Z) : Z := z mod 2 ^ 32.

(** ** Errors *)

Inductive ErrCode : Type :=
| ERRCODE_FEATURE_NOT_SUPPORTED
| ERRCODE_NULL_VALUE_NOT_ALLOWED
| ERRCODE_OBJECT_NOT_IN_PREREQUISITE_STATE
| ERRCODE_INVALID_PARAMETER_VALUE
| ERRCODE_INTERNAL_ERROR.

Record DeferredErrorMessage : Type := DeferredError {
  code : ErrCode;
  message : string;
  detail : option string;
  hint : option string
}.

(** The three ways a planner function ends: a value, a deferred error given
    back to the caller, or [ereport(ERROR)]. *)
Inductive Outcome (A : Type) : Type :=
| Ok (a : A)
| Deferred (e : DeferredErrorMessage)
| Fatal (errcode : ErrCode) (errmsg : string).

Arguments Ok {A} a.
Arguments Deferred {A} e.
Arguments Fatal {A} errcode errmsg.

Definition bindO {A B : Type} (m : Outcome A) (k : A -> Outcome B) : Outcome B :=
  match m with
  | Ok a => k a
  | Deferred e => Deferred e
  | Fatal c s => Fatal c s
  end.

Notation "x <- m ;; k" := (bindO m (fun x => k))
  (at level 61, m at next level, right associativity).

(** ** Expression trees *)

Record Var : Type := makeVar { varno : Index; varattno : AttrNumber }.

Record Const : Type := makeConst {
  constvalue : Datum;
  constisnull : bool;
  constbyval : bool
}.

(** The expression nodes the planner looks at.  A [T_CaseExpr] holds its
    test expression, its [T_CaseWhen] clauses and its default result. *)
#[local] Unset Elimination Schemes.
Inductive Node : Type :=
| T_Var (v : Var)
| T_Const (c : Const)
| T_Param (paramid : Z)
| T_FuncExpr (funcid : Oid) (args : list Node)
| T_OpExpr (opno : Oid) (opfuncid : Oid) (args : list Node)
| T_BoolExpr (args : list Node)
| T_CoalesceExpr (args : list Node)
| T_CaseExpr (arg : option Node) (args : list Node) (defresult : option Node)
| T_CaseWhen (expr : Node) (result : Node)
| T_List (elements : list Node).
#[local] Set Elimination Schemes.

(** Induction over expression trees, with the hypotheses for the nested
    lists and optional children. *)
Definition OptForall {A : Type} (P : A -> Prop) (o : option A) : Prop :=
  match o with
  | Some a => P a
  | None => True
  end.

Section NodeInduction.
Variable P : Node -> Prop.
Hypothesis HVar : forall v, P (T_Var v).
Hypothesis HConst : forall c, P (T_Const c).
Hypothesis HParam : forall p, P (T_Param p).
Hypothesis HFunc : forall f args, Forall P args -> P (T_FuncExpr f args).
Hypothesis HOp : forall o f args, Forall P args -> P (T_OpExpr o f args).
Hypothesis HBool : forall args, Forall P args -> P (T_BoolExpr args).
Hypothesis HCoalesce : forall args, Forall P args -> P (T_CoalesceExpr args).
Hypothesis HCase : forall arg args defresult,
    OptForall P arg -> Forall P args -> OptForall P defresult ->
    P (T_CaseExpr arg args defresult).
Hypothesis HWhen : forall e r, P e -> P r -> P (T_CaseWhen e r).
Hypothesis HList : forall l, Forall P l -> P (T_List l).

Fixpoint Node_nested_ind (n : Node) : P n :=
  let list_ind :=
      fix list_ind (l : list Node) : Forall P l :=
        match l with
        | [] => Forall_nil P
        | x :: r => Forall_cons x (Node_nested_ind x) (list_ind r)
        end in
  let opt_ind := fun (o : option Node) =>
      match o return OptForall P o with
      | Some a => Node_nested_ind a
      | None => I
      end in
  match n with
  | T_Var v => HVar v
  | T_Const c => HConst c
  | T_Param p => HParam p
  | T_FuncExpr f args => HFunc f (list_ind args)
  | T_OpExpr o f args => HOp o f (list_ind args)
  | T_BoolExpr args => HBool (list_ind args)
  | T_CoalesceExpr args => HCoalesce (list_ind args)
  | T_CaseExpr arg args d => HCase arg d (opt_ind arg) (list_ind args) (opt_ind d)
  | T_CaseWhen e r => HWhen (Node_nested_ind e) (Node_nested_ind r)
  | T_List l => HList (list_ind l)
  end.
End NodeInduction.

(** *** PostgreSQL's tree utilities (nodes/nodeFuncs.c), on these nodes *)

(** [walker] over a list of children, stopping at the first child for which
    the walker answers true. *)
Definition walk_list {C : Type} (walker : Node -> C -> bool * C) : list Node -> C -> bool * C :=
  fix go (l : list Node) (context : C) : bool * C :=
    match l with
    | [] => (false, context)
    | x :: r =>
        let '(found, context') := walker x context in
        if found then (true, context') else go r context'
    end.

Definition walk_opt {C : Type} (walker : Node -> C -> bool * C)
           (o : option Node) (context : C) : bool * C :=
  match o with
  | Some x => walker x context
  | None => (false, context)
  end.

(** [expression_tree_walker]: the walker is applied to the children of the
    node, in order, and the walk stops as soon as one call answers true. *)
Definition expression_tree_walker {C : Type} (node : Node)
           (walker : Node -> C -> bool * C) (context : C) : bool * C :=
  match node with
  | T_Var _ | T_Const _ | T_Param _ => (false, context)
  | T_FuncExpr _ args => walk_list walker args context
  | T_OpExpr _ _ args => walk_list walker args context
  | T_BoolExpr args => walk_list walker args context
  | T_CoalesceExpr args => walk_list walker args context
  | T_CaseExpr arg args defresult =>
      let '(found, c1) := walk_opt walker arg context in
      if found then (true, c1) else
      let '(found, c2) := walk_list walker args c1 in
      if found then (true, c2) else
      walk_opt walker defresult c2
  | T_CaseWhen e r =>
      let '(found, c1) := walker e context in
      if found then (true, c1) else walker r c1
  | T_List l => walk_list walker l context
  end.

(** [check_functions_in_node]: the checker is applied to the function a
    node calls itself (not to those of its children). *)
Definition check_functions_in_node {C : Type} (node : Node)
           (checker : Oid -> C -> bool * C) (context : C) : bool * C :=
  match node with
  | T_FuncExpr funcid _ => checker funcid context
  | T_OpExpr _ opfuncid _ => checker opfuncid context
  | _ => (false, context)
  end.

(** ** Statements *)

Record TargetEntry : Type := makeTargetEntry {
  expr : Node;
  resno : AttrNumber;
  resjunk : bool
}.

Record RangeTblEntry : Type := makeRangeTblEntry {
  rtekind : RTEKind;
  relid : Oid;
  relkind : ascii;
  requiredPerms : Z
}.

Record FromExpr : Type := makeFromExpr { quals : option Node }.

Record OnConflictExpr : Type := makeOnConflictExpr {
  onConflictSet : list TargetEntry;
  arbiterWhere : option Node;
  onConflictWhere : option Node
}.

(** Of a common table expression only the command type of its query is
    looked at. *)
Record CommonTableExpr : Type := makeCommonTableExpr { ctequery_commandType : CmdType }.

(** [rtable] is the range table as [ExtractRangeTableEntryWalker] collects
    it (the entries of the statement and of its subqueries, in order). *)
Record Query : Type := makeQuery {
  commandType : CmdType;
  hasSubLinks : bool;
  hasForUpdate : bool;
  cteList : list CommonTableExpr;
  rtable : list RangeTblEntry;
  jointree : option FromExpr;
  targetList : list TargetEntry;
  returningList : list TargetEntry;
  onConflict : option OnConflictExpr
}.

Definition ExtractRangeTableEntryWalker (query : Query) : list RangeTblEntry :=
  rtable query.

(** ** Distribution metadata *)

Record ShardInterval : Type := makeShardInterval {
  si_relationId : Oid;
  si_shardId : uint64;
  minValueExists : bool;
  maxValueExists : bool;
  minValue : Datum;
  maxValue : Datum
}.

Record DistTableCacheEntry : Type := makeDistTableCacheEntry {
  ce_relationId : Oid;
  partitionMethod : ascii;
  partitionKeyString : string;
  ce_replicationModel : ascii;
  sortedShardIntervalArray : list ShardInterval
}.

Definition shardIntervalArrayLength (cacheEntry : DistTableCacheEntry) : Z :=
  Z.of_nat (List.length (sortedShardIntervalArray cacheEntry)).

Record ShardPlacement : Type := makeShardPlacement {
  placementId : uint64;
  sp_shardId : uint64;
  nodeName : string;
  nodePort : Z;
  groupId : Z
}.

Record WorkerNode : Type := makeWorkerNode {
  workerName : string;
  workerPort : Z;
  wn_groupId : Z
}.

Record RelationShard : Type := makeRelationShard {
  rs_relationId : Oid;
  rs_shardId : uint64
}.

(** ** Planner restriction context *)

Record RestrictInfo : Type := makeRestrictInfo {
  clause : Node;
  pseudoconstant : bool
}.

Record RelOptInfo : Type := makeRelOptInfo {
  baserestrictinfo : list RestrictInfo;
  joininfo : list RestrictInfo
}.

Record RelationRestriction : Type := makeRelationRestriction {
  index : Index;
  rr_relationId : Oid;
  rte : RangeTblEntry;
  relOptInfo : RelOptInfo;
  prunedShardIntervalList : list ShardInterval
}.

Record RelationRestrictionContext : Type := makeRelationRestrictionContext {
  relationRestrictionList : list RelationRestriction
}.

(** ** Jobs and tasks *)

Inductive TaskType : Type := ROUTER_TASK | MODIFY_TASK.

Record Task : Type := makeTask {
  taskType : TaskType;
  task_jobId : uint64;
  taskId : Z;
  queryString : option string;
  anchorShardId : uint64;
  taskPlacementList : list ShardPlacement;
  upsertQuery : bool;
  task_replicationModel : ascii;
  insertSelectQuery : bool;
  relationShardList : list RelationShard
}.

Record Job : Type := makeJob {
  jobId : uint64;
  jobQuery : Query;
  taskList : list Task;
  subqueryPushdown : bool;
  requiresMasterEvaluation : bool;
  deferredPruning : bool
}.

(** ** What the planner takes from its environment

    The catalog snapshot, PostgreSQL's optimizer utilities and the helpers of
    the extension that are defined outside the planner file. *)
Class Externals : Type := {
  (** the [citus.enable_router_execution] setting *)
  EnableRouterExecution : bool;
  IsCoordinator : bool;
  IsDistributedTable : Oid -> bool;
  DistributedTableCacheEntry : Oid -> DistTableCacheEntry;
  PartitionMethod : Oid -> ascii;
  PartitionColumn : Oid -> Index -> option Var;
  ColumnNameToColumn : Oid -> string -> string;
  get_rel_name : Oid -> string;
  func_volatile : Oid -> ascii;
  predicate_implied_by : list Node -> list Node -> bool;
  WhereClauseList : option FromExpr -> list Node;
  MakeOpExpression : Var -> Z -> Node;
  PruneShards : Oid -> Index -> list Node -> list ShardInterval;
  ContainsFalseClause : list Node -> bool;
  FinalizedShardPlacementList : uint64 -> list ShardPlacement;
  ActivePrimaryNodeList : list WorkerNode;
  RequiresMasterEvaluation : Query -> bool;
  RebuildQueryStrings : Query -> list Task -> list Task;
  pg_get_query_def : Query -> string;
  (** [SortList(list, CompareRelationShards)] *)
  SortList_CompareRelationShards : list RelationShard -> list RelationShard;
  WORKER_LENGTH : nat;
  INVALID_SHARD_ID : uint64;
  INVALID_JOB_ID : uint64;
  INVALID_TASK_ID : Z;
  REPLICATION_MODEL_INVALID : ascii
}.

(** ** Expression reducibility *)

Section Analyzer.
Context {E : Externals}.

(** PostgreSQL's [contain_mutable_functions] and
    [contain_volatile_functions] (optimizer/util/clauses.c): some node of
    the tree calls a function that is not IMMUTABLE, respectively that is
    VOLATILE. *)
Fixpoint contain_functions_walker (checker : Oid -> bool) (node : Node) (context : unit)
  : bool * unit :=
  if fst (check_functions_in_node node (fun f c => (checker f, c)) context)
  then (true, context)
  else expression_tree_walker node (contain_functions_walker checker) context.

Definition contain_mutable_functions_checker (func_id : Oid) : bool :=
  negb (Ascii.eqb (func_volatile func_id) PROVOLATILE_IMMUTABLE).

Definition contain_volatile_functions_checker (func_id : Oid) : bool :=
  Ascii.eqb (func_volatile func_id) PROVOLATILE_VOLATILE.

Definition contain_mutable_functions (clause : option Node) : bool :=
  match clause with
  | None => false
  | Some node => fst (contain_functions_walker contain_mutable_functions_checker node tt)
  end.

Definition contain_volatile_functions (clause : option Node) : bool :=
  match clause with
  | None => false
  | Some node => fst (contain_functions_walker contain_volatile_functions_checker node tt)
  end.

Record WalkerState : Type := makeWalkerState {
  containsVar : bool;
  varArgument : bool;
  badCoalesce : bool
}.

Definition MasterIrreducibleExpressionFunctionChecker (func_id : Oid) (volatileContext : ascii)
  : bool * ascii :=
  let volatileFlag := func_volatile func_id in
  let volatileContext' :=
      if Ascii.eqb volatileFlag PROVOLATILE_VOLATILE
         || Ascii.eqb volatileContext PROVOLATILE_VOLATILE
      then PROVOLATILE_VOLATILE
      else if Ascii.eqb volatileFlag PROVOLATILE_STABLE
              || Ascii.eqb volatileContext PROVOLATILE_STABLE
      then PROVOLATILE_STABLE
      else PROVOLATILE_IMMUTABLE in
  (Ascii.eqb volatileFlag PROVOLATILE_VOLATILE, volatileContext').

(** The walker takes the state it writes to and gives it back.  A [NULL]
    expression is [None] and is handled by [MasterIrreducibleExpression]
    and by [walk_opt]. *)
Fixpoint MasterIrreducibleExpressionWalker (expression : Node) (state : WalkerState)
  : bool * WalkerState :=
  match expression with
  | T_CoalesceExpr args =>
      if contain_mutable_functions (Some (T_List args))
      then (true, makeWalkerState (containsVar state) (varArgument state) true)
      else (false, state)
  | T_CaseExpr _ _ _ =>
      if contain_mutable_functions (Some expression)
      then (true, makeWalkerState (containsVar state) (varArgument state) true)
      else (false, state)
  | T_Var _ =>
      (false, makeWalkerState true (varArgument state) (badCoalesce state))
  | _ =>
      let volatileFlag :=
          snd (check_functions_in_node expression
                 MasterIrreducibleExpressionFunctionChecker zero) in
      if Ascii.eqb volatileFlag PROVOLATILE_STABLE
      then
        let '(containsDisallowedFunction, childState) :=
            expression_tree_walker expression MasterIrreducibleExpressionWalker
                                   (makeWalkerState false false false) in
        let varArgument1 :=
            if containsVar childState then true else varArgument state in
        (containsDisallowedFunction || containsVar childState,
         makeWalkerState (containsVar state)
                         (varArgument1 || varArgument childState)
                         (badCoalesce state || badCoalesce childState))
      else
        expression_tree_walker expression MasterIrreducibleExpressionWalker state
  end.

(** [varArgument] and [badCoalesce] are the caller's flags: the function
    gets their current values and gives back the updated ones together
    with its result. *)
Definition MasterIrreducibleExpression (expression : option Node)
           (varArgument_io badCoalesce_io : bool) : bool * bool * bool :=
  let data := makeWalkerState false false false in
  let '(result, data) :=
      match expression with
      | None => (false, data)
      | Some e => MasterIrreducibleExpressionWalker e data
      end in
  (result, varArgument_io || varArgument data, badCoalesce_io || badCoalesce data).
End Analyzer.

(** The state a top-level call starts from, and the field-wise disjunction of
    two walker states. *)
Definition fresh_state : WalkerState := makeWalkerState false false false.

Definition join_state (s d : WalkerState) : WalkerState :=
  makeWalkerState (containsVar s || containsVar d)
                  (varArgument s || varArgument d)
                  (badCoalesce s || badCoalesce d).

Arguments join_state : simpl never.

(** A walker that only adds to its state: its answer does not depend on the
    state it is given, and what it writes is joined to that state. *)
Definition additive (walker : Node -> WalkerState -> bool * WalkerState) (n : Node) : Prop :=
  forall st, walker n st = (fst (walker n fresh_state),
                            join_state st (snd (walker n fresh_state))).

(** ** Validation of modifications *)

(** A check either rejects with a deferred error or passes a value on. *)
Definition bindE {A B : Type} (m : DeferredErrorMessage + A)
           (k : A -> DeferredErrorMessage + B) : DeferredErrorMessage + B :=
  match m with
  | inl e => inl e
  | inr a => k a
  end.

Notation "x <-- m ;; k" := (bindE m (fun x => k))
  (at level 61, m at next level, right associativity).

(** The deferred errors of [ModifyQuerySupported], in the order of the
    source. *)
Definition SubqueryNotSupportedError : DeferredErrorMessage :=
  DeferredError ERRCODE_FEATURE_NOT_SUPPORTED
    "cannot perform distributed planning for the given modifications"
    (Some "Subqueries are not supported in distributed modifications."%string) None.

Definition CteNotSupportedError : DeferredErrorMessage :=
  DeferredError ERRCODE_FEATURE_NOT_SUPPORTED
    "common table expressions are not supported in distributed modifications"
    None None.

Definition ReferenceTableNotCoordinatorError : DeferredErrorMessage :=
  DeferredError ERRCODE_FEATURE_NOT_SUPPORTED
    "cannot perform distributed planning for the given modification"
    (Some "Modifications to reference tables are supported only from the coordinator."%string)
    None.

Definition ViewModificationError : DeferredErrorMessage :=
  DeferredError ERRCODE_FEATURE_NOT_SUPPORTED
    "cannot modify views over distributed tables" None None.

Definition RangeTableEntryError (kind : RTEKind) : DeferredErrorMessage :=
  DeferredError ERRCODE_FEATURE_NOT_SUPPORTED
    "cannot perform distributed planning for the given modifications"
    (Some match kind with
          | RTE_SUBQUERY => "Subqueries are not supported in distributed modifications."
          | RTE_JOIN => "Joins are not supported in distributed modifications."
          | RTE_FUNCTION =>
              "Functions must not appear in the FROM clause of a distributed modifications."
          | _ => "Unrecognized range table entry."
          end%string)
    None.

Definition JoinNotSupportedError : DeferredErrorMessage :=
  DeferredError ERRCODE_FEATURE_NOT_SUPPORTED
    "cannot perform distributed planning for the given modification"
    (Some "Joins are not supported in distributed modifications."%string) None.

Definition MultiRowInsertError : DeferredErrorMessage :=
  DeferredError ERRCODE_FEATURE_NOT_SUPPORTED
    "cannot perform distributed planning for the given modification"
    (Some "Multi-row INSERTs to distributed tables are not supported."%string) None.

Definition UpdateVolatileError : DeferredErrorMessage :=
  DeferredError ERRCODE_FEATURE_NOT_SUPPORTED
    "functions used in UPDATE queries on distributed tables must not be VOLATILE"
    None None.

Definition WhereVolatileError : DeferredErrorMessage :=
  DeferredError ERRCODE_FEATURE_NOT_SUPPORTED
    "functions used in the WHERE clause of modification queries on distributed tables must not be VOLATILE"
    None None.

Definition StableVarArgumentError : DeferredErrorMessage :=
  DeferredError ERRCODE_FEATURE_NOT_SUPPORTED
    "STABLE functions used in UPDATE queries cannot be called with column references"
    None None.

Definition BadCoalesceError : DeferredErrorMessage :=
  DeferredError ERRCODE_FEATURE_NOT_SUPPORTED
    "non-IMMUTABLE functions are not allowed in CASE or COALESCE statements"
    None None.

Definition ReturningMutableError : DeferredErrorMessage :=
  DeferredError ERRCODE_FEATURE_NOT_SUPPORTED
    "non-IMMUTABLE functions are not allowed in the RETURNING clause"
    None None.

Definition OnConflictSetMutableError : DeferredErrorMessage :=
  DeferredError ERRCODE_FEATURE_NOT_SUPPORTED
    "functions used in the DO UPDATE SET clause of INSERTs on distributed tables must be marked IMMUTABLE"
    None None.

Definition OnConflictWhereMutableError : DeferredErrorMessage :=
  DeferredError ERRCODE_FEATURE_NOT_SUPPORTED
    "functions used in the WHERE clause of the ON CONFLICT clause of INSERTs on distributed tables must be marked IMMUTABLE"
    None None.

Definition PartitionValueModifiedError : DeferredErrorMessage :=
  DeferredError ERRCODE_FEATURE_NOT_SUPPORTED
    "modifying the partition value of rows is not allowed" None None.

(** The assignments [rightConst->constvalue = ...] of the source: the constant
    on the right of the equality made by [MakeOpExpression] takes the value,
    null flag and by-value flag of [newValue]. *)
Definition SetRightConst (equalityExpr : Node) (newValue : Const) : Node :=
  match equalityExpr with
  | T_OpExpr opno opfuncid [leftop; T_Const _] => T_OpExpr opno opfuncid [leftop; T_Const newValue]
  | other => other
  end.

(** A target list or a returning list seen as one expression: the walkers
    visit the expression of each entry. *)
Definition TargetListNode (l : list TargetEntry) : option Node :=
  match l with
  | [] => None
  | _ => Some (T_List (map expr l))
  end.

Section Validator.
Context {E : Externals}.

Definition UpdateOrDeleteQuery (query : Query) : bool :=
  match commandType query with
  | CMD_UPDATE | CMD_DELETE => true
  | _ => false
  end.

Definition ExtractFirstDistributedTableId (query : Query) : Oid :=
  match find (fun rangeTableEntry => IsDistributedTable (relid rangeTableEntry))
             (ExtractRangeTableEntryWalker query) with
  | Some rangeTableEntry => relid rangeTableEntry
  | None => InvalidOid
  end.

Definition TargetEntryChangesValue (targetEntry : TargetEntry) (column : Var)
           (joinTree : option FromExpr) : bool :=
  if negb (resno targetEntry =? varattno column) then
    (* target entry of the form SET some_other_col = <x> *)
    false
  else
    match expr targetEntry with
    | T_Var newValue =>
        (* SET col = table.col leaves the value as it is *)
        negb (varattno newValue =? varattno column)
    | T_Const newValue =>
        let restrictClauseList := WhereClauseList joinTree in
        let equalityExpr :=
            SetRightConst (MakeOpExpression column BTEqualStrategyNumber) newValue in
        let predicateIsImplied := predicate_implied_by [equalityExpr] restrictClauseList in
        (* SET col = <x> WHERE col = <x> AND ... leaves the value as it is *)
        negb predicateIsImplied
    | _ => true
    end.

(** The loop over the range table: counts the relations, notes a VALUES
    scan, rejects what is not supported. *)
Fixpoint ModifyQuerySupported_rangeTable (queryTree : Query) (multiShardQuery : bool)
         (rangeTableList : list RangeTblEntry)
         (hasValuesScan : bool) (queryTableCount : Z)
  : DeferredErrorMessage + (bool * Z) :=
  match rangeTableList with
  | [] => inr (hasValuesScan, queryTableCount)
  | rangeTableEntry :: rest =>
      match rtekind rangeTableEntry with
      | RTE_RELATION =>
          let distTableEntry := DistributedTableCacheEntry (relid rangeTableEntry) in
          let referenceTable :=
              Ascii.eqb (partitionMethod distTableEntry) DISTRIBUTE_BY_NONE in
          if referenceTable && negb IsCoordinator then
            inl ReferenceTableNotCoordinatorError
          else
            let queryTableCount := uint32_wrap (queryTableCount + 1) in
            if Ascii.eqb (relkind rangeTableEntry) RELKIND_VIEW then
              inl ViewModificationError
            else
              ModifyQuerySupported_rangeTable queryTree multiShardQuery rest
                                              hasValuesScan queryTableCount
      | RTE_VALUES =>
          ModifyQuerySupported_rangeTable queryTree multiShardQuery rest
                                          true queryTableCount
      | kind =>
          if UpdateOrDeleteQuery queryTree && negb multiShardQuery then
            ModifyQuerySupported_rangeTable queryTree multiShardQuery rest
                                            hasValuesScan queryTableCount
          else
            inl (RangeTableEntryError kind)
      end
  end.

Definition IsPartitionColumnEntry (partitionColumn : option Var) (entry : TargetEntry) : bool :=
  match partitionColumn with
  | None => false (* reference tables do not have partition column *)
  | Some column => resno entry =? varattno column
  end.

(** The loop over the target list.  The state is [specifiesPartitionValue],
    [hasVarArgument] and [hasBadCoalesce]. *)
Fixpoint ModifyQuerySupported_targetList (queryTree : Query) (partitionColumn : option Var)
         (targetList : list TargetEntry)
         (specifiesPartitionValue hasVarArgument hasBadCoalesce : bool)
  : DeferredErrorMessage + (bool * bool * bool) :=
  match targetList with
  | [] => inr (specifiesPartitionValue, hasVarArgument, hasBadCoalesce)
  | targetEntry :: rest =>
      let isUpdate := CmdType_beq (commandType queryTree) CMD_UPDATE in
      let targetEntryPartitionColumn := IsPartitionColumnEntry partitionColumn targetEntry in
      if resjunk targetEntry then
        (* skip resjunk entries: UPDATE adds some for ctid, etc. *)
        ModifyQuerySupported_targetList queryTree partitionColumn rest
          specifiesPartitionValue hasVarArgument hasBadCoalesce
      else if isUpdate && contain_volatile_functions (Some (expr targetEntry)) then
        inl UpdateVolatileError
      else
        let specifiesPartitionValue :=
            match partitionColumn with
            | Some column =>
                if isUpdate && targetEntryPartitionColumn
                   && TargetEntryChangesValue targetEntry column (jointree queryTree)
                then true else specifiesPartitionValue
            | None => specifiesPartitionValue
            end in
        let '(_, hasVarArgument, hasBadCoalesce) :=
            if isUpdate
            then MasterIrreducibleExpression (Some (expr targetEntry))
                                             hasVarArgument hasBadCoalesce
            else (false, hasVarArgument, hasBadCoalesce) in
        ModifyQuerySupported_targetList queryTree partitionColumn rest
          specifiesPartitionValue hasVarArgument hasBadCoalesce
  end.

(** The loop over the SET list of ON CONFLICT DO UPDATE. *)
Fixpoint ModifyQuerySupported_onConflictSet (partitionColumn : option Var)
         (onConflictSet : list TargetEntry) (specifiesPartitionValue : bool)
  : DeferredErrorMessage + bool :=
  match onConflictSet with
  | [] => inr specifiesPartitionValue
  | setTargetEntry :: rest =>
      match partitionColumn with
      | Some column =>
          if resno setTargetEntry =? varattno column then
            let specifiesPartitionValue :=
                match expr setTargetEntry with
                | T_Var setVar => negb (varattno setVar =? varattno column)
                | _ => true
                end in
            ModifyQuerySupported_onConflictSet partitionColumn rest specifiesPartitionValue
          else
            match expr setTargetEntry with
            | T_Var _ =>
                ModifyQuerySupported_onConflictSet partitionColumn rest specifiesPartitionValue
            | setExpr =>
                if contain_mutable_functions (Some setExpr)
                then inl OnConflictSetMutableError
                else ModifyQuerySupported_onConflictSet partitionColumn rest
                                                        specifiesPartitionValue
            end
      | None =>
          match expr setTargetEntry with
          | T_Var _ =>
              ModifyQuerySupported_onConflictSet partitionColumn rest specifiesPartitionValue
          | setExpr =>
              if contain_mutable_functions (Some setExpr)
              then inl OnConflictSetMutableError
              else ModifyQuerySupported_onConflictSet partitionColumn rest
                                                      specifiesPartitionValue
          end
      end
  end.

Definition guard (reject : bool) (e : DeferredErrorMessage) : DeferredErrorMessage + unit :=
  if reject then inl e else inr tt.

(** [onConflictSet], [arbiterWhere] and [onConflictWhere] as the source sets
    them: those of the ON CONFLICT clause of an INSERT, and [NIL], [NULL] and
    [NULL] otherwise. *)
Definition ModifyQuerySupported_onConflict (queryTree : Query) : OnConflictExpr :=
  match onConflict queryTree with
  | Some onConflictClause =>
      if CmdType_beq (commandType queryTree) CMD_INSERT then onConflictClause
      else makeOnConflictExpr [] None None
  | None => makeOnConflictExpr [] None None
  end.

(** [ModifyQuerySupported] up to its last test: the deferred error of the
    first rule that rejects the statement, or else the value
    [specifiesPartitionValue] has when the last test is reached. *)
Definition ModifyQuerySupported_rules (queryTree : Query) (multiShardQuery : bool)
  : DeferredErrorMessage + bool :=
  let distributedTableId := ExtractFirstDistributedTableId queryTree in
  let rangeTableId := 1 in
  let partitionColumn := PartitionColumn distributedTableId rangeTableId in
  let cmd := commandType queryTree in
  _ <-- guard (hasSubLinks queryTree
               && (negb (UpdateOrDeleteQuery queryTree) || multiShardQuery))
              SubqueryNotSupportedError ;;
  _ <-- guard (match cteList queryTree with [] => false | _ => true end)
              CteNotSupportedError ;;
  scanned <-- ModifyQuerySupported_rangeTable queryTree multiShardQuery
                (ExtractRangeTableEntryWalker queryTree) false 0 ;;
  let '(hasValuesScan, queryTableCount) := scanned in
  _ <-- guard (negb (CmdType_beq cmd CMD_INSERT) && negb (queryTableCount =? 1)
               && (negb (UpdateOrDeleteQuery queryTree) || multiShardQuery))
              JoinNotSupportedError ;;
  _ <-- guard hasValuesScan MultiRowInsertError ;;
  specifiesPartitionValue <--
    (if CmdType_beq cmd CMD_INSERT || CmdType_beq cmd CMD_UPDATE || CmdType_beq cmd CMD_DELETE
     then
       flags <-- ModifyQuerySupported_targetList queryTree partitionColumn
                   (targetList queryTree) false false false ;;
       let '(specifiesPartitionValue, hasVarArgument, hasBadCoalesce) := flags in
       flags <--
         match jointree queryTree with
         | Some joinTree =>
             if contain_volatile_functions (quals joinTree) then inl WhereVolatileError
             else
               let '(_, hasVarArgument, hasBadCoalesce) :=
                   MasterIrreducibleExpression (quals joinTree)
                                               hasVarArgument hasBadCoalesce in
               inr (hasVarArgument, hasBadCoalesce)
         | None => inr (hasVarArgument, hasBadCoalesce)
         end ;;
       let '(hasVarArgument, hasBadCoalesce) := flags in
       _ <-- guard hasVarArgument StableVarArgumentError ;;
       _ <-- guard hasBadCoalesce BadCoalesceError ;;
       _ <-- guard (contain_mutable_functions (TargetListNode (returningList queryTree)))
                   ReturningMutableError ;;
       inr specifiesPartitionValue
     else inr false) ;;
  let conflict := ModifyQuerySupported_onConflict queryTree in
  specifiesPartitionValue <--
    ModifyQuerySupported_onConflictSet partitionColumn (onConflictSet conflict)
                                       specifiesPartitionValue ;;
  _ <-- guard (contain_mutable_functions (arbiterWhere conflict)
               || contain_mutable_functions (onConflictWhere conflict))
              OnConflictWhereMutableError ;;
  inr specifiesPartitionValue.

(** [NULL] when the statement only has supported features, otherwise the
    description of the error. *)
Definition ModifyQuerySupported (queryTree : Query) (multiShardQuery : bool)
  : option DeferredErrorMessage :=
  match ModifyQuerySupported_rules queryTree multiShardQuery with
  | inl planningError => Some planningError
  | inr specifiesPartitionValue =>
      if specifiesPartitionValue then Some PartitionValueModifiedError else None
  end.
End Validator.

(** ** Shard pruning and target resolution *)

(** C's [strncmp]: the sign of the first difference among the first [n]
    characters. *)
Fixpoint strncmp (s1 s2 : string) (n : nat) : Z :=
  match n with
  | O => 0
  | S n' =>
      match s1, s2 with
      | EmptyString, EmptyString => 0
      | EmptyString, String _ _ => -1
      | String _ _, EmptyString => 1
      | String c1 r1, String c2 r2 =>
          if Ascii.eqb c1 c2 then strncmp r1 r2 n'
          else if (N_of_ascii c1 <? N_of_ascii c2)%N then -1 else 1
      end
  end.

(** PostgreSQL's [extract_actual_clauses]: the clauses whose pseudo-constant
    flag is the one asked for. *)
Definition extract_actual_clauses (restrictinfo_list : list RestrictInfo)
           (pseudoconstant_wanted : bool) : list Node :=
  map clause
      (filter (fun rinfo => Bool.eqb (pseudoconstant rinfo) pseudoconstant_wanted)
              restrictinfo_list).

Definition get_all_actual_clauses (restrictinfo_list : list RestrictInfo) : list Node :=
  map clause restrictinfo_list.

(** PostgreSQL's [get_tle_by_resno]. *)
Definition get_tle_by_resno (tlist : list TargetEntry) (wanted : AttrNumber)
  : option TargetEntry :=
  find (fun tle => resno tle =? wanted) tlist.

(** The partition value lies within the bounds of the shard interval. *)
Definition ShardIntervalContains (partitionValue : Datum) (shardInterval : ShardInterval) : bool :=
  (minValue shardInterval <=? partitionValue) && (partitionValue <=? maxValue shardInterval).

(** Modelled from the spec: [FindShardInterval] (shardinterval_utils.c) is
    not in the planner file.  For a table with sorted, non-overlapping shard
    intervals it locates the interval that contains the partition value,
    [min <= v <= max], and gives nothing when no interval does. *)
Definition FindShardInterval (partitionValue : Datum) (cacheEntry : DistTableCacheEntry)
  : option ShardInterval :=
  find (ShardIntervalContains partitionValue) (sortedShardIntervalArray cacheEntry).

(** Modelled from the spec: the rewriting of one table reference by
    [UpdateRelationToShardNames], which is not in the planner file.  A
    base-relation reference whose relation has an entry in the
    relation-to-shard mapping addresses that shard and stays a relation; a
    base-relation reference whose shards were all pruned becomes a
    subquery-shaped reference that returns no rows (the comment in
    [RouterJob] says the same); the access flags stay as they are. *)
Definition UpdateRelationToShardNames_rte (relationShardList : list RelationShard)
           (rangeTableEntry : RangeTblEntry) : RangeTblEntry :=
  match rtekind rangeTableEntry with
  | RTE_RELATION =>
      if existsb (fun relationShard => rs_relationId relationShard =? relid rangeTableEntry)
                 relationShardList
      then rangeTableEntry
      else makeRangeTblEntry RTE_SUBQUERY (relid rangeTableEntry) (relkind rangeTableEntry)
                             (requiredPerms rangeTableEntry)
  | _ => rangeTableEntry
  end.

(** Modelled from the spec: [UpdateRelationToShardNames]
    (deparse_shard_query.c) is not in the planner file.  It rewrites all
    table references of the statement in place. *)
Definition UpdateRelationToShardNames (query : Query) (relationShardList : list RelationShard)
  : Query :=
  makeQuery (commandType query) (hasSubLinks query) (hasForUpdate query) (cteList query)
            (map (UpdateRelationToShardNames_rte relationShardList) (rtable query))
            (jointree query) (targetList query) (returningList query) (onConflict query).

(** The character that the format strings of the source write as a
    backslash and a quote. *)
Definition double_quote : string := String "034"%char EmptyString.

Definition is_nil {A : Type} (l : list A) : bool :=
  match l with
  | [] => true
  | _ => false
  end.

Section Pruning.
Context {E : Externals}.

Definition CreateJob (query : Query) : Job :=
  makeJob INVALID_JOB_ID query [] false false false.

Definition CreateTask (taskType : TaskType) : Task :=
  makeTask taskType INVALID_JOB_ID INVALID_TASK_ID None INVALID_SHARD_ID []
           false REPLICATION_MODEL_INVALID false [].

Definition ExtractInsertPartitionValue (query : Query) (partitionColumn : Var)
  : Outcome Node :=
  match get_tle_by_resno (targetList query) (varattno partitionColumn) with
  | None =>
      Fatal ERRCODE_NULL_VALUE_NOT_ALLOWED
            "cannot perform an INSERT without a partition column value"
  | Some targetEntry => Ok (expr targetEntry)
  end.

Definition CanShardPrune (distributedTableId : Oid) (query : Query) : Outcome bool :=
  let rangeTableId := 1 in
  if negb (CmdType_beq (commandType query) CMD_INSERT) then
    (* we assume UPDATE/DELETE is always prunable *)
    Ok true
  else
    match PartitionColumn distributedTableId rangeTableId with
    | None =>
        (* can always do shard pruning for reference tables *)
        Ok true
    | Some partitionColumn =>
        partitionValueExpr <- ExtractInsertPartitionValue query partitionColumn ;;
        match partitionValueExpr with
        | T_Const _ => Ok true
        | _ => Ok false
        end
    end.

Definition ErrorIfNoShardsExist (cacheEntry : DistTableCacheEntry) : Outcome unit :=
  let shardCount := shardIntervalArrayLength cacheEntry in
  if shardCount =? 0 then
    Fatal ERRCODE_OBJECT_NOT_IN_PREREQUISITE_STATE "could not find any shards"
  else Ok tt.

(** The candidate shards of [FindShardForInsert] for a constant partition
    value: the interval found by [FindShardInterval] for a hash or range
    partitioned table, what [PruneShards] leaves for an equality on the
    partition column otherwise. *)
Definition FindShardForInsert_prunedShardList (cacheEntry : DistTableCacheEntry)
           (partitionColumn : Var) (partitionValueConst : Const) : list ShardInterval :=
  let distributedTableId := ce_relationId cacheEntry in
  let partitionMethod := partitionMethod cacheEntry in
  if Ascii.eqb partitionMethod DISTRIBUTE_BY_HASH
     || Ascii.eqb partitionMethod DISTRIBUTE_BY_RANGE
  then
    let partitionValue := constvalue partitionValueConst in
    match FindShardInterval partitionValue cacheEntry with
    | Some shardInterval => [shardInterval]
    | None => []
    end
  else
    let tableId := 1 in
    let equalityExpr :=
        SetRightConst (MakeOpExpression partitionColumn BTEqualStrategyNumber)
                      partitionValueConst in
    let restrictClauseList := [equalityExpr] in
    PruneShards distributedTableId tableId restrictClauseList.

(** The deferred error of an INSERT whose value falls into no shard
    ([prunedShardCount = 0]) or into several. *)
Definition InsertShardCountError (cacheEntry : DistTableCacheEntry) (prunedShardCount : nat)
  : DeferredErrorMessage :=
  let distributedTableId := ce_relationId cacheEntry in
  let partitionKeyString := partitionKeyString cacheEntry in
  let partitionColumnName := ColumnNameToColumn distributedTableId partitionKeyString in
  let targetCountType :=
      match prunedShardCount with O => "no" | _ => "multiple" end%string in
  let errorHint :=
      match prunedShardCount with
      | O => "Make sure you have created a shard which can receive this partition column value."
      | _ => "Make sure the value for partition column " ++ double_quote
             ++ partitionColumnName ++ double_quote ++ " falls into a single shard."
      end%string in
  let errorMessage :=
      ("cannot run INSERT command which targets " ++ targetCountType ++ " shards")%string in
  DeferredError ERRCODE_FEATURE_NOT_SUPPORTED errorMessage None (Some errorHint).
End Pruning.

Section Router.
Context {E : Externals}.

Definition FindShardForInsert (query : Query) (cacheEntry : DistTableCacheEntry)
  : Outcome ShardInterval :=
  let distributedTableId := ce_relationId cacheEntry in
  let rangeTableId := 1 in
  (* reference tables do not have a partition column, but can only have one shard *)
  if Ascii.eqb (partitionMethod cacheEntry) DISTRIBUTE_BY_NONE then
    let shardCount := shardIntervalArrayLength cacheEntry in
    match sortedShardIntervalArray cacheEntry with
    | [shardInterval] => Ok shardInterval
    | _ =>
        Fatal ERRCODE_INTERNAL_ERROR
              ("reference table cannot have "
                 ++ NilZero.string_of_int (Z.to_int shardCount) ++ " shards")%string
    end
  else
    match PartitionColumn distributedTableId rangeTableId with
    | None =>
        (* the source reads [partitionColumn->varattno] without a test: a
           table that is not a reference table has a partition column *)
        Fatal ERRCODE_INTERNAL_ERROR "no partition column"
    | Some partitionColumn =>
        partitionValueExpr <- ExtractInsertPartitionValue query partitionColumn ;;
        match partitionValueExpr with
        | T_Const partitionValueConst =>
            if constisnull partitionValueConst then
              Fatal ERRCODE_NULL_VALUE_NOT_ALLOWED
                    "cannot perform an INSERT with NULL in the partition column"
            else
              let prunedShardList :=
                  FindShardForInsert_prunedShardList cacheEntry partitionColumn
                                                     partitionValueConst in
              match prunedShardList with
              | [shardInterval] => Ok shardInterval
              | _ => Deferred (InsertShardCountError cacheEntry (List.length prunedShardList))
              end
        | _ =>
            (* non-constants should have been caught by CanShardPrune *)
            Fatal ERRCODE_NULL_VALUE_NOT_ALLOWED
                  "cannot perform an INSERT with a non-constant in the partition column"
        end
    end.

Definition RouterInsertTaskList (query : Query) : Outcome (list Task) :=
  let distributedTableId := ExtractFirstDistributedTableId query in
  let cacheEntry := DistributedTableCacheEntry distributedTableId in
  _ <- ErrorIfNoShardsExist cacheEntry ;;
  shardInterval <- FindShardForInsert query cacheEntry ;;
  let modifyTask := CreateTask MODIFY_TASK in
  Ok [makeTask (taskType modifyTask) (task_jobId modifyTask) (taskId modifyTask)
               (queryString modifyTask)
               (si_shardId shardInterval)
               (taskPlacementList modifyTask)
               (match onConflict query with Some _ => true | None => upsertQuery modifyTask end)
               (ce_replicationModel cacheEntry)
               (insertSelectQuery modifyTask) (relationShardList modifyTask)].

Definition RouterInsertJob (originalQuery query : Query) : Outcome Job :=
  let distributedTableId := ExtractFirstDistributedTableId query in
  canPrune <- CanShardPrune distributedTableId query ;;
  planned <-
    (if negb canPrune then
       (* there is a non-constant in the partition column, cannot prune yet;
          must evaluate the non-constant in the partition column *)
       Ok ([], true, true)
     else
       taskList <- RouterInsertTaskList query ;;
       (* determine whether there are function calls to evaluate *)
       Ok (taskList, false, RequiresMasterEvaluation originalQuery)) ;;
  let '(taskList, deferredPruning, requiresMasterEvaluation) := planned in
  let taskList :=
      if negb requiresMasterEvaluation
      then RebuildQueryStrings originalQuery taskList
      else taskList in
  let job := CreateJob originalQuery in
  Ok (makeJob (jobId job) (jobQuery job) taskList (subqueryPushdown job)
              requiresMasterEvaluation deferredPruning).

(** *** SELECT, UPDATE and DELETE *)

Definition RelationPrunedShardList (relationRestriction : RelationRestriction)
  : list ShardInterval :=
  let relationId := rr_relationId relationRestriction in
  let tableId := index relationRestriction in
  let cacheEntry := DistributedTableCacheEntry relationId in
  let shardCount := shardIntervalArrayLength cacheEntry in
  let baseRestrictionList := baserestrictinfo (relOptInfo relationRestriction) in
  let restrictClauseList := get_all_actual_clauses baseRestrictionList in
  let joinInfoList := joininfo (relOptInfo relationRestriction) in
  let pseudoRestrictionList := extract_actual_clauses joinInfoList true in
  let whereFalseQuery := ContainsFalseClause pseudoRestrictionList in
  if negb whereFalseQuery && (0 <? shardCount)
  then PruneShards relationId tableId restrictClauseList
  else [].

Definition SetPrunedShardIntervalList (relationRestriction : RelationRestriction)
           (prunedShardList : list ShardInterval) : RelationRestriction :=
  makeRelationRestriction (index relationRestriction) (rr_relationId relationRestriction)
                          (rte relationRestriction) (relOptInfo relationRestriction)
                          prunedShardList.

(** The result is [multiShardQuery], the list of the pruned shard lists
    and the restrictions with the pruned shard lists recorded in them
    (on the quick bail out the first is true and the second is [NIL]). *)
Fixpoint TargetShardIntervalsForRouter (query : Query)
         (relationRestrictionList : list RelationRestriction)
  : bool * list (list ShardInterval) * list RelationRestriction :=
  match relationRestrictionList with
  | [] => (false, [], [])
  | relationRestriction :: rest =>
      let prunedShardList := RelationPrunedShardList relationRestriction in
      if (1 <? Z.of_nat (List.length prunedShardList)) then
        (true, [], SetPrunedShardIntervalList relationRestriction [] :: rest)
      else
        let '(multiShardQuery, prunedRelationShardList, rest') :=
            TargetShardIntervalsForRouter query rest in
        let recorded := SetPrunedShardIntervalList relationRestriction prunedShardList in
        if multiShardQuery
        then (true, [], recorded :: rest')
        else (false, prunedShardList :: prunedRelationShardList, recorded :: rest')
  end.

Fixpoint RelationPrunesToMultipleShards_scan (previousRelationShard : option RelationShard)
         (relationShardList : list RelationShard) : bool :=
  match relationShardList with
  | [] => false
  | relationShard :: rest =>
      match previousRelationShard with
      | Some previous =>
          if (rs_relationId relationShard =? rs_relationId previous)
             && negb (rs_shardId relationShard =? rs_shardId previous)
          then true
          else RelationPrunesToMultipleShards_scan (Some relationShard) rest
      | None => RelationPrunesToMultipleShards_scan (Some relationShard) rest
      end
  end.

Definition RelationPrunesToMultipleShards (relationShardList : list RelationShard) : bool :=
  RelationPrunesToMultipleShards_scan None
    (SortList_CompareRelationShards relationShardList).

Definition PlacementNodeMatches (lhsPlacement rhsPlacement : ShardPlacement) : bool :=
  (nodePort rhsPlacement =? nodePort lhsPlacement)
  && (strncmp (nodeName rhsPlacement) (nodeName lhsPlacement) WORKER_LENGTH =? 0).

(** For each placement of the left list in turn, the placements of the
    right list on the same node and port are appended to the result. *)
Definition IntersectPlacementList (lhsPlacementList rhsPlacementList : list ShardPlacement)
  : list ShardPlacement :=
  flat_map (fun lhsPlacement => filter (PlacementNodeMatches lhsPlacement) rhsPlacementList)
           lhsPlacementList.

Fixpoint WorkersContainingAllShards_loop (prunedShardIntervalsList : list (list ShardInterval))
         (firstShard : bool) (currentPlacementList : list ShardPlacement)
  : list ShardPlacement :=
  match prunedShardIntervalsList with
  | [] => currentPlacementList
  | [] :: rest =>
      WorkersContainingAllShards_loop rest firstShard currentPlacementList
  | (shardInterval :: _) :: rest =>
      let shardId := si_shardId shardInterval in
      (* retrieve all active shard placements for this shard *)
      let newPlacementList := FinalizedShardPlacementList shardId in
      let currentPlacementList :=
          if firstShard then newPlacementList
          else IntersectPlacementList currentPlacementList newPlacementList in
      (* bail out if placement list becomes empty *)
      if is_nil currentPlacementList then currentPlacementList
      else WorkersContainingAllShards_loop rest false currentPlacementList
  end.

Definition WorkersContainingAllShards (prunedShardIntervalsList : list (list ShardInterval))
  : list ShardPlacement :=
  WorkersContainingAllShards_loop prunedShardIntervalsList true [].
End Router.

(** What [PlanRouterQuery] leaves behind: its return value, the statement
    (rewritten in place on success), the restrictions with the recorded
    pruned shard lists, and the three output parameters. *)
Record RouterQueryPlan : Type := makeRouterQueryPlan {
  rq_planningError : option DeferredErrorMessage;
  rq_originalQuery : Query;
  rq_restrictionContext : RelationRestrictionContext;
  rq_placementList : list ShardPlacement;
  rq_anchorShardId : uint64;
  rq_relationShardList : list RelationShard
}.

Record MultiPlan : Type := makeMultiPlan {
  operation : CmdType;
  planningError : option DeferredErrorMessage;
  workerJob : option Job;
  masterQuery : option Query;
  routerExecutable : bool;
  hasReturning : bool
}.

Section Planner.
Context {E : Externals}.

Definition UpdateOrDeleteRTE (rangeTableEntry : RangeTblEntry) : bool :=
  negb (Z.land ACL_UPDATE (requiredPerms rangeTableEntry) =? 0)
  || negb (Z.land ACL_DELETE (requiredPerms rangeTableEntry) =? 0).

Definition GetUpdateOrDeleteRTE (rangeTableList : list RangeTblEntry) : option RangeTblEntry :=
  find UpdateOrDeleteRTE rangeTableList.

Definition SelectsFromDistributedTable (rangeTableList : list RangeTblEntry) : bool :=
  existsb (fun rangeTableEntry =>
             if relid rangeTableEntry =? InvalidOid then false
             else
               let cacheEntry := DistributedTableCacheEntry (relid rangeTableEntry) in
               negb (Ascii.eqb (partitionMethod cacheEntry) DISTRIBUTE_BY_NONE)
               && negb (UpdateOrDeleteRTE rangeTableEntry))
          rangeTableList.

(** The loop of [PlanRouterQuery] over the pruned shard lists; the state is
    [shardsPresent], the anchor [shardId] and [*relationShardList]. *)
Fixpoint PlanRouterQuery_shards (prunedRelationShardList : list (list ShardInterval))
         (shardsPresent : bool) (shardId : uint64) (relationShardList : list RelationShard)
  : bool * uint64 * list RelationShard :=
  match prunedRelationShardList with
  | [] => (shardsPresent, shardId, relationShardList)
  | [] :: rest =>
      (* no shard is present or all shards are pruned out case will be handled later *)
      PlanRouterQuery_shards rest shardsPresent shardId relationShardList
  | (shardInterval :: _) :: rest =>
      let shardId :=
          if shardId =? INVALID_SHARD_ID then si_shardId shardInterval else shardId in
      let relationShard :=
          makeRelationShard (si_relationId shardInterval) (si_shardId shardInterval) in
      PlanRouterQuery_shards rest true shardId (relationShardList ++ [relationShard])
  end.

Definition MultiShardQueryError (originalQuery : Query) : DeferredErrorMessage :=
  let commandType := commandType originalQuery in
  let commandName :=
      match commandType with
      | CMD_UPDATE => "UPDATE"
      | CMD_DELETE => "DELETE"
      | _ => "SELECT"
      end%string in
  let errorHint :=
      match commandType with
      | CMD_UPDATE | CMD_DELETE =>
          let rangeTableList := ExtractRangeTableEntryWalker originalQuery in
          match GetUpdateOrDeleteRTE rangeTableList with
          | Some updateOrDeleteRTE =>
              let updateOrDeleteTableCacheEntry :=
                  DistributedTableCacheEntry (relid updateOrDeleteRTE) in
              let partitionKeyString := partitionKeyString updateOrDeleteTableCacheEntry in
              let partitionColumnName :=
                  ColumnNameToColumn (relid updateOrDeleteRTE) partitionKeyString in
              ("Consider using an equality filter on partition column " ++ double_quote
                 ++ partitionColumnName ++ double_quote
                 ++ " to target a single shard. If you'd like to run a multi-shard operation, use master_modify_multiple_shards().")%string
          | None =>
              (* the source reads the entry without a test: an UPDATE or
                 DELETE carries the entry of the table it modifies *)
              EmptyString
          end
      | _ => EmptyString
      end in
  (* note that for SELECT queries, we never print this error message *)
  DeferredError ERRCODE_FEATURE_NOT_SUPPORTED
    ("cannot run " ++ commandName ++ " command which targets multiple shards")%string
    None (Some errorHint).

Definition SameRelationMultipleShardsError : DeferredErrorMessage :=
  DeferredError ERRCODE_FEATURE_NOT_SUPPORTED
    "cannot run command which targets multiple shards" None None.

Definition NoWorkerWithAllPlacementsError : DeferredErrorMessage :=
  DeferredError ERRCODE_FEATURE_NOT_SUPPORTED
    "found no worker with all shard placements" None None.

Definition DummyPlacement (workerNode : WorkerNode) : ShardPlacement :=
  makeShardPlacement 0 0 (workerName workerNode) (workerPort workerNode)
                     (wn_groupId workerNode).

(** [anchorShardId] and [relationShardList] are the values the output
    parameters hold when the function is called. *)
Definition PlanRouterQuery (originalQuery : Query)
           (restrictionContext : RelationRestrictionContext)
           (anchorShardId : uint64) (relationShardList : list RelationShard)
           (replacePrunedQueryWithDummy : bool) : RouterQueryPlan :=
  let '(multiShardQuery, prunedRelationShardList, restrictions) :=
      TargetShardIntervalsForRouter originalQuery
                                    (relationRestrictionList restrictionContext) in
  let restrictionContext := makeRelationRestrictionContext restrictions in
  (* a relation has more than one shard left after pruning *)
  if multiShardQuery then
    makeRouterQueryPlan (Some (MultiShardQueryError originalQuery)) originalQuery
                        restrictionContext [] anchorShardId relationShardList
  else
    let '(shardsPresent, shardId, relationShardList) :=
        PlanRouterQuery_shards prunedRelationShardList false INVALID_SHARD_ID
                               relationShardList in
    (* there can also be multiple RTEs that reference the same relation *)
    if RelationPrunesToMultipleShards relationShardList then
      makeRouterQueryPlan (Some SameRelationMultipleShardsError) originalQuery
                          restrictionContext [] anchorShardId relationShardList
    else if negb shardsPresent && negb replacePrunedQueryWithDummy then
      (* the caller decides what to do with this task *)
      makeRouterQueryPlan None originalQuery restrictionContext [] anchorShardId
                          relationShardList
    else
      let workerList :=
          if shardsPresent then WorkersContainingAllShards prunedRelationShardList
          else
            (* a dummy shard placement for the first active worker *)
            match ActivePrimaryNodeList with
            | workerNode :: _ => [DummyPlacement workerNode]
            | [] => []
            end in
      if is_nil workerList then
        makeRouterQueryPlan (Some NoWorkerWithAllPlacementsError) originalQuery
                            restrictionContext [] anchorShardId relationShardList
      else
        (* an UPDATE or DELETE which requires master evaluation keeps its
           relation names until the execution phase *)
        let originalQuery :=
            if negb (UpdateOrDeleteQuery originalQuery
                     && RequiresMasterEvaluation originalQuery)
            then UpdateRelationToShardNames originalQuery relationShardList
            else originalQuery in
        makeRouterQueryPlan None originalQuery restrictionContext workerList shardId
                            relationShardList.

(** A Job for a single shard select/update/delete query. *)
Definition RouterJob (originalQuery : Query)
           (restrictionContext : RelationRestrictionContext) : Outcome Job :=
  (* router planner should create task even if it doesn't hit a shard at all *)
  let replacePrunedQueryWithDummy := true in
  (* check if this query requires master evaluation *)
  let requiresMasterEvaluation := RequiresMasterEvaluation originalQuery in
  let planned :=
      PlanRouterQuery originalQuery restrictionContext INVALID_SHARD_ID []
                      replacePrunedQueryWithDummy in
  match rq_planningError planned with
  | Some planningError => Deferred planningError
  | None =>
      let originalQuery := rq_originalQuery planned in
      let job := CreateJob originalQuery in
      let rangeTableList := ExtractRangeTableEntryWalker originalQuery in
      let updateOrDeleteRTE := GetUpdateOrDeleteRTE rangeTableList in
      (* an UPDATE or DELETE RTE with subquery type: all of its shards were
         pruned; the task list is left empty *)
      if match updateOrDeleteRTE with
         | Some rangeTableEntry => RTEKind_beq (rtekind rangeTableEntry) RTE_SUBQUERY
         | None => false
         end
      then Ok job
      else
        let queryStringData := pg_get_query_def originalQuery in
        task <-
          (if CmdType_beq (commandType originalQuery) CMD_SELECT then
             Ok (CreateTask ROUTER_TASK)
           else
             match updateOrDeleteRTE with
             | None =>
                 (* the source reads [updateOrDeleteRTE->relid] without a test *)
                 Fatal ERRCODE_INTERNAL_ERROR "no UPDATE or DELETE range table entry"
             | Some rangeTableEntry =>
                 let modificationTableCacheEntry :=
                     DistributedTableCacheEntry (relid rangeTableEntry) in
                 let modificationPartitionMethod :=
                     partitionMethod modificationTableCacheEntry in
                 if Ascii.eqb modificationPartitionMethod DISTRIBUTE_BY_NONE
                    && SelectsFromDistributedTable rangeTableList
                 then
                   Fatal ERRCODE_FEATURE_NOT_SUPPORTED
                         "cannot perform select on a distributed table and modify a reference table"
                 else
                   let task := CreateTask MODIFY_TASK in
                   Ok (makeTask (taskType task) (task_jobId task) (taskId task)
                                (queryString task) (anchorShardId task)
                                (taskPlacementList task) (upsertQuery task)
                                (ce_replicationModel modificationTableCacheEntry)
                                (insertSelectQuery task) (relationShardList task))
             end) ;;
        let task :=
            makeTask (taskType task) (task_jobId task) (taskId task)
                     (Some queryStringData) (rq_anchorShardId planned)
                     (rq_placementList planned) (upsertQuery task)
                     (task_replicationModel task) (insertSelectQuery task)
                     (rq_relationShardList planned) in
        Ok (makeJob (jobId job) (jobQuery job) [task] (subqueryPushdown job)
                    requiresMasterEvaluation (deferredPruning job))
  end.

(** *** The top level *)

Definition MultiRouterPlannableQuery (query : Query)
           (restrictionContext : RelationRestrictionContext) : bool :=
  match commandType query with
  | CMD_INSERT | CMD_UPDATE | CMD_DELETE => true
  | _ =>
      if negb EnableRouterExecution then false
      else if hasForUpdate query then false
      else
        forallb (fun relationRestriction =>
                   let rte := rte relationRestriction in
                   match rtekind rte with
                   | RTE_RELATION =>
                       (* only hash partitioned tables are supported *)
                       let distributedTableId := relid rte in
                       let partitionMethod := PartitionMethod distributedTableId in
                       Ascii.eqb partitionMethod DISTRIBUTE_BY_HASH
                       || Ascii.eqb partitionMethod DISTRIBUTE_BY_NONE
                       || Ascii.eqb partitionMethod DISTRIBUTE_BY_RANGE
                   | _ => true
                   end)
                (relationRestrictionList restrictionContext)
  end.

Definition ModifyingCteError : DeferredErrorMessage :=
  DeferredError ERRCODE_FEATURE_NOT_SUPPORTED
    "data-modifying statements are not supported in the WITH clauses of distributed queries"
    None None.

Definition ErrorIfQueryHasModifyingCTE (queryTree : Query) : option DeferredErrorMessage :=
  if existsb (fun cte => negb (CmdType_beq (ctequery_commandType cte) CMD_SELECT))
             (cteList queryTree)
  then Some ModifyingCteError
  else None.

(** [None] is the [NULL] plan: the query cannot be handled by this
    planner. *)
Definition CreateSingleTaskRouterPlan (originalQuery query : Query)
           (restrictionContext : RelationRestrictionContext) : Outcome (option MultiPlan) :=
  match ErrorIfQueryHasModifyingCTE query with
  | Some planningError =>
      Ok (Some (makeMultiPlan (commandType query) (Some planningError) None None false false))
  | None =>
      match RouterJob originalQuery restrictionContext with
      | Deferred _ => Ok None
      | Fatal errcode errmsg => Fatal errcode errmsg
      | Ok job =>
          Ok (Some (makeMultiPlan (commandType query) None (Some job) None true false))
      end
  end.

Definition CreateRouterPlan (originalQuery query : Query)
           (restrictionContext : RelationRestrictionContext) : Outcome (option MultiPlan) :=
  if MultiRouterPlannableQuery query restrictionContext
  then CreateSingleTaskRouterPlan originalQuery query restrictionContext
  else Ok None.

Definition CreateModifyPlan (originalQuery query : Query)
           (restrictionContext : RelationRestrictionContext) : Outcome MultiPlan :=
  let multiShardQuery := false in
  match ModifyQuerySupported query multiShardQuery with
  | Some planningError =>
      Ok (makeMultiPlan (commandType query) (Some planningError) None None false false)
  | None =>
      match (if UpdateOrDeleteQuery query
             then RouterJob originalQuery restrictionContext
             else RouterInsertJob originalQuery query) with
      | Deferred planningError =>
          Ok (makeMultiPlan (commandType query) (Some planningError) None None false false)
      | Fatal errcode errmsg => Fatal errcode errmsg
      | Ok job =>
          Ok (makeMultiPlan (commandType query) None (Some job) None true
                            (negb (is_nil (returningList originalQuery))))
      end
  end.
End Planner.

(** ** A small catalog to run the planner on

    Three tables: [orders], hash-partitioned on its first column
    [customer_id] into the shards 102008 = [0,99] and 102009 = [100,199];
    the reference table [countries] with the single shard 102010; and
    [events], append-partitioned on its first column, with the overlapping
    shards 102011 = [0,50] and 102012 = [40,90].  Two workers. *)
Module Example.

Definition orders : Oid := 100.
Definition countries : Oid := 200.
Definition events : Oid := 300.

Definition abs_oid : Oid := 1.     (* IMMUTABLE *)
Definition now_oid : Oid := 2.     (* STABLE *)
Definition random_oid : Oid := 3.  (* VOLATILE *)

Definition shard_orders_low : ShardInterval := makeShardInterval orders 102008 true true 0 99.
Definition shard_orders_high : ShardInterval := makeShardInterval orders 102009 true true 100 199.
Definition shard_countries : ShardInterval := makeShardInterval countries 102010 false false 0 0.
Definition shard_events_a : ShardInterval := makeShardInterval events 102011 true true 0 50.
Definition shard_events_b : ShardInterval := makeShardInterval events 102012 true true 40 90.

Definition cache (relationId : Oid) : DistTableCacheEntry :=
  if relationId =? orders then
    makeDistTableCacheEntry orders DISTRIBUTE_BY_HASH "customer_id" "c"%char
                            [shard_orders_low; shard_orders_high]
  else if relationId =? countries then
    makeDistTableCacheEntry countries DISTRIBUTE_BY_NONE "" "t"%char [shard_countries]
  else if relationId =? events then
    makeDistTableCacheEntry events DISTRIBUTE_BY_APPEND "event_id" "c"%char
                            [shard_events_a; shard_events_b]
  else makeDistTableCacheEntry relationId DISTRIBUTE_BY_HASH "" "c"%char [].

Definition worker1 : WorkerNode := makeWorkerNode "worker-1" 5432 1.
Definition worker2 : WorkerNode := makeWorkerNode "worker-2" 5432 2.

Definition placements (shardId : uint64) : list ShardPlacement :=
  if shardId =? 102008 then
    [makeShardPlacement 1 102008 "worker-1" 5432 1; makeShardPlacement 2 102008 "worker-2" 5432 2]
  else if shardId =? 102009 then
    [makeShardPlacement 3 102009 "worker-2" 5432 2]
  else if shardId =? 102010 then
    [makeShardPlacement 4 102010 "worker-1" 5432 1; makeShardPlacement 5 102010 "worker-2" 5432 2]
  else if shardId =? 102011 then
    [makeShardPlacement 6 102011 "worker-1" 5432 1]
  else if shardId =? 102012 then
    [makeShardPlacement 7 102012 "worker-1" 5432 1]
  else [].

Definition volatility (func_id : Oid) : ascii :=
  if func_id =? now_oid then PROVOLATILE_STABLE
  else if func_id =? random_oid then PROVOLATILE_VOLATILE
  else PROVOLATILE_IMMUTABLE.

(** The constant an equality [column = constant] compares with. *)
Definition equality_constant (clause : Node) : option Datum :=
  match clause with
  | T_OpExpr _ _ [T_Var _; T_Const k] =>
      if constisnull k then None else Some (constvalue k)
  | _ => None
  end.

Definition equality_constants (clauses : list Node) : list Datum :=
  flat_map (fun clause => match equality_constant clause with
                          | Some k => [k]
                          | None => []
                          end) clauses.

(** Pruning by the equalities on the partition column: a shard stays when
    it contains the constant the column is compared with; equalities with
    two different constants contradict each other and leave no shard. *)
Definition prune (relationId : Oid) (tableId : Index) (clauses : list Node)
  : list ShardInterval :=
  let constants := equality_constants clauses in
  if forallb (fun k => forallb (Z.eqb k) constants) constants then
    filter (fun shardInterval =>
              forallb (fun k => ShardIntervalContains k shardInterval) constants)
           (sortedShardIntervalArray (cache relationId))
  else [].

(** An equality is implied when it is among the clauses. *)
Definition implied (predicates clauses : list Node) : bool :=
  forallb (fun predicate =>
             match equality_constant predicate with
             | Some k => existsb (Z.eqb k) (equality_constants clauses)
             | None => false
             end) predicates.

Definition where_clauses (joinTree : option FromExpr) : list Node :=
  match joinTree with
  | Some (makeFromExpr (Some (T_BoolExpr args))) => args
  | Some (makeFromExpr (Some clause)) => [clause]
  | _ => []
  end.

Definition false_clause (clauses : list Node) : bool :=
  existsb (fun clause => match clause with
                         | T_Const k => negb (constisnull k) && (constvalue k =? 0)
                         | _ => false
                         end) clauses.

Definition relation_shard_leb (a b : RelationShard) : bool :=
  (rs_relationId a <? rs_relationId b)
  || ((rs_relationId a =? rs_relationId b) && (rs_shardId a <=? rs_shardId b)).

Fixpoint insert_sorted (x : RelationShard) (l : list RelationShard) : list RelationShard :=
  match l with
  | [] => [x]
  | y :: r => if relation_shard_leb x y then x :: y :: r else y :: insert_sorted x r
  end.

Definition sort_relation_shards (l : list RelationShard) : list RelationShard :=
  fold_right insert_sorted [] l.

Definition command_name (query : Query) : string :=
  match commandType query with
  | CMD_SELECT => "SELECT"
  | CMD_UPDATE => "UPDATE"
  | CMD_INSERT => "INSERT"
  | CMD_DELETE => "DELETE"
  | _ => "?"
  end.

Definition calls_function (entry : TargetEntry) : bool :=
  match expr entry with
  | T_FuncExpr _ _ => true
  | _ => false
  end.

Definition catalog : Externals := {|
  EnableRouterExecution := true;
  IsCoordinator := true;
  IsDistributedTable := fun relationId =>
    (relationId =? orders) || (relationId =? countries) || (relationId =? events);
  DistributedTableCacheEntry := cache;
  PartitionMethod := fun relationId => partitionMethod (cache relationId);
  PartitionColumn := fun relationId rangeTableId =>
    if Ascii.eqb (partitionMethod (cache relationId)) DISTRIBUTE_BY_NONE
    then None else Some (makeVar rangeTableId 1);
  ColumnNameToColumn := fun _ partitionKeyString => partitionKeyString;
  get_rel_name := fun _ => "table"%string;
  func_volatile := volatility;
  predicate_implied_by := implied;
  WhereClauseList := where_clauses;
  MakeOpExpression := fun column _ => T_OpExpr 96 65 [T_Var column; T_Const (makeConst 0 true true)];
  PruneShards := prune;
  ContainsFalseClause := false_clause;
  FinalizedShardPlacementList := placements;
  ActivePrimaryNodeList := [worker1; worker2];
  RequiresMasterEvaluation := fun query => existsb calls_function (targetList query);
  RebuildQueryStrings := fun _ tasks => tasks;
  pg_get_query_def := command_name;
  SortList_CompareRelationShards := sort_relation_shards;
  WORKER_LENGTH := 256;
  INVALID_SHARD_ID := 0;
  INVALID_JOB_ID := 0;
  INVALID_TASK_ID := 0;
  REPLICATION_MODEL_INVALID := "i"%char
|}.

(** Statements and restriction contexts over this catalog. *)
Definition customer_id : Var := makeVar 1 1.

Definition equals (column : Var) (k : Datum) : Node :=
  T_OpExpr 96 65 [T_Var column; T_Const (makeConst k false true)].

Definition literal (k : Datum) : Node := T_Const (makeConst k false true).

Definition relation_entry (relationId : Oid) (perms : Z) : RangeTblEntry :=
  makeRangeTblEntry RTE_RELATION relationId RELKIND_RELATION perms.

Definition restriction (relationId : Oid) (tableId : Index) (perms : Z) (clauses : list Node)
  : RelationRestriction :=
  makeRelationRestriction tableId relationId (relation_entry relationId perms)
                          (makeRelOptInfo (map (fun c => makeRestrictInfo c false) clauses) [])
                          [].

Definition where_all (clauses : list Node) : option FromExpr :=
  Some (makeFromExpr (Some (T_BoolExpr clauses))).

(** SELECT ... FROM orders a, orders b WHERE a.customer_id = 42 AND
    b.customer_id = 42 *)
Definition self_join : Query :=
  makeQuery CMD_SELECT false false []
            [relation_entry orders ACL_SELECT; relation_entry orders ACL_SELECT]
            (where_all [equals customer_id 42; equals (makeVar 2 1) 42]) [] [] None.

Definition self_join_context : RelationRestrictionContext :=
  makeRelationRestrictionContext
    [restriction orders 1 ACL_SELECT [equals customer_id 42];
     restriction orders 2 ACL_SELECT [equals (makeVar 2 1) 42]].

(** The same join where the first reference also has
    a.customer_id = 143: the two equalities contradict each other. *)
Definition first_reference_pruned : RelationRestriction :=
  restriction orders 1 ACL_SELECT [equals customer_id 42; equals customer_id 143].

Definition second_reference : RelationRestriction :=
  restriction orders 2 ACL_SELECT [equals (makeVar 2 1) 42].

Definition half_pruned_context : RelationRestrictionContext :=
  makeRelationRestrictionContext [first_reference_pruned; second_reference].

(** The join with the second reference filtered to customer 150 instead:
    the two references resolve to different shards of [orders]. *)
Definition split_self_join_context : RelationRestrictionContext :=
  makeRelationRestrictionContext
    [restriction orders 1 ACL_SELECT [equals customer_id 42];
     restriction orders 2 ACL_SELECT [equals (makeVar 2 1) 150]].

(** The join with no filter on the first reference: both shards stay. *)
Definition unfiltered_context : RelationRestrictionContext :=
  makeRelationRestrictionContext
    [restriction orders 1 ACL_SELECT [];
     restriction orders 2 ACL_SELECT [equals (makeVar 2 1) 42]].

(** SELECT ... FROM orders o, events e WHERE o.customer_id = 150 AND
    e.event_id = 10: shard 102009 is on worker-2 only, shard 102011 on
    worker-1 only. *)
Definition orders_events_join : Query :=
  makeQuery CMD_SELECT false false []
            [relation_entry orders ACL_SELECT; relation_entry events ACL_SELECT]
            (where_all [equals customer_id 150; equals (makeVar 2 1) 10]) [] [] None.

Definition orders_events_context : RelationRestrictionContext :=
  makeRelationRestrictionContext
    [restriction orders 1 ACL_SELECT [equals customer_id 150];
     restriction events 2 ACL_SELECT [equals (makeVar 2 1) 10]].

(** INSERT INTO <table> (first column, second column) VALUES (<value>, 9) *)
Definition insert_into (relationId : Oid) (value : Node) : Query :=
  makeQuery CMD_INSERT false false [] [relation_entry relationId ACL_INSERT]
            (Some (makeFromExpr None))
            [makeTargetEntry value 1 false; makeTargetEntry (literal 9) 2 false]
            [] None.

(** UPDATE orders SET total = 1 WHERE customer_id = 42 AND customer_id = 43 *)
Definition update_contradiction : Query :=
  makeQuery CMD_UPDATE false false []
            [relation_entry orders (Z.lor ACL_SELECT ACL_UPDATE)]
            (where_all [equals customer_id 42; equals customer_id 43])
            [makeTargetEntry (literal 1) 2 false] [] None.

(** SELECT * FROM orders WHERE customer_id = 42 AND customer_id = 43 *)
Definition select_contradiction : Query :=
  makeQuery CMD_SELECT false false []
            [relation_entry orders ACL_SELECT]
            (where_all [equals customer_id 42; equals customer_id 43])
            [makeTargetEntry (T_Var customer_id) 1 false;
             makeTargetEntry (T_Var (makeVar 1 2)) 2 false] [] None.

Definition contradiction_context (perms : Z) : RelationRestrictionContext :=
  makeRelationRestrictionContext
    [restriction orders 1 perms [equals customer_id 42; equals customer_id 43]].

(** UPDATE orders SET customer_id = <setExpr> WHERE customer_id = 42 *)
Definition update_customer_id (setExpr : Node) : Query :=
  makeQuery CMD_UPDATE false false []
            [relation_entry orders (Z.lor ACL_SELECT ACL_UPDATE)]
            (where_all [equals customer_id 42])
            [makeTargetEntry setExpr 1 false] [] None.

(** UPDATE orders SET total = <setExpr> WHERE <filter> RETURNING <returned> *)
Definition update_total (setExpr filter returned : Node) : Query :=
  makeQuery CMD_UPDATE false false []
            [relation_entry orders (Z.lor ACL_SELECT ACL_UPDATE)]
            (Some (makeFromExpr (Some filter)))
            [makeTargetEntry setExpr 2 false]
            [makeTargetEntry returned 1 false] None.

(** INSERT INTO orders VALUES (42, 9) ON CONFLICT ... WHERE <arbiter>
    DO UPDATE SET total = <setExpr> WHERE <filter> *)
Definition upsert (setExpr : Node) (arbiter filter : option Node) : Query :=
  makeQuery CMD_INSERT false false []
            [relation_entry orders ACL_INSERT; relation_entry orders ACL_UPDATE]
            (Some (makeFromExpr None))
            [makeTargetEntry (literal 42) 1 false; makeTargetEntry (literal 9) 2 false]
            []
            (Some (makeOnConflictExpr
                     [makeTargetEntry (T_Var customer_id) 1 false;
                      makeTargetEntry setExpr 2 false]
                     arbiter filter)).

Definition call_random : Node := T_FuncExpr random_oid [].

(** UPDATE countries SET name = 1 FROM orders WHERE orders.customer_id = 42 *)
Definition update_reference_from_orders : Query :=
  makeQuery CMD_UPDATE false false []
            [relation_entry countries (Z.lor ACL_SELECT ACL_UPDATE);
             relation_entry orders ACL_SELECT]
            (where_all [equals (makeVar 2 1) 42])
            [makeTargetEntry (literal 1) 2 false] [] None.

Definition reference_from_orders_context : RelationRestrictionContext :=
  makeRelationRestrictionContext
    [restriction countries 1 (Z.lor ACL_SELECT ACL_UPDATE) [];
     restriction orders 2 ACL_SELECT [equals (makeVar 2 1) 42]].

(** SELECT * FROM (SELECT * FROM orders WHERE customer_id = 42 AND
    customer_id = 43 FOR UPDATE) o: the reference to [orders] carries the
    UPDATE permission that FOR UPDATE asks for. *)
Definition select_for_update_contradiction : Query :=
  makeQuery CMD_SELECT false false []
            [relation_entry orders (Z.lor ACL_SELECT ACL_UPDATE)]
            (where_all [equals customer_id 42; equals customer_id 43])
            [makeTargetEntry (T_Var customer_id) 1 false] [] None.

(** INSERT INTO orders VALUES (42, 9) ON CONFLICT DO UPDATE
    SET customer_id = <setExpr>, total = 5 *)
Definition upsert_partition_column (setExpr : Node) : Query :=
  makeQuery CMD_INSERT false false []
            [relation_entry orders ACL_INSERT; relation_entry orders ACL_UPDATE]
            (Some (makeFromExpr None))
            [makeTargetEntry (literal 42) 1 false; makeTargetEntry (literal 9) 2 false]
            []
            (Some (makeOnConflictExpr
                     [makeTargetEntry setExpr 1 false;
                      makeTargetEntry (literal 5) 2 false]
                     None None)).

End Example.

(** ** Notions used to state the properties *)

(** The shards the placement resolver looks at: the first shard of every
    pruned shard list that is not empty. *)
Fixpoint TargetedShards (prunedShardIntervalsList : list (list ShardInterval))
  : list ShardInterval :=
  match prunedShardIntervalsList with
  | [] => []
  | [] :: rest => TargetedShards rest
  | (shardInterval :: _) :: rest => shardInterval :: TargetedShards rest
  end.

(** The node a placement is on. *)
Definition NodeAddress (placement : ShardPlacement) : string * Z :=
  (nodeName placement, nodePort placement).

(** Some placement of the list is on the node of [placement]. *)
Definition OnNodeOf (placement : ShardPlacement) (placementList : list ShardPlacement) : Prop :=
  exists other, In other placementList /\ NodeAddress other = NodeAddress placement.

(** The node names of the placements fit the length up to which the
    planner compares them. *)
Definition NamesFit {E : Externals} (placementList : list ShardPlacement) : Prop :=
  forall placement, In placement placementList ->
                    (String.length (nodeName placement) <= WORKER_LENGTH)%nat.

(** The relation-to-shard mapping of a shard. *)
Definition RelationShardOf (shardInterval : ShardInterval) : RelationShard :=
  makeRelationShard (si_relationId shardInterval) (si_shardId shardInterval).

(** What the planner relies on when it sorts the relation-to-shard
    mappings with [CompareRelationShards]: the sorted list has the same
    entries, and the entries of one relation are next to each other (the
    relation identifiers do not decrease along the list). *)
Definition SortsByRelation {E : Externals} : Prop :=
  forall relationShardList,
    Permutation relationShardList (SortList_CompareRelationShards relationShardList)
    /\ StronglySorted (fun a b => rs_relationId a <= rs_relationId b)
                      (SortList_CompareRelationShards relationShardList).

(** [PruneShards] gives shards of the relation it is asked about. *)
Definition PrunesOwnShards {E : Externals} : Prop :=
  forall relationId tableId restrictClauseList shardInterval,
    In shardInterval (PruneShards relationId tableId restrictClauseList) ->
    si_relationId shardInterval = relationId.

(** The shard intervals of a hash or range partitioned table are sorted
    and do not overlap: each interval ends before the next ones begin. *)
Definition SortedShardIntervals (shardIntervalArray : list ShardInterval) : Prop :=
  StronglySorted (fun a b => maxValue a < minValue b) shardIntervalArray.

(** [text] contains [name]. *)
Fixpoint Mentions (name text : string) : bool :=
  String.prefix name text
  || match text with
     | EmptyString => false
     | String _ rest => Mentions name rest
     end.

(** The target entry is one for which the loop over the target list of an
    UPDATE sets [specifiesPartitionValue]. *)
Definition SetsPartitionValue {E : Externals} (queryTree : Query)
           (partitionColumn : option Var) (targetEntry : TargetEntry) : bool :=
  negb (resjunk targetEntry)
  && CmdType_beq (commandType queryTree) CMD_UPDATE
  && match partitionColumn with
     | Some column =>
         IsPartitionColumnEntry partitionColumn targetEntry
         && TargetEntryChangesValue targetEntry column (jointree queryTree)
     | None => false
     end.

(** Every rule of the validator other than the one on the partition value
    is satisfied: the last test is reached. *)
Definition OtherRulesSatisfied {E : Externals} (queryTree : Query) (multiShardQuery : bool)
  : Prop :=
  exists specifiesPartitionValue,
    ModifyQuerySupported_rules queryTree multiShardQuery = inr specifiesPartitionValue.

(** The number of relations among the range table entries. *)
Definition RelationCount (rangeTableList : list RangeTblEntry) : Z :=
  Z.of_nat (List.length (filter (fun rangeTableEntry =>
                              RTEKind_beq (rtekind rangeTableEntry) RTE_RELATION)
                           rangeTableList)).

(** The last entry of a SET list that assigns the column. *)
Definition LastAssignmentTo (column : Var) (setList : list TargetEntry) : option TargetEntry :=
  find (fun setTargetEntry => resno setTargetEntry =? varattno column) (rev setList).

(** The expression is a reference to the attribute of [column]. *)
Definition SameColumn (column : Var) (setExpr : Node) : bool :=
  match setExpr with
  | T_Var setVar => varattno setVar =? varattno column
  | _ => false
  end.

(** The anchor shard of a list of targeted shards: the identifier of the
    first one whose identifier is not [INVALID_SHARD_ID]. *)
Definition AnchorShardOf {E : Externals} (targetedShards : list ShardInterval) : uint64 :=
  match find (fun shardInterval => negb (si_shardId shardInterval =? INVALID_SHARD_ID))
             targetedShards with
  | Some shardInterval => si_shardId shardInterval
  | None => INVALID_SHARD_ID
  end.

(** The statement as [PlanRouterQuery] leaves it when it succeeds with a
    placement. *)
Definition RoutedQuery {E : Externals} (originalQuery : Query)
           (relationShardList : list RelationShard) : Query :=
  if negb (UpdateOrDeleteQuery originalQuery && RequiresMasterEvaluation originalQuery)
  then UpdateRelationToShardNames originalQuery relationShardList
  else originalQuery.

(** The pruned shard list [TargetShardIntervalsForRouter] records in a
    restriction. *)
Definition RecordPrunedShards {E : Externals} (relationRestriction : RelationRestriction)
  : RelationRestriction :=
  SetPrunedShardIntervalList relationRestriction
                             (RelationPrunedShardList relationRestriction).

(** The range table entry passes the loop of the validator over the range
    table. *)
Definition SupportedRangeTableEntry {E : Externals} (queryTree : Query)
           (multiShardQuery : bool) (rangeTableEntry : RangeTblEntry) : bool :=
  match rtekind rangeTableEntry with
  | RTE_RELATION =>
      negb (Ascii.eqb (partitionMethod (DistributedTableCacheEntry (relid rangeTableEntry)))
                      DISTRIBUTE_BY_NONE
            && negb IsCoordinator)
      && negb (Ascii.eqb (relkind rangeTableEntry) RELKIND_VIEW)
  | RTE_VALUES => true
  | _ => UpdateOrDeleteQuery queryTree && negb multiShardQuery
  end.

(** ** Constraints of a shard interval

    [MakeInt4Column], [BuildBaseConstraint] and [UpdateConstraint] are
    defined outside the planner file.  [BuildBaseConstraint] gets the column
    pointer as it is, [NULL] included, and [UpdateConstraint] gives back the
    constraint with the bounds of the shard interval written into it. *)
Class ConstraintBuilders : Type := {
  MakeInt4Column : Var;
  BuildBaseConstraint : option Var -> Node;
  UpdateConstraint : Node -> ShardInterval -> Node
}.

Section ShardConstraints.
Context {E : Externals} {B : ConstraintBuilders}.

Definition ShardIntervalOpExpressions (shardInterval : ShardInterval) (rteIndex : Index)
  : Outcome (list Node) :=
  let relationId := si_relationId shardInterval in
  let partitionMethod := PartitionMethod (si_relationId shardInterval) in
  partitionColumn <-
    (if Ascii.eqb partitionMethod DISTRIBUTE_BY_HASH then
       Ok (Some MakeInt4Column)
     else if Ascii.eqb partitionMethod DISTRIBUTE_BY_RANGE
             || Ascii.eqb partitionMethod DISTRIBUTE_BY_APPEND then
       Ok (PartitionColumn relationId rteIndex)
     else
       Fatal ERRCODE_INVALID_PARAMETER_VALUE
             "cannot create shard interval operator expression for distributed relations other than hash, range and append distributed relations") ;;
  (* build the base expression for constraint *)
  let baseConstraint := BuildBaseConstraint partitionColumn in
  let baseConstraint :=
      if minValueExists shardInterval && maxValueExists shardInterval
      then UpdateConstraint baseConstraint shardInterval
      else baseConstraint in
  Ok [baseConstraint].
End ShardConstraints.

(** Two placements are on the same worker as far as the planner compares
    them: same port, and node names that agree on their first
    [WORKER_LENGTH] characters. *)
Definition SameWorker {E : Externals} (a b : ShardPlacement) : Prop :=
  nodePort a = nodePort b
  /\ substring 0 WORKER_LENGTH (nodeName a) = substring 0 WORKER_LENGTH (nodeName b).

(** Some placement of the list is on the worker of [placement]. *)
Definition OnWorkerOf {E : Externals} (placement : ShardPlacement)
           (placementList : list ShardPlacement) : Prop :=
  exists other, In other placementList /\ SameWorker other placement.

(** The answer of the analyzer for an expression, the flags apart. *)
Definition Irreducible {E : Externals} (expression : option Node) : bool :=
  fst (fst (MasterIrreducibleExpression expression false false)).

(** The rules the validator tests before it comes to the target list are
    satisfied: those on sublinks, on common table expressions, on each
    range table entry, on the number of relations and on VALUES scans. *)
Definition RangeTableRulesSatisfied {E : Externals} (queryTree : Query)
           (multiShardQuery : bool) : Prop :=
  let singleShardUpdateOrDelete := UpdateOrDeleteQuery queryTree && negb multiShardQuery in
  (hasSubLinks queryTree = true -> singleShardUpdateOrDelete = true)
  /\ cteList queryTree = []
  /\ (forall rangeTableEntry,
         In rangeTableEntry (ExtractRangeTableEntryWalker queryTree) ->
         SupportedRangeTableEntry queryTree multiShardQuery rangeTableEntry = true
         /\ rtekind rangeTableEntry <> RTE_VALUES)
  /\ (commandType queryTree = CMD_INSERT
      \/ singleShardUpdateOrDelete = true
      \/ uint32_wrap (RelationCount (ExtractRangeTableEntryWalker queryTree)) = 1).

(** The rule on the target list is satisfied: no entry of the SET list of
    an UPDATE that is not resjunk calls a VOLATILE function. *)
Definition TargetListRuleSatisfied {E : Externals} (queryTree : Query) : Prop :=
  commandType queryTree = CMD_UPDATE ->
  forall targetEntry,
    In targetEntry (targetList queryTree) ->
    resjunk targetEntry = false ->
    contain_volatile_functions (Some (expr targetEntry)) = false.

(** The rules tested between the target list and the RETURNING list are
    satisfied: the WHERE clause calls no VOLATILE function, and the analyzer
    finds it, and the SET expressions of an UPDATE, reducible. *)
Definition WhereRulesSatisfied {E : Externals} (queryTree : Query) : Prop :=
  (commandType queryTree = CMD_UPDATE ->
   forall targetEntry,
     In targetEntry (targetList queryTree) ->
     resjunk targetEntry = false ->
     Irreducible (Some (expr targetEntry)) = false)
  /\ forall joinTree,
      jointree queryTree = Some joinTree ->
      contain_volatile_functions (quals joinTree) = false
      /\ Irreducible (quals joinTree) = false.

(** The rule on the RETURNING list is satisfied. *)
Definition ReturningRuleSatisfied {E : Externals} (queryTree : Query) : Prop :=
  contain_mutable_functions (TargetListNode (returningList queryTree)) = false.

(** The rule on the SET list of ON CONFLICT DO UPDATE is satisfied: every
    entry is on the partition column, or assigns a column, or calls no
    function that is not IMMUTABLE. *)
Definition ConflictSetRuleSatisfied {E : Externals} (partitionColumn : option Var)
           (setList : list TargetEntry) : Prop :=
  forall setTargetEntry,
    In setTargetEntry setList ->
    IsPartitionColumnEntry partitionColumn setTargetEntry = true
    \/ (exists setVar, expr setTargetEntry = T_Var setVar)
    \/ contain_mutable_functions (Some (expr setTargetEntry)) = false.

(** * Properties *)

(** ** Expression reducibility: the walker and its state *)

Section AnalyzerFacts.
Context {E : Externals}.

Lemma join_state_fresh_l : forall d, join_state fresh_state d = d.
Proof. now intros [a b c]. Qed.

Lemma join_state_fresh_r : forall s, join_state s fresh_state = s.
Proof. intros [a b c]; unfold join_state; simpl; now rewrite !orb_false_r. Qed.

Lemma join_state_assoc : forall a b c,
    join_state a (join_state b c) = join_state (join_state a b) c.
Proof. intros; unfold join_state; simpl; now rewrite !orb_assoc. Qed.

Lemma join_state_idem : forall s d, join_state (join_state s d) d = join_state s d.
Proof.
  intros; unfold join_state; simpl.
  now rewrite <- !orb_assoc, !orb_diag.
Qed.

Lemma walk_list_additive : forall walker l,
    Forall (additive walker) l ->
    forall st, walk_list walker l st
               = (fst (walk_list walker l fresh_state),
                  join_state st (snd (walk_list walker l fresh_state))).
Proof.
  intros walker l H; induction H as [|x r Hx _ IH]; intros st; simpl.
  - now rewrite join_state_fresh_r.
  - rewrite (Hx st).
    destruct (walker x fresh_state) as [found d] eqn:Hw; simpl.
    destruct found; [reflexivity|].
    rewrite (IH (join_state st d)), (IH d); simpl.
    now rewrite join_state_assoc.
Qed.

Lemma walk_opt_additive : forall walker o,
    OptForall (additive walker) o ->
    forall st, walk_opt walker o st
               = (fst (walk_opt walker o fresh_state),
                  join_state st (snd (walk_opt walker o fresh_state))).
Proof.
  intros walker [x|] H st; simpl.
  - apply H.
  - now rewrite join_state_fresh_r.
Qed.

Lemma expression_tree_walker_additive : forall walker n,
    match n with
    | T_FuncExpr _ args | T_OpExpr _ _ args | T_BoolExpr args
    | T_CoalesceExpr args | T_List args => Forall (additive walker) args
    | T_CaseExpr arg args defresult =>
        OptForall (additive walker) arg /\ Forall (additive walker) args
        /\ OptForall (additive walker) defresult
    | T_CaseWhen e r => additive walker e /\ additive walker r
    | _ => True
    end ->
    forall st, expression_tree_walker n walker st
               = (fst (expression_tree_walker n walker fresh_state),
                  join_state st (snd (expression_tree_walker n walker fresh_state))).
Proof.
  intros walker n H st.
  destruct n; simpl;
    try (now rewrite join_state_fresh_r);
    try (now apply walk_list_additive).
  - destruct H as (Harg & Hargs & Hdef).
    rewrite (walk_opt_additive _ _ Harg st).
    destruct (walk_opt walker arg fresh_state) as [f1 d1]; simpl.
    destruct f1; [reflexivity|].
    rewrite (walk_list_additive Hargs (join_state st d1)), (walk_list_additive Hargs d1).
    destruct (walk_list walker args fresh_state) as [f2 d2]; simpl.
    destruct f2; simpl; [now rewrite join_state_assoc|].
    rewrite (walk_opt_additive _ _ Hdef (join_state (join_state st d1) d2)),
            (walk_opt_additive _ _ Hdef (join_state d1 d2)); simpl.
    now rewrite !join_state_assoc.
  - destruct H as (He & Hr).
    rewrite (He st).
    destruct (walker n1 fresh_state) as [f1 d1]; simpl.
    destruct f1; [reflexivity|].
    rewrite (Hr (join_state st d1)), (Hr d1); simpl.
    now rewrite join_state_assoc.
Qed.

(** The node kinds the walker treats by their functions: the state it is
    given only receives what its children found. *)
Lemma walker_generic_additive : forall n st,
    (forall st', expression_tree_walker n MasterIrreducibleExpressionWalker st'
                 = (fst (expression_tree_walker n MasterIrreducibleExpressionWalker fresh_state),
                    join_state st'
                      (snd (expression_tree_walker n MasterIrreducibleExpressionWalker
                                                   fresh_state)))) ->
    (let volatileFlag :=
         snd (check_functions_in_node n MasterIrreducibleExpressionFunctionChecker zero) in
     if Ascii.eqb volatileFlag PROVOLATILE_STABLE
     then
       let '(containsDisallowedFunction, childState) :=
           expression_tree_walker n MasterIrreducibleExpressionWalker
                                  (makeWalkerState false false false) in
       let varArgument1 := if containsVar childState then true else varArgument st in
       (containsDisallowedFunction || containsVar childState,
        makeWalkerState (containsVar st) (varArgument1 || varArgument childState)
                        (badCoalesce st || badCoalesce childState))
     else expression_tree_walker n MasterIrreducibleExpressionWalker st)
    = (fst (let volatileFlag :=
                snd (check_functions_in_node n MasterIrreducibleExpressionFunctionChecker zero) in
            if Ascii.eqb volatileFlag PROVOLATILE_STABLE
            then
              let '(containsDisallowedFunction, childState) :=
                  expression_tree_walker n MasterIrreducibleExpressionWalker
                                         (makeWalkerState false false false) in
              let varArgument1 :=
                  if containsVar childState then true else varArgument fresh_state in
              (containsDisallowedFunction || containsVar childState,
               makeWalkerState (containsVar fresh_state)
                               (varArgument1 || varArgument childState)
                               (badCoalesce fresh_state || badCoalesce childState))
            else expression_tree_walker n MasterIrreducibleExpressionWalker fresh_state),
       join_state st
         (snd (let volatileFlag :=
                   snd (check_functions_in_node n MasterIrreducibleExpressionFunctionChecker
                                                zero) in
               if Ascii.eqb volatileFlag PROVOLATILE_STABLE
               then
                 let '(containsDisallowedFunction, childState) :=
                     expression_tree_walker n MasterIrreducibleExpressionWalker
                                            (makeWalkerState false false false) in
                 let varArgument1 :=
                     if containsVar childState then true else varArgument fresh_state in
                 (containsDisallowedFunction || containsVar childState,
                  makeWalkerState (containsVar fresh_state)
                                  (varArgument1 || varArgument childState)
                                  (badCoalesce fresh_state || badCoalesce childState))
               else expression_tree_walker n MasterIrreducibleExpressionWalker fresh_state))).
Proof.
  intros n st Hetw; cbv zeta.
  destruct (Ascii.eqb _ PROVOLATILE_STABLE).
  - fold fresh_state.
    destruct (expression_tree_walker n MasterIrreducibleExpressionWalker fresh_state)
      as [found [cv va bc]]; simpl.
    unfold join_state; simpl.
    rewrite orb_false_r.
    f_equal. f_equal.
    destruct cv, va, (varArgument st); reflexivity.
  - apply Hetw.
Qed.

Lemma walker_additive : forall n, additive MasterIrreducibleExpressionWalker n.
Proof.
  induction n using Node_nested_ind; intros st;
    try (apply walker_generic_additive; intros st';
         apply expression_tree_walker_additive; auto).
  - simpl. unfold join_state; simpl.
    now rewrite orb_true_r, !orb_false_r.
  - cbn [MasterIrreducibleExpressionWalker].
    destruct (contain_mutable_functions _); cbn [fst snd].
    + unfold join_state; simpl. now rewrite orb_true_r, !orb_false_r.
    + now rewrite join_state_fresh_r.
  - cbn [MasterIrreducibleExpressionWalker].
    destruct (contain_mutable_functions _); cbn [fst snd].
    + unfold join_state; simpl. now rewrite orb_true_r, !orb_false_r.
    + now rewrite join_state_fresh_r.
Qed.
End AnalyzerFacts.

(** C10.  The reducibility analysis is deterministic and keeps no state of
    its own.  The triple (result, varArgument, badCoalesce) that
    [MasterIrreducibleExpression] gives for an expression is the same when
    the analysis is run again on the same expression, with the flags the
    first run left or with the flags the first run was given; the triple is a
    function of the expression and of the flags handed in, which are only
    ever added to; and the walker, run again on the state it left, gives the
    same answer and the same state. *)
Theorem MasterIrreducibleExpression_rerun_same_triple :
  forall (E : Externals) (expression : option Node) (varArgument0 badCoalesce0 : bool),
    (let '(result1, varArgument1, badCoalesce1) :=
         MasterIrreducibleExpression expression varArgument0 badCoalesce0 in
     MasterIrreducibleExpression expression varArgument1 badCoalesce1
     = (result1, varArgument1, badCoalesce1))
    /\ MasterIrreducibleExpression expression varArgument0 badCoalesce0
       = (let '(result, varArgument1, badCoalesce1) :=
              MasterIrreducibleExpression expression false false in
          (result, varArgument0 || varArgument1, badCoalesce0 || badCoalesce1))
    /\ (forall (e : Node) (state : WalkerState),
           MasterIrreducibleExpressionWalker e (snd (MasterIrreducibleExpressionWalker e state))
           = MasterIrreducibleExpressionWalker e state).
Proof.
  intros E expression v0 b0; repeat split.
  - unfold MasterIrreducibleExpression.
    destruct (match expression with
              | Some e => MasterIrreducibleExpressionWalker e _
              | None => _
              end) as [result data].
    now rewrite <- !orb_assoc, !orb_diag.
  - unfold MasterIrreducibleExpression.
    destruct (match expression with
              | Some e => MasterIrreducibleExpressionWalker e _
              | None => _
              end) as [result data].
    reflexivity.
  - intros e state.
    rewrite (walker_additive e state); cbn [snd].
    rewrite (walker_additive e (join_state state _)).
    now rewrite join_state_idem.
Qed.

(** ** The routability classifier *)

Lemma forallb_false_exists : forall (A : Type) (f : A -> bool) (l : list A),
    forallb f l = false <-> exists x, In x l /\ f x = false.
Proof.
  intros A f l; induction l as [|a l IH]; simpl.
  - split; [discriminate | intros (x & [] & _)].
  - rewrite andb_false_iff, IH; split.
    + intros [H|(x & Hin & Hx)]; [exists a | exists x]; auto.
    + intros (x & [->|Hin] & Hx); [now left | right; now exists x].
Qed.

(** C5.  An INSERT, UPDATE or DELETE is always classified as routable.  A
    SELECT is classified as not routable exactly when router execution is
    switched off, or the statement asks for row locks, or one of the
    referenced base relations has a partition method other than hash, range
    and none.  The classification is a value computed from the command type,
    the row-lock flag and the restriction list alone: statements that agree
    on the first two are classified alike, and nothing is written. *)
Theorem MultiRouterPlannableQuery_classifies :
  forall (E : Externals) (query : Query) (restrictionContext : RelationRestrictionContext),
    (In (commandType query) [CMD_INSERT; CMD_UPDATE; CMD_DELETE] ->
     MultiRouterPlannableQuery query restrictionContext = true)
    /\ (commandType query = CMD_SELECT ->
        (MultiRouterPlannableQuery query restrictionContext = false <->
         EnableRouterExecution = false
         \/ hasForUpdate query = true
         \/ exists relationRestriction,
             In relationRestriction (relationRestrictionList restrictionContext)
             /\ rtekind (rte relationRestriction) = RTE_RELATION
             /\ PartitionMethod (relid (rte relationRestriction)) <> DISTRIBUTE_BY_HASH
             /\ PartitionMethod (relid (rte relationRestriction)) <> DISTRIBUTE_BY_RANGE
             /\ PartitionMethod (relid (rte relationRestriction)) <> DISTRIBUTE_BY_NONE))
    /\ (forall other : Query,
           commandType other = commandType query ->
           hasForUpdate other = hasForUpdate query ->
           MultiRouterPlannableQuery other restrictionContext
           = MultiRouterPlannableQuery query restrictionContext).
Proof.
  intros E query ctx; split; [|split].
  - intros Hin; unfold MultiRouterPlannableQuery.
    simpl in Hin; destruct Hin as [H|[H|[H|[]]]]; now rewrite <- H.
  - intros Hsel; unfold MultiRouterPlannableQuery; rewrite Hsel.
    destruct EnableRouterExecution; simpl; [|split; [now left | reflexivity]].
    destruct (hasForUpdate query); simpl; [split; [now right; left | reflexivity]|].
    rewrite forallb_false_exists; split.
    + intros (r & Hin & Hr); right; right; exists r; split; [exact Hin|].
      destruct (rtekind (rte r)); try discriminate.
      rewrite !orb_false_iff, !Ascii.eqb_neq in Hr; tauto.
    + intros [H|[H|(r & Hin & Hkind & Hh & Hr & Hn)]]; try discriminate.
      exists r; split; [exact Hin|].
      rewrite Hkind, !orb_false_iff, !Ascii.eqb_neq; tauto.
  - intros other Hcmd Hlock; unfold MultiRouterPlannableQuery.
    now rewrite Hcmd, Hlock.
Qed.

(** ** Placement resolution *)

Lemma strncmp_zero_iff : forall (n : nat) (a b : string),
    (String.length a <= n)%nat -> (String.length b <= n)%nat ->
    (strncmp a b n = 0 <-> a = b).
Proof.
  induction n as [|n IH]; intros a b Ha Hb.
  - destruct a, b; simpl in *; try lia; tauto.
  - destruct a as [|c1 r1], b as [|c2 r2]; simpl in *; try (split; [lia | discriminate]).
    + tauto.
    + destruct (Ascii.eqb_spec c1 c2) as [->|Hneq].
      * rewrite (IH r1 r2) by lia.
        split; [now intros -> | now intros [= ->]].
      * split; [destruct (_ <? _)%N; lia | intros [= Hc _]; contradiction].
Qed.

Lemma last_cons_default : forall (A : Type) (l : list A) (a d d' : A),
    last (a :: l) d = last (a :: l) d'.
Proof.
  induction l as [|b l IH]; intros a d d'; [reflexivity|].
  change (last (b :: l) d = last (b :: l) d'). apply IH.
Qed.

Section PlacementFacts.
Context {E : Externals}.

Lemma PlacementNodeMatches_iff : forall lhs rhs,
    (String.length (nodeName lhs) <= WORKER_LENGTH)%nat ->
    (String.length (nodeName rhs) <= WORKER_LENGTH)%nat ->
    (PlacementNodeMatches lhs rhs = true <-> NodeAddress lhs = NodeAddress rhs).
Proof.
  intros lhs rhs Hl Hr; unfold PlacementNodeMatches, NodeAddress.
  rewrite andb_true_iff, !Z.eqb_eq, (strncmp_zero_iff _ _ Hr Hl).
  split; [intros [-> ->]; reflexivity | intros [= -> ->]; auto].
Qed.

Lemma In_IntersectPlacementList : forall lhsList rhsList placement,
    NamesFit lhsList -> NamesFit rhsList ->
    (In placement (IntersectPlacementList lhsList rhsList)
     <-> In placement rhsList /\ OnNodeOf placement lhsList).
Proof.
  intros l r p Hl Hr; unfold IntersectPlacementList, OnNodeOf.
  rewrite in_flat_map; split.
  - intros (q & Hq & Hp); apply filter_In in Hp; destruct Hp as [Hp Hm].
    apply PlacementNodeMatches_iff in Hm; auto.
    split; [exact Hp | now exists q].
  - intros (Hp & q & Hq & Haddr); exists q; split; [exact Hq|].
    apply filter_In; split; [exact Hp|].
    apply PlacementNodeMatches_iff; auto.
Qed.

Lemma NamesFit_Intersect : forall lhsList rhsList,
    NamesFit rhsList -> NamesFit (IntersectPlacementList lhsList rhsList).
Proof.
  intros l r Hr p Hp; unfold IntersectPlacementList in Hp.
  apply in_flat_map in Hp; destruct Hp as (q & _ & Hp).
  apply filter_In in Hp; now apply Hr.
Qed.

Lemma IntersectPlacementList_nil_l : forall rhsList, IntersectPlacementList [] rhsList = [].
Proof. reflexivity. Qed.

(** The loop with its early exit is the plain iteration of the
    intersection over the placement lists of the targeted shards. *)
Lemma WorkersContainingAllShards_loop_fold : forall lists current,
    WorkersContainingAllShards_loop lists false current
    = fold_left IntersectPlacementList
                (map (fun s => FinalizedShardPlacementList (si_shardId s)) (TargetedShards lists))
                current.
Proof.
  induction lists as [|[|s l] rest IH]; intros current; simpl; auto.
  destruct (IntersectPlacementList current _) as [|x xs] eqn:Hi; simpl.
  - clear. induction (map _ _) as [|a m IHm]; simpl; auto.
  - apply IH.
Qed.

Lemma WorkersContainingAllShards_fold : forall lists,
    WorkersContainingAllShards lists
    = match TargetedShards lists with
      | [] => []
      | s :: rest =>
          fold_left IntersectPlacementList
                    (map (fun s => FinalizedShardPlacementList (si_shardId s)) rest)
                    (FinalizedShardPlacementList (si_shardId s))
      end.
Proof.
  unfold WorkersContainingAllShards.
  induction lists as [|[|s l] rest IH]; simpl; auto.
  destruct (FinalizedShardPlacementList (si_shardId s)) as [|x xs] eqn:Hf; simpl.
  - clear. induction (map _ _) as [|a m IHm]; simpl; auto.
  - apply WorkersContainingAllShards_loop_fold.
Qed.

Lemma In_fold_IntersectPlacementList : forall placementLists current placement,
    NamesFit current -> Forall NamesFit placementLists ->
    (In placement (fold_left IntersectPlacementList placementLists current)
     <-> In placement (last placementLists current)
         /\ OnNodeOf placement current
         /\ Forall (OnNodeOf placement) placementLists).
Proof.
  induction placementLists as [|r rs IH]; intros current p Hc Hall.
  - simpl; split.
    + intros Hin; repeat split; auto. now exists p.
    + tauto.
  - inversion Hall as [|? ? Hr Hrs]; subst.
    cbn [fold_left]. rewrite IH by (auto using NamesFit_Intersect).
    assert (Hlast : In p (last rs (IntersectPlacementList current r))
                    /\ OnNodeOf p (IntersectPlacementList current r)
                    <-> In p (last (r :: rs) current) /\ OnNodeOf p current /\ OnNodeOf p r).
    { destruct rs as [|r' rs'].
      - cbn [last]. rewrite In_IntersectPlacementList by auto.
        split.
        + intros ((Hp & Hon) & _); repeat split; auto. now exists p.
        + intros (Hp & Hon & _); repeat split; auto.
          exists p; split; [|reflexivity].
          apply In_IntersectPlacementList; auto.
      - change (last (r :: r' :: rs') current) with (last (r' :: rs') current).
        rewrite (last_cons_default rs' r' (IntersectPlacementList current r) current).
        split.
        + intros (Hp & q & Hq & Haddr).
          apply In_IntersectPlacementList in Hq; auto.
          destruct Hq as (Hq & q' & Hq' & Haddr').
          repeat split; auto.
          * exists q'; split; [exact Hq' | congruence].
          * now exists q.
        + intros (Hp & (q & Hq & Haddr) & (q' & Hq' & Haddr')).
          split; [exact Hp|].
          exists q'; split; [|exact Haddr'].
          apply In_IntersectPlacementList; auto.
          split; [exact Hq'|]. exists q; split; [exact Hq | congruence]. }
    rewrite Forall_cons_iff. tauto.
Qed.
End PlacementFacts.

Section RouterQueryFacts.
Context {E : Externals}.

(** What the loop of [PlanRouterQuery] computes from the pruned shard
    lists. *)
Lemma PlanRouterQuery_shards_spec : forall lists shardsPresent shardId relationShardList,
    fst (fst (PlanRouterQuery_shards lists shardsPresent shardId relationShardList))
    = shardsPresent || negb (is_nil (TargetedShards lists))
    /\ snd (PlanRouterQuery_shards lists shardsPresent shardId relationShardList)
       = relationShardList ++ map RelationShardOf (TargetedShards lists).
Proof.
  induction lists as [|[|s l] rest IH]; intros sp sid rsl; simpl.
  - now rewrite orb_false_r, app_nil_r.
  - apply IH.
  - destruct (IH true (if sid =? INVALID_SHARD_ID then si_shardId s else sid)
                 (rsl ++ [makeRelationShard (si_relationId s) (si_shardId s)]))
      as [H1 H2].
    rewrite H1, H2, orb_true_r, <- app_assoc. auto.
Qed.

Lemma TargetedShards_app : forall l1 l2,
    TargetedShards (l1 ++ l2) = TargetedShards l1 ++ TargetedShards l2.
Proof.
  induction l1 as [|[|s l] rest IH]; intros l2; simpl; auto.
  now rewrite IH.
Qed.

Lemma fold_IntersectPlacementList_nil : forall placementLists,
    fold_left IntersectPlacementList placementLists [] = [].
Proof. induction placementLists as [|a m IH]; simpl; auto. Qed.
End RouterQueryFacts.

Lemma last_map_default : forall (A B : Type) (f : A -> B) (l : list A) (d : A),
    last (map f l) (f d) = f (last l d).
Proof.
  induction l as [|a l IH]; intros d; [reflexivity|].
  destruct l as [|b l]; [reflexivity|].
  change (last (map f (b :: l)) (f d) = f (last (b :: l) d)). apply IH.
Qed.

Section WorkersFacts.
Context {E : Externals}.

Lemma In_WorkersContainingAllShards : forall lists first rest placement,
    (forall shardInterval,
        In shardInterval (TargetedShards lists) ->
        NamesFit (FinalizedShardPlacementList (si_shardId shardInterval))) ->
    TargetedShards lists = first :: rest ->
    (In placement (WorkersContainingAllShards lists)
     <-> In placement (FinalizedShardPlacementList (si_shardId (last rest first)))
         /\ forall shardInterval,
             In shardInterval (first :: rest) ->
             OnNodeOf placement (FinalizedShardPlacementList (si_shardId shardInterval))).
Proof.
  intros lists first rest p Hfit Hshards.
  rewrite WorkersContainingAllShards_fold, Hshards.
  rewrite Hshards in Hfit.
  rewrite In_fold_IntersectPlacementList.
  - rewrite (last_map_default (fun s => FinalizedShardPlacementList (si_shardId s))).
    rewrite Forall_map, Forall_forall.
    split.
    + intros (Hlast & Hfirst & Hrest); split; [exact Hlast|].
      intros s [<-|Hs]; auto.
    + intros (Hlast & Hall); repeat split; auto.
      * apply Hall; now left.
      * intros s Hs; apply Hall; now right.
  - apply Hfit; now left.
  - rewrite Forall_map, Forall_forall; intros s Hs; apply Hfit; now right.
Qed.

Lemma WorkersContainingAllShards_stays_empty : forall lists more,
    TargetedShards lists <> [] ->
    WorkersContainingAllShards lists = [] ->
    WorkersContainingAllShards (lists ++ more) = [].
Proof.
  intros lists more Hne Hnil.
  rewrite WorkersContainingAllShards_fold in *.
  rewrite TargetedShards_app.
  destruct (TargetedShards lists) as [|s rest]; [contradiction|].
  cbn [app]. rewrite map_app, fold_left_app, Hnil.
  apply fold_IntersectPlacementList_nil.
Qed.
End WorkersFacts.

(** C3.  Placement resolution over the pruned shard lists that are not
    empty, with shards S1..Sn: a placement is in the result exactly when it
    is an active placement (of the last shard, whose placements the
    intersection keeps) and some active placement of every Si is on the same
    node name and port; for one shard the result is the list of its active
    placements as it is; once the running intersection is empty the result
    is empty whatever shards follow; and with an empty result
    [PlanRouterQuery] gives no placement and the deferred error that no
    worker has all shard placements. *)
Theorem WorkersContainingAllShards_intersection :
  forall (E : Externals) (prunedShardIntervalsList : list (list ShardInterval)),
    (forall shardInterval,
        In shardInterval (TargetedShards prunedShardIntervalsList) ->
        NamesFit (FinalizedShardPlacementList (si_shardId shardInterval))) ->
    (forall first rest placement,
        TargetedShards prunedShardIntervalsList = first :: rest ->
        (In placement (WorkersContainingAllShards prunedShardIntervalsList)
         <-> In placement (FinalizedShardPlacementList (si_shardId (last rest first)))
             /\ forall shardInterval,
                 In shardInterval (first :: rest) ->
                 OnNodeOf placement (FinalizedShardPlacementList (si_shardId shardInterval))))
    /\ (forall only,
           TargetedShards prunedShardIntervalsList = [only] ->
           WorkersContainingAllShards prunedShardIntervalsList
           = FinalizedShardPlacementList (si_shardId only))
    /\ (forall more,
           TargetedShards prunedShardIntervalsList <> [] ->
           WorkersContainingAllShards prunedShardIntervalsList = [] ->
           WorkersContainingAllShards (prunedShardIntervalsList ++ more) = [])
    /\ (forall originalQuery restrictionContext anchorShardId relationShardList
               replacePrunedQueryWithDummy restrictions,
           TargetShardIntervalsForRouter originalQuery
                                         (relationRestrictionList restrictionContext)
           = (false, prunedShardIntervalsList, restrictions) ->
           TargetedShards prunedShardIntervalsList <> [] ->
           RelationPrunesToMultipleShards
             (relationShardList ++ map RelationShardOf (TargetedShards prunedShardIntervalsList))
           = false ->
           WorkersContainingAllShards prunedShardIntervalsList = [] ->
           rq_planningError (PlanRouterQuery originalQuery restrictionContext anchorShardId
                                             relationShardList replacePrunedQueryWithDummy)
           = Some NoWorkerWithAllPlacementsError
           /\ rq_placementList (PlanRouterQuery originalQuery restrictionContext anchorShardId
                                                relationShardList replacePrunedQueryWithDummy)
              = []).
Proof.
  intros E lists Hfit; split; [|split; [|split]].
  - intros first rest p Hshards. now apply In_WorkersContainingAllShards.
  - intros only Hshards. now rewrite WorkersContainingAllShards_fold, Hshards.
  - intros more. apply WorkersContainingAllShards_stays_empty.
  - intros q ctx anchor rsl replace restrictions Htarget Hne Hsame Hnil.
    unfold PlanRouterQuery. rewrite Htarget.
    destruct (PlanRouterQuery_shards_spec lists false INVALID_SHARD_ID rsl) as [Hsp Hrsl].
    destruct (PlanRouterQuery_shards lists false INVALID_SHARD_ID rsl) as [[sp sid] rsl'].
    cbn [fst snd] in Hsp, Hrsl. subst rsl'.
    rewrite Hsame.
    assert (Hpresent : sp = true).
    { rewrite Hsp. destruct (TargetedShards lists); [contradiction | reflexivity]. }
    rewrite Hpresent, Hnil. cbn. auto.
Qed.

(** The two shards of [orders], with an empty pruned list between them: the
    only worker with both is worker-2. *)
Lemma WorkersContainingAllShards_intersection_witness :
  let lists := [[Example.shard_orders_low]; []; [Example.shard_orders_high]] in
  let apart := [[Example.shard_orders_high]; [Example.shard_events_a]] in
  (forall shardInterval,
      In shardInterval (TargetedShards lists) ->
      NamesFit (E := Example.catalog)
               (FinalizedShardPlacementList (Externals := Example.catalog)
                                            (si_shardId shardInterval)))
  /\ (forall placement,
         In placement (WorkersContainingAllShards (E := Example.catalog) lists)
         <-> In placement (Example.placements 102009)
             /\ forall shardInterval,
                 In shardInterval [Example.shard_orders_low; Example.shard_orders_high] ->
                 OnNodeOf placement (Example.placements (si_shardId shardInterval)))
  /\ WorkersContainingAllShards (E := Example.catalog) lists
     = [makeShardPlacement 3 102009 "worker-2" 5432 2]
  /\ WorkersContainingAllShards (E := Example.catalog) apart = []
  /\ rq_planningError (PlanRouterQuery (E := Example.catalog) Example.orders_events_join
                                       Example.orders_events_context 0 [] true)
     = Some NoWorkerWithAllPlacementsError.
Proof.
  intros lists apart.
  assert (Hfit : forall l shardInterval,
             l = lists \/ l = apart ->
             In shardInterval (TargetedShards l) ->
             NamesFit (E := Example.catalog)
                      (FinalizedShardPlacementList (Externals := Example.catalog)
                                                   (si_shardId shardInterval))).
  { intros l s [->| ->] [<-|[<-|[]]] p Hp; simpl in Hp;
      repeat (destruct Hp as [<-|Hp]; [simpl; lia|]); destruct Hp. }
  split; [exact (fun s => Hfit lists s (or_introl eq_refl))|].
  split; [|split; [reflexivity|split; [reflexivity|]]].
  - intros placement.
    exact (proj1 (@WorkersContainingAllShards_intersection
                    Example.catalog lists (fun s => Hfit lists s (or_introl eq_refl)))
                 Example.shard_orders_low [Example.shard_orders_high] placement eq_refl).
  - destruct (@WorkersContainingAllShards_intersection
                Example.catalog apart (fun s => Hfit apart s (or_intror eq_refl)))
      as (_ & _ & _ & Hfails).
    apply (Hfails Example.orders_events_join Example.orders_events_context 0 [] true
                  (map (fun r => SetPrunedShardIntervalList
                                   r (RelationPrunedShardList (E := Example.catalog) r))
                       (relationRestrictionList Example.orders_events_context)));
      try reflexivity.
    discriminate.
Defined.

(** ** The single-shard invariant *)

Section SingleShardFacts.
Context {E : Externals}.

Lemma TargetShardIntervalsForRouter_spec : forall query restrictions,
    if existsb (fun l => 1 <? Z.of_nat (List.length l)) (map RelationPrunedShardList restrictions)
    then fst (fst (TargetShardIntervalsForRouter query restrictions)) = true
         /\ snd (fst (TargetShardIntervalsForRouter query restrictions)) = []
    else TargetShardIntervalsForRouter query restrictions
         = (false, map RelationPrunedShardList restrictions,
            map (fun r => SetPrunedShardIntervalList r (RelationPrunedShardList r)) restrictions).
Proof.
  intros query; induction restrictions as [|r rest IH]; simpl; [reflexivity|].
  destruct (1 <? Z.of_nat (List.length (RelationPrunedShardList r))); simpl; [auto|].
  destruct (existsb _ _).
  - destruct (TargetShardIntervalsForRouter query rest) as [[m lists] rs'].
    simpl in IH; destruct IH as [-> ->]; auto.
  - now rewrite IH.
Qed.

Lemma scan_to_previous : forall l previous,
    StronglySorted (fun a b => rs_relationId a <= rs_relationId b) (previous :: l) ->
    RelationPrunesToMultipleShards_scan (Some previous) l = false ->
    forall b, In b l -> rs_relationId b = rs_relationId previous ->
              rs_shardId b = rs_shardId previous.
Proof.
  induction l as [|y r IH]; intros previous Hsorted Hscan b Hb Hrel; [destruct Hb|].
  simpl in Hscan.
  destruct ((rs_relationId y =? rs_relationId previous)
            && negb (rs_shardId y =? rs_shardId previous)) eqn:Hy; [discriminate|].
  apply StronglySorted_inv in Hsorted; destruct Hsorted as [Hrest Hprev].
  assert (Hyprev : rs_relationId y = rs_relationId previous -> rs_shardId y = rs_shardId previous).
  { intros Heq. apply andb_false_iff in Hy; destruct Hy as [Hy|Hy].
    - apply Z.eqb_neq in Hy; contradiction.
    - apply negb_false_iff, Z.eqb_eq in Hy; exact Hy. }
  destruct Hb as [<-|Hb]; [auto|].
  assert (Hle1 : rs_relationId previous <= rs_relationId y)
    by (rewrite Forall_forall in Hprev; apply Hprev; now left).
  assert (Hle2 : rs_relationId y <= rs_relationId b).
  { apply StronglySorted_inv in Hrest; destruct Hrest as [_ Hy'].
    rewrite Forall_forall in Hy'; now apply Hy'. }
  assert (Heq : rs_relationId y = rs_relationId previous) by lia.
  rewrite <- (Hyprev Heq).
  apply (IH y Hrest Hscan b Hb). lia.
Qed.

Lemma scan_none_pairs : forall l,
    StronglySorted (fun a b => rs_relationId a <= rs_relationId b) l ->
    RelationPrunesToMultipleShards_scan None l = false ->
    forall a b, In a l -> In b l -> rs_relationId a = rs_relationId b ->
                rs_shardId a = rs_shardId b.
Proof.
  induction l as [|x r IH]; intros Hsorted Hscan a b Ha Hb Hrel; [destruct Ha|].
  simpl in Hscan.
  assert (Hrest : RelationPrunesToMultipleShards_scan None r = false).
  { destruct r as [|y r']; [reflexivity|]. simpl in *.
    destruct (_ && _); [discriminate | exact Hscan]. }
  pose proof (scan_to_previous Hsorted Hscan) as Hx.
  apply StronglySorted_inv in Hsorted; destruct Hsorted as [Hsr _].
  destruct Ha as [<-|Ha], Hb as [<-|Hb].
  - reflexivity.
  - symmetry; apply Hx; auto.
  - apply Hx; auto.
  - apply (IH Hsr Hrest); auto.
Qed.

Lemma RelationPrunesToMultipleShards_false : forall relationShardList,
    SortsByRelation ->
    RelationPrunesToMultipleShards relationShardList = false ->
    forall a b, In a relationShardList -> In b relationShardList ->
                rs_relationId a = rs_relationId b -> rs_shardId a = rs_shardId b.
Proof.
  intros l Hsort Hfalse a b Ha Hb.
  destruct (Hsort l) as [Hperm Hsorted].
  apply (scan_none_pairs Hsorted Hfalse); eapply Permutation_in; eauto.
Qed.

(** The outcome of [PlanRouterQuery], by the three tests it makes first. *)
Lemma PlanRouterQuery_accepts : forall query ctx anchorShardId relationShardList replace,
    rq_planningError (PlanRouterQuery query ctx anchorShardId relationShardList replace) = None ->
    existsb (fun l => 1 <? Z.of_nat (List.length l))
            (map RelationPrunedShardList (relationRestrictionList ctx)) = false
    /\ RelationPrunesToMultipleShards
         (relationShardList
            ++ map RelationShardOf
                   (TargetedShards (map RelationPrunedShardList (relationRestrictionList ctx))))
       = false
    /\ relationRestrictionList
         (rq_restrictionContext (PlanRouterQuery query ctx anchorShardId relationShardList replace))
       = map (fun r => SetPrunedShardIntervalList r (RelationPrunedShardList r))
             (relationRestrictionList ctx).
Proof.
  intros query ctx anchor rsl replace; unfold PlanRouterQuery.
  pose proof (TargetShardIntervalsForRouter_spec query (relationRestrictionList ctx)) as Hspec.
  destruct (existsb _ _).
  - destruct (TargetShardIntervalsForRouter query _) as [[m lists] rs'].
    simpl in Hspec; destruct Hspec as [-> ->]. discriminate.
  - rewrite Hspec.
    destruct (PlanRouterQuery_shards_spec
                (map RelationPrunedShardList (relationRestrictionList ctx))
                false INVALID_SHARD_ID rsl) as [Hsp Hrsl].
    destruct (PlanRouterQuery_shards _ false INVALID_SHARD_ID rsl) as [[sp sid] rsl'].
    cbn [fst snd] in Hsp, Hrsl. subst rsl'.
    destruct (RelationPrunesToMultipleShards _); [intros H; discriminate H|].
    destruct (negb sp && negb replace); [intros _; repeat split|].
    clear Hsp.
    destruct (is_nil _); [intros H; discriminate H | intros _; repeat split].
Qed.
End SingleShardFacts.

Section SingleShardInvariant.
Context {E : Externals}.

Lemma In_TargetedShards : forall lists shardInterval rest,
    In (shardInterval :: rest) lists -> In shardInterval (TargetedShards lists).
Proof.
  induction lists as [|[|s l] more IH]; intros x rest Hin; simpl in *.
  - destruct Hin.
  - destruct Hin as [Heq|Hin]; [discriminate | eauto].
  - destruct Hin as [Heq|Hin]; [injection Heq as -> _; now left | right; eauto].
Qed.

Lemma RelationPrunedShardList_owner : forall relationRestriction shardInterval,
    PrunesOwnShards ->
    In shardInterval (RelationPrunedShardList relationRestriction) ->
    si_relationId shardInterval = rr_relationId relationRestriction.
Proof.
  intros r s Hown; unfold RelationPrunedShardList.
  destruct (negb _ && _); [apply Hown | intros []].
Qed.

Lemma PlanRouterQuery_multi_shard : forall query ctx anchorShardId relationShardList replace,
    existsb (fun l => 1 <? Z.of_nat (List.length l))
            (map RelationPrunedShardList (relationRestrictionList ctx)) = true ->
    rq_planningError (PlanRouterQuery query ctx anchorShardId relationShardList replace)
    = Some (MultiShardQueryError query)
    /\ rq_placementList (PlanRouterQuery query ctx anchorShardId relationShardList replace) = [].
Proof.
  intros query ctx anchor rsl replace Hex; unfold PlanRouterQuery.
  pose proof (TargetShardIntervalsForRouter_spec query (relationRestrictionList ctx)) as Hspec.
  rewrite Hex in Hspec.
  destruct (TargetShardIntervalsForRouter query _) as [[m lists] rs'].
  simpl in Hspec; destruct Hspec as [-> ->]. auto.
Qed.

(** What an accepted statement satisfies. *)
Lemma PlanRouterQuery_accepted_invariant :
  forall query ctx anchorShardId relationShardList replace,
    SortsByRelation -> PrunesOwnShards ->
    rq_planningError (PlanRouterQuery query ctx anchorShardId relationShardList replace) = None ->
    (forall r, In r (relationRestrictionList ctx) ->
               (List.length (RelationPrunedShardList r) <= 1)%nat)
    /\ (forall r1 r2 s1 s2,
           In r1 (relationRestrictionList ctx) -> In r2 (relationRestrictionList ctx) ->
           rr_relationId r1 = rr_relationId r2 ->
           RelationPrunedShardList r1 = [s1] -> RelationPrunedShardList r2 = [s2] ->
           si_shardId s1 = si_shardId s2).
Proof.
  intros query ctx anchor rsl replace Hsort Hown Hacc.
  apply PlanRouterQuery_accepts in Hacc; destruct Hacc as (Hmulti & Hsame & _).
  split.
  - intros r Hr.
    destruct (le_gt_dec (List.length (RelationPrunedShardList r)) 1) as [Hle|Hgt]; [exact Hle|].
    assert (Hex : existsb (fun l => 1 <? Z.of_nat (List.length l))
                          (map RelationPrunedShardList (relationRestrictionList ctx)) = true).
    { apply existsb_exists; exists (RelationPrunedShardList r); split.
      - now apply in_map.
      - apply Z.ltb_lt; lia. }
    congruence.
  - intros r1 r2 s1 s2 Hr1 Hr2 Hrel H1 H2.
    assert (Hin : forall r s, In r (relationRestrictionList ctx) ->
                              RelationPrunedShardList r = [s] ->
                              In (RelationShardOf s)
                                 (rsl ++ map RelationShardOf
                                      (TargetedShards
                                         (map RelationPrunedShardList
                                              (relationRestrictionList ctx))))).
    { intros r s Hr Hs. apply in_or_app; right. apply in_map.
      apply (In_TargetedShards _ s []). rewrite <- Hs. now apply in_map. }
    change (rs_shardId (RelationShardOf s1) = rs_shardId (RelationShardOf s2)).
    eapply RelationPrunesToMultipleShards_false; eauto.
    simpl.
    rewrite (RelationPrunedShardList_owner r1 s1 Hown) by (rewrite H1; now left).
    rewrite (RelationPrunedShardList_owner r2 s2 Hown) by (rewrite H2; now left).
    exact Hrel.
Qed.
End SingleShardInvariant.

(** C1 (as amended).  For a SELECT, UPDATE or DELETE that the router planner
    accepts, the pruned shard list of every referenced relation has at most
    one shard, and two references to the same table that both have a shard
    left resolve to the same shard (a reference whose shards are all pruned
    is not compared).  If one relation prunes to more than one shard,
    planning gives the multi-shard deferred error and no placement, with no
    fallback for the other relations; if two references to one table have
    different shards left, planning is rejected with a deferred error. *)
Theorem RouterJob_single_shard_invariant :
  forall (E : Externals) (originalQuery : Query)
         (restrictionContext : RelationRestrictionContext),
    SortsByRelation -> PrunesOwnShards ->
    (forall anchorShardId relationShardList replacePrunedQueryWithDummy,
        rq_planningError (PlanRouterQuery originalQuery restrictionContext anchorShardId
                                          relationShardList replacePrunedQueryWithDummy)
        = None ->
        (forall r, In r (relationRestrictionList restrictionContext) ->
                   (List.length (RelationPrunedShardList r) <= 1)%nat)
        /\ (forall r1 r2 s1 s2,
               In r1 (relationRestrictionList restrictionContext) ->
               In r2 (relationRestrictionList restrictionContext) ->
               rr_relationId r1 = rr_relationId r2 ->
               RelationPrunedShardList r1 = [s1] -> RelationPrunedShardList r2 = [s2] ->
               si_shardId s1 = si_shardId s2))
    /\ (forall job,
           RouterJob originalQuery restrictionContext = Ok job ->
           rq_planningError (PlanRouterQuery originalQuery restrictionContext
                                             INVALID_SHARD_ID [] true) = None)
    /\ ((exists r, In r (relationRestrictionList restrictionContext)
                   /\ (1 < List.length (RelationPrunedShardList r))%nat) ->
        RouterJob originalQuery restrictionContext
        = Deferred (MultiShardQueryError originalQuery)
        /\ rq_placementList (PlanRouterQuery originalQuery restrictionContext
                                             INVALID_SHARD_ID [] true) = [])
    /\ ((exists r1 r2 s1 s2,
            In r1 (relationRestrictionList restrictionContext)
            /\ In r2 (relationRestrictionList restrictionContext)
            /\ rr_relationId r1 = rr_relationId r2
            /\ RelationPrunedShardList r1 = [s1] /\ RelationPrunedShardList r2 = [s2]
            /\ si_shardId s1 <> si_shardId s2) ->
        exists planningError,
          RouterJob originalQuery restrictionContext = Deferred planningError).
Proof.
  intros E q ctx Hsort Hown; split; [|split; [|split]].
  - intros anchor rsl replace. now apply PlanRouterQuery_accepted_invariant.
  - intros job; unfold RouterJob.
    destruct (rq_planningError _); [discriminate | reflexivity].
  - intros (r & Hr & Hlen).
    assert (Hex : existsb (fun l => 1 <? Z.of_nat (List.length l))
                          (map RelationPrunedShardList (relationRestrictionList ctx)) = true).
    { apply existsb_exists; exists (RelationPrunedShardList r); split.
      - now apply in_map.
      - apply Z.ltb_lt; lia. }
    destruct (PlanRouterQuery_multi_shard q ctx INVALID_SHARD_ID [] true Hex) as [Herr Hpl].
    split; [|exact Hpl]. unfold RouterJob. now rewrite Herr.
  - intros (r1 & r2 & s1 & s2 & Hr1 & Hr2 & Hrel & H1 & H2 & Hneq).
    unfold RouterJob.
    destruct (rq_planningError (PlanRouterQuery q ctx INVALID_SHARD_ID [] true)) as [e|] eqn:Herr.
    + now exists e.
    + exfalso; apply Hneq.
      destruct (PlanRouterQuery_accepted_invariant q ctx INVALID_SHARD_ID [] true
                                                   Hsort Hown Herr) as [_ Hsame].
      eauto.
Qed.

(** The example catalog meets what is asked of the environment. *)
Lemma Example_insert_sorted_perm : forall x l,
    Permutation (x :: l) (Example.insert_sorted x l).
Proof.
  intros x; induction l as [|y r IH]; simpl; [reflexivity|].
  destruct (Example.relation_shard_leb x y); [reflexivity|].
  rewrite perm_swap. now apply perm_skip.
Qed.

Lemma Example_insert_sorted_sorted : forall x l,
    StronglySorted (fun a b => rs_relationId a <= rs_relationId b) l ->
    StronglySorted (fun a b => rs_relationId a <= rs_relationId b)
                   (Example.insert_sorted x l).
Proof.
  intros x; induction l as [|y r IH]; intros Hs; simpl.
  - constructor; constructor.
  - apply StronglySorted_inv in Hs; destruct Hs as [Hr Hy].
    destruct (Example.relation_shard_leb x y) eqn:Hleb.
    + assert (Hxy : rs_relationId x <= rs_relationId y).
      { unfold Example.relation_shard_leb in Hleb.
        apply orb_true_iff in Hleb; destruct Hleb as [H|H].
        - apply Z.ltb_lt in H; lia.
        - apply andb_true_iff in H; destruct H as [H _]; apply Z.eqb_eq in H; lia. }
      constructor; [constructor; assumption|].
      constructor; [exact Hxy|].
      rewrite Forall_forall in *; intros b Hb; specialize (Hy b Hb); lia.
    + assert (Hyx : rs_relationId y <= rs_relationId x).
      { unfold Example.relation_shard_leb in Hleb.
        apply orb_false_iff in Hleb; destruct Hleb as [H _].
        apply Z.ltb_ge in H; exact H. }
      constructor; [now apply IH|].
      rewrite Forall_forall in *; intros b Hb.
      apply (Permutation_in _ (Permutation_sym (Example_insert_sorted_perm x r))) in Hb.
      destruct Hb as [<-|Hb]; auto.
Qed.

Lemma Example_SortsByRelation : SortsByRelation (E := Example.catalog).
Proof.
  intros l; simpl; unfold Example.sort_relation_shards; split.
  - induction l as [|x r IH]; simpl; [reflexivity|].
    rewrite <- Example_insert_sorted_perm. now apply perm_skip.
  - induction l as [|x r IH]; simpl; [constructor|].
    now apply Example_insert_sorted_sorted.
Qed.

Lemma Example_PrunesOwnShards : PrunesOwnShards (E := Example.catalog).
Proof.
  intros relationId tableId clauses s; simpl; unfold Example.prune.
  destruct (forallb _ _); [|intros []].
  intros Hin; apply filter_In in Hin; destruct Hin as [Hin _].
  unfold Example.cache in Hin.
  repeat match type of Hin with
         | context [?a =? ?b] =>
             destruct (Z.eqb_spec a b) as [->|?]; simpl in Hin
         end;
    repeat (destruct Hin as [<-|Hin]; [reflexivity|]); destruct Hin.
Qed.

(** A self-join of [orders] whose two references are both filtered to
    customer 42: accepted, and both resolve to shard 102008. *)
Lemma RouterJob_single_shard_invariant_witness :
  SortsByRelation (E := Example.catalog)
  /\ PrunesOwnShards (E := Example.catalog)
  /\ rq_planningError (PlanRouterQuery (E := Example.catalog) Example.self_join
                                       Example.self_join_context 0 [] true) = None
  /\ (forall r, In r (relationRestrictionList Example.self_join_context) ->
                (List.length (RelationPrunedShardList (E := Example.catalog) r) <= 1)%nat)
  /\ (forall r1 r2 s1 s2,
         In r1 (relationRestrictionList Example.self_join_context) ->
         In r2 (relationRestrictionList Example.self_join_context) ->
         rr_relationId r1 = rr_relationId r2 ->
         RelationPrunedShardList (E := Example.catalog) r1 = [s1] ->
         RelationPrunedShardList (E := Example.catalog) r2 = [s2] ->
         si_shardId s1 = si_shardId s2)
  /\ RouterJob (E := Example.catalog) Example.self_join Example.unfiltered_context
     = Deferred (MultiShardQueryError (E := Example.catalog) Example.self_join)
  /\ RouterJob (E := Example.catalog) Example.self_join Example.split_self_join_context
     = Deferred SameRelationMultipleShardsError.
Proof.
  split; [exact Example_SortsByRelation|].
  split; [exact Example_PrunesOwnShards|].
  split; [reflexivity|].
  split; [|split; [|split]].
  - exact (proj1 (proj1 (@RouterJob_single_shard_invariant
                           Example.catalog Example.self_join Example.self_join_context
                           Example_SortsByRelation Example_PrunesOwnShards)
                        0 [] true eq_refl)).
  - exact (proj2 (proj1 (@RouterJob_single_shard_invariant
                           Example.catalog Example.self_join Example.self_join_context
                           Example_SortsByRelation Example_PrunesOwnShards)
                        0 [] true eq_refl)).
  - destruct (@RouterJob_single_shard_invariant
                Example.catalog Example.self_join Example.unfiltered_context
                Example_SortsByRelation Example_PrunesOwnShards) as (_ & _ & Hmulti & _).
    apply Hmulti.
    exists (Example.restriction Example.orders 1 ACL_SELECT []).
    split; [now left | simpl; lia].
  - destruct (@RouterJob_single_shard_invariant
                Example.catalog Example.self_join Example.split_self_join_context
                Example_SortsByRelation Example_PrunesOwnShards) as (_ & _ & _ & Hsplit).
    destruct Hsplit as (e & He).
    + exists (Example.restriction Example.orders 1 ACL_SELECT
                                  [Example.equals Example.customer_id 42]),
             (Example.restriction Example.orders 2 ACL_SELECT
                                  [Example.equals (makeVar 2 1) 150]),
             Example.shard_orders_low, Example.shard_orders_high.
      repeat split; simpl; auto. discriminate.
    + reflexivity.
Defined.

(** C1, the claim as stated fails: two references to [orders], the planner
    accepts the statement, the first reference has no shard left and the
    second resolves to shard 102008, so the two references do not resolve
    to the same shard and their pruned shard lists differ. *)
Lemma RouterJob_accepts_half_pruned_self_join :
  (exists job, RouterJob (E := Example.catalog) Example.self_join
                         Example.half_pruned_context = Ok job)
  /\ In Example.first_reference_pruned
        (relationRestrictionList Example.half_pruned_context)
  /\ In Example.second_reference
        (relationRestrictionList Example.half_pruned_context)
  /\ rr_relationId Example.first_reference_pruned = rr_relationId Example.second_reference
  /\ RelationPrunedShardList (E := Example.catalog) Example.first_reference_pruned = []
  /\ RelationPrunedShardList (E := Example.catalog) Example.second_reference
     = [Example.shard_orders_low].
Proof.
  split; [eexists; vm_compute; reflexivity|].
  repeat split; simpl; auto.
Qed.

(** ** The INSERT path *)

Lemma find_in_sorted_shard_intervals : forall shardIntervalArray partitionValue shardInterval,
    SortedShardIntervals shardIntervalArray ->
    In shardInterval shardIntervalArray ->
    ShardIntervalContains partitionValue shardInterval = true ->
    find (ShardIntervalContains partitionValue) shardIntervalArray = Some shardInterval.
Proof.
  induction shardIntervalArray as [|x r IH]; intros v s Hsorted Hin Hs; [destruct Hin|].
  apply StronglySorted_inv in Hsorted; destruct Hsorted as [Hr Hx].
  simpl. destruct (ShardIntervalContains v x) eqn:Hcx.
  - destruct Hin as [->|Hin]; [reflexivity|].
    exfalso. rewrite Forall_forall in Hx. specialize (Hx s Hin).
    unfold ShardIntervalContains in *.
    apply andb_true_iff in Hs, Hcx. rewrite !Z.leb_le in Hs, Hcx. lia.
  - destruct Hin as [->|Hin]; [congruence|]. now apply IH.
Qed.

Lemma prefix_app : forall name rest, String.prefix name (name ++ rest) = true.
Proof.
  induction name as [|c name IH]; intros rest; simpl.
  - destruct rest; reflexivity.
  - destruct (ascii_dec c c); [apply IH | contradiction].
Qed.

Lemma Mentions_infix : forall name before after,
    Mentions name (before ++ name ++ after) = true.
Proof.
  intros name before after; induction before as [|c before IH].
  - change (Mentions name (name ++ after) = true).
    assert (Hunfold : forall text,
               Mentions name text
               = String.prefix name text
                 || match text with
                    | EmptyString => false
                    | String _ rest => Mentions name rest
                    end) by (intros []; reflexivity).
    now rewrite Hunfold, prefix_app.
  - change (String.prefix name (String c (before ++ name ++ after))
            || Mentions name (before ++ name ++ after) = true).
    rewrite IH. apply orb_true_r.
Qed.

Section InsertFacts.
Context {E : Externals}.

(** [FindShardForInsert] for a constant that is not null, on a table that is
    not a reference table. *)
Lemma FindShardForInsert_constant : forall query cacheEntry partitionColumn targetEntry c,
    partitionMethod cacheEntry <> DISTRIBUTE_BY_NONE ->
    PartitionColumn (ce_relationId cacheEntry) 1 = Some partitionColumn ->
    get_tle_by_resno (targetList query) (varattno partitionColumn) = Some targetEntry ->
    expr targetEntry = T_Const c ->
    constisnull c = false ->
    FindShardForInsert query cacheEntry
    = match FindShardForInsert_prunedShardList cacheEntry partitionColumn c with
      | [shardInterval] => Ok shardInterval
      | prunedShardList =>
          Deferred (InsertShardCountError cacheEntry (List.length prunedShardList))
      end.
Proof.
  intros query cacheEntry column te c Hmethod Hcolumn Htle Hexpr Hnull.
  unfold FindShardForInsert.
  apply Ascii.eqb_neq in Hmethod. rewrite Hmethod, Hcolumn.
  unfold ExtractInsertPartitionValue. rewrite Htle. cbn [bindO].
  rewrite Hexpr, Hnull.
  destruct (FindShardForInsert_prunedShardList cacheEntry column c) as [|s [|s' l]];
    reflexivity.
Qed.
End InsertFacts.

(** C2.  For an INSERT whose partition column is given a constant [v] that
    is not null: on a hash or range partitioned table whose shard intervals
    are sorted and do not overlap, [FindShardForInsert] gives the interval
    with [min <= v <= max], and no other interval of the table contains [v];
    on a reference table it gives the single shard of the table.  When the
    partition column is given an expression that is not a constant,
    [RouterInsertJob] does not fail: it gives a Job with [deferredPruning]
    set and an empty task list. *)
Theorem FindShardForInsert_determinism :
  forall (E : Externals) (query : Query) (cacheEntry : DistTableCacheEntry),
    (forall partitionColumn targetEntry c shardInterval,
        partitionMethod cacheEntry = DISTRIBUTE_BY_HASH
        \/ partitionMethod cacheEntry = DISTRIBUTE_BY_RANGE ->
        PartitionColumn (ce_relationId cacheEntry) 1 = Some partitionColumn ->
        get_tle_by_resno (targetList query) (varattno partitionColumn) = Some targetEntry ->
        expr targetEntry = T_Const c ->
        constisnull c = false ->
        SortedShardIntervals (sortedShardIntervalArray cacheEntry) ->
        In shardInterval (sortedShardIntervalArray cacheEntry) ->
        minValue shardInterval <= constvalue c <= maxValue shardInterval ->
        FindShardForInsert query cacheEntry = Ok shardInterval
        /\ forall other,
            In other (sortedShardIntervalArray cacheEntry) ->
            minValue other <= constvalue c <= maxValue other ->
            other = shardInterval)
    /\ (forall only,
           partitionMethod cacheEntry = DISTRIBUTE_BY_NONE ->
           sortedShardIntervalArray cacheEntry = [only] ->
           FindShardForInsert query cacheEntry = Ok only)
    /\ (forall originalQuery partitionColumn targetEntry,
           commandType query = CMD_INSERT ->
           PartitionColumn (ExtractFirstDistributedTableId query) 1 = Some partitionColumn ->
           get_tle_by_resno (targetList query) (varattno partitionColumn) = Some targetEntry ->
           (forall c, expr targetEntry <> T_Const c) ->
           exists job,
             RouterInsertJob originalQuery query = Ok job
             /\ deferredPruning job = true
             /\ taskList job = []
             /\ requiresMasterEvaluation job = true).
Proof.
  intros E query cacheEntry; split; [|split].
  - intros column te c s Hmethod Hcolumn Htle Hexpr Hnull Hsorted Hin Hrange.
    assert (Hcontains : forall x, minValue x <= constvalue c <= maxValue x ->
                                  ShardIntervalContains (constvalue c) x = true).
    { intros x Hx; unfold ShardIntervalContains.
      apply andb_true_iff; rewrite !Z.leb_le; lia. }
    assert (Hfind : forall x, In x (sortedShardIntervalArray cacheEntry) ->
                              minValue x <= constvalue c <= maxValue x ->
                              FindShardInterval (constvalue c) cacheEntry = Some x).
    { intros x Hx Hr; unfold FindShardInterval.
      apply find_in_sorted_shard_intervals; auto. }
    split.
    + rewrite (@FindShardForInsert_constant E query cacheEntry column te c); auto.
      * unfold FindShardForInsert_prunedShardList.
        assert (Hhr : Ascii.eqb (partitionMethod cacheEntry) DISTRIBUTE_BY_HASH
                      || Ascii.eqb (partitionMethod cacheEntry) DISTRIBUTE_BY_RANGE = true).
        { destruct Hmethod as [->| ->]; reflexivity. }
        rewrite Hhr, (Hfind s Hin Hrange). reflexivity.
      * destruct Hmethod as [->| ->]; discriminate.
    + intros other Hother Hr.
      pose proof (Hfind s Hin Hrange) as H1. pose proof (Hfind other Hother Hr) as H2.
      congruence.
  - intros only Hmethod Harray. unfold FindShardForInsert.
    now rewrite Hmethod, Harray.
  - intros originalQuery column te Hcmd Hcolumn Htle Hexpr.
    unfold RouterInsertJob, CanShardPrune.
    rewrite Hcmd, Hcolumn. cbn [CmdType_beq negb].
    unfold ExtractInsertPartitionValue. rewrite Htle. cbn [bindO].
    destruct (expr te) eqn:He; try (specialize (Hexpr c); congruence);
      cbn; eexists; repeat split.
Qed.

(** INSERT of customer 150 into [orders] goes to the shard [100,199]; an
    INSERT into [countries] goes to its single shard; an INSERT whose
    partition value is a parameter gets a Job with deferred pruning. *)
Lemma FindShardForInsert_determinism_witness :
  FindShardForInsert (E := Example.catalog)
                     (Example.insert_into Example.orders (Example.literal 150))
                     (Example.cache Example.orders)
  = Ok Example.shard_orders_high
  /\ (forall other,
         In other (sortedShardIntervalArray (Example.cache Example.orders)) ->
         minValue other <= 150 <= maxValue other ->
         other = Example.shard_orders_high)
  /\ FindShardForInsert (E := Example.catalog)
                        (Example.insert_into Example.countries (Example.literal 1))
                        (Example.cache Example.countries)
     = Ok Example.shard_countries
  /\ exists job,
      RouterInsertJob (E := Example.catalog)
                      (Example.insert_into Example.orders (T_Param 1))
                      (Example.insert_into Example.orders (T_Param 1)) = Ok job
      /\ deferredPruning job = true /\ taskList job = []
      /\ requiresMasterEvaluation job = true.
Proof.
  pose proof (@FindShardForInsert_determinism
                Example.catalog
                (Example.insert_into Example.orders (Example.literal 150))
                (Example.cache Example.orders)) as (Hrange & _ & _).
  pose proof (@FindShardForInsert_determinism
                Example.catalog
                (Example.insert_into Example.countries (Example.literal 1))
                (Example.cache Example.countries)) as (_ & Hreference & _).
  pose proof (@FindShardForInsert_determinism
                Example.catalog
                (Example.insert_into Example.orders (T_Param 1))
                (Example.cache Example.orders)) as (_ & _ & Hdeferred).
  assert (Hsorted : SortedShardIntervals
                      (sortedShardIntervalArray (Example.cache Example.orders))).
  { repeat constructor. }
  destruct (Hrange (makeVar 1 1)
                   (makeTargetEntry (Example.literal 150) 1 false)
                   (makeConst 150 false true) Example.shard_orders_high
                   (or_introl eq_refl) eq_refl eq_refl eq_refl eq_refl Hsorted
                   (or_intror (or_introl eq_refl))
                   (conj (proj1 (Z.leb_le 100 150) eq_refl)
                         (proj1 (Z.leb_le 150 199) eq_refl)))
    as [Hfound Hunique].
  split; [exact Hfound|]. split; [exact Hunique|].
  split; [exact (Hreference Example.shard_countries eq_refl eq_refl)|].
  apply (Hdeferred (Example.insert_into Example.orders (T_Param 1)) (makeVar 1 1)
                   (makeTargetEntry (T_Param 1) 1 false) eq_refl eq_refl eq_refl).
  intros c; discriminate.
Defined.

(** C6 (as amended).  On the INSERT path with a constant partition value that
    is not null, when pruning leaves no candidate shard or more than one,
    [FindShardForInsert] gives a deferred error (not a shard, not a fatal
    error) that carries a hint; with several candidates the hint names the
    partition column, with none the hint is the fixed advice to create a
    shard that can receive the value.  When the table has a shard at all,
    [RouterInsertJob] gives that deferred error as the planning error. *)
Theorem FindShardForInsert_shard_count_error :
  forall (E : Externals) (query : Query) (cacheEntry : DistTableCacheEntry)
         (partitionColumn : Var) (targetEntry : TargetEntry) (c : Const),
    partitionMethod cacheEntry <> DISTRIBUTE_BY_NONE ->
    PartitionColumn (ce_relationId cacheEntry) 1 = Some partitionColumn ->
    get_tle_by_resno (targetList query) (varattno partitionColumn) = Some targetEntry ->
    expr targetEntry = T_Const c ->
    constisnull c = false ->
    List.length (FindShardForInsert_prunedShardList cacheEntry partitionColumn c) <> 1%nat ->
    let prunedShardList := FindShardForInsert_prunedShardList cacheEntry partitionColumn c in
    let planningError := InsertShardCountError cacheEntry (List.length prunedShardList) in
    FindShardForInsert query cacheEntry = Deferred planningError
    /\ (exists errorHint,
           hint planningError = Some errorHint
           /\ (prunedShardList = [] ->
               errorHint
               = "Make sure you have created a shard which can receive this partition column value."%string)
           /\ (prunedShardList <> [] ->
               Mentions (ColumnNameToColumn (ce_relationId cacheEntry)
                                            (partitionKeyString cacheEntry))
                        errorHint = true))
    /\ (forall originalQuery,
           commandType query = CMD_INSERT ->
           cacheEntry = DistributedTableCacheEntry (ExtractFirstDistributedTableId query) ->
           ce_relationId cacheEntry = ExtractFirstDistributedTableId query ->
           sortedShardIntervalArray cacheEntry <> [] ->
           RouterInsertJob originalQuery query = Deferred planningError).
Proof.
  intros E query cacheEntry column te c Hmethod Hcolumn Htle Hexpr Hnull Hcount
         prunedShardList planningError.
  assert (Hfind : FindShardForInsert query cacheEntry = Deferred planningError).
  { rewrite (@FindShardForInsert_constant E query cacheEntry column te c); auto.
    subst planningError prunedShardList.
    destruct (FindShardForInsert_prunedShardList cacheEntry column c) as [|s [|s' l]];
      try reflexivity.
    now elim Hcount. }
  split; [exact Hfind|]. split.
  - subst planningError. unfold InsertShardCountError. cbn [hint].
    destruct prunedShardList as [|s l] eqn:Hlist; cbn [List.length].
    + eexists; split; [reflexivity|]. split; [reflexivity | congruence].
    + eexists; split; [reflexivity|]. split; [discriminate|].
      intros _.
      apply (Mentions_infix _ ("Make sure the value for partition column " ++ double_quote)
                            (double_quote ++ " falls into a single shard.")).
  - intros originalQuery Hcmd Hcache Hrel Hshards.
    unfold RouterInsertJob, CanShardPrune, RouterInsertTaskList.
    rewrite <- Hcache, Hcmd, <- Hrel, Hcolumn. cbn [CmdType_beq negb].
    unfold ExtractInsertPartitionValue. rewrite Htle. cbn [bindO]. rewrite Hexpr.
    cbn [negb].
    unfold ErrorIfNoShardsExist, shardIntervalArrayLength.
    destruct (sortedShardIntervalArray cacheEntry) as [|s0 l0] eqn:Harr; [contradiction|].
    cbn [List.length]. rewrite Nat2Z.inj_succ.
    destruct (Z.eqb_spec (Z.succ (Z.of_nat (List.length l0))) 0) as [Hz|_]; [lia|].
    cbn [bindO]. rewrite Hfind. reflexivity.
Qed.

(** INSERT of 45 into [events], whose shards [0,50] and [40,90] overlap:
    a deferred error whose hint names the partition column. *)
Lemma FindShardForInsert_shard_count_error_witness :
  List.length (FindShardForInsert_prunedShardList
                 (E := Example.catalog) (Example.cache Example.events)
                 (makeVar 1 1) (makeConst 45 false true)) <> 1%nat
  /\ FindShardForInsert (E := Example.catalog)
                        (Example.insert_into Example.events (Example.literal 45))
                        (Example.cache Example.events)
     = Deferred (InsertShardCountError (E := Example.catalog) (Example.cache Example.events) 2)
  /\ message (InsertShardCountError (E := Example.catalog) (Example.cache Example.events) 2)
     = "cannot run INSERT command which targets multiple shards"%string
  /\ (exists errorHint,
         hint (InsertShardCountError (E := Example.catalog) (Example.cache Example.events) 2)
         = Some errorHint
         /\ Mentions "event_id" errorHint = true)
  /\ RouterInsertJob (E := Example.catalog)
                     (Example.insert_into Example.events (Example.literal 45))
                     (Example.insert_into Example.events (Example.literal 45))
     = Deferred (InsertShardCountError (E := Example.catalog) (Example.cache Example.events) 2).
Proof.
  assert (Hcount : List.length (FindShardForInsert_prunedShardList
                                  (E := Example.catalog) (Example.cache Example.events)
                                  (makeVar 1 1) (makeConst 45 false true)) <> 1%nat)
    by (vm_compute; discriminate).
  assert (Hmethod : partitionMethod (Example.cache Example.events) <> DISTRIBUTE_BY_NONE)
    by (vm_compute; discriminate).
  destruct (@FindShardForInsert_shard_count_error
              Example.catalog (Example.insert_into Example.events (Example.literal 45))
              (Example.cache Example.events) (makeVar 1 1)
              (makeTargetEntry (Example.literal 45) 1 false) (makeConst 45 false true)
              Hmethod eq_refl eq_refl eq_refl eq_refl Hcount)
    as (Hfind & (errorHint & Hhint & _ & Hnames) & Hjob).
  split; [exact Hcount|]. split; [exact Hfind|]. split; [reflexivity|].
  split.
  - exists errorHint; split; [exact Hhint|].
    apply Hnames. vm_compute; discriminate.
  - apply Hjob; try reflexivity. vm_compute; discriminate.
Defined.

(** C6, the claim as stated fails: an INSERT into [orders] with the constant
    250 in the partition column [customer_id] falls into no shard; the
    planner gives a deferred error whose hint does not name the partition
    column. *)
Lemma FindShardForInsert_no_shard_hint_without_column :
  FindShardForInsert_prunedShardList (E := Example.catalog) (Example.cache Example.orders)
                                     (makeVar 1 1) (makeConst 250 false true) = []
  /\ ColumnNameToColumn (Externals := Example.catalog) Example.orders
                        (partitionKeyString (Example.cache Example.orders))
     = "customer_id"%string
  /\ FindShardForInsert (E := Example.catalog)
                        (Example.insert_into Example.orders (Example.literal 250))
                        (Example.cache Example.orders)
     = Deferred
         (DeferredError ERRCODE_FEATURE_NOT_SUPPORTED
            "cannot run INSERT command which targets no shards" None
            (Some "Make sure you have created a shard which can receive this partition column value."%string))
  /\ Mentions "customer_id"
              "Make sure you have created a shard which can receive this partition column value."
     = false.
Proof. repeat split. Qed.

(** ** Assembling the Job *)

Lemma find_map_preserving : forall (A : Type) (p : A -> bool) (f : A -> A) (l : list A),
    (forall x, p (f x) = p x) ->
    find p (map f l) = option_map f (find p l).
Proof.
  intros A p f l Hp; induction l as [|x r IH]; simpl; [reflexivity|].
  rewrite Hp. destruct (p x); [reflexivity | exact IH].
Qed.

Section RouterJobFacts.
Context {E : Externals}.

Lemma UpdateOrDeleteRTE_rewritten : forall relationShardList rangeTableEntry,
    UpdateOrDeleteRTE (UpdateRelationToShardNames_rte relationShardList rangeTableEntry)
    = UpdateOrDeleteRTE rangeTableEntry.
Proof.
  intros rsl rte; unfold UpdateRelationToShardNames_rte.
  destruct (rtekind rte); try reflexivity.
  destruct (existsb _ rsl); reflexivity.
Qed.

Lemma GetUpdateOrDeleteRTE_rewritten : forall query relationShardList,
    GetUpdateOrDeleteRTE (rtable (UpdateRelationToShardNames query relationShardList))
    = option_map (UpdateRelationToShardNames_rte relationShardList)
                 (GetUpdateOrDeleteRTE (rtable query)).
Proof.
  intros query rsl; unfold GetUpdateOrDeleteRTE; simpl.
  apply find_map_preserving. apply UpdateOrDeleteRTE_rewritten.
Qed.

Lemma GetUpdateOrDeleteRTE_none : forall rangeTableList,
    (forall rangeTableEntry, In rangeTableEntry rangeTableList ->
                             UpdateOrDeleteRTE rangeTableEntry = false) ->
    GetUpdateOrDeleteRTE rangeTableList = None.
Proof.
  intros l Hall; unfold GetUpdateOrDeleteRTE.
  destruct (find UpdateOrDeleteRTE l) as [x|] eqn:Hfind; [|reflexivity].
  apply find_some in Hfind; destruct Hfind as [Hin Hx].
  rewrite (Hall x Hin) in Hx; discriminate.
Qed.

(** The statement a successful [PlanRouterQuery] leaves, when the caller
    asks for a dummy placement. *)
Lemma PlanRouterQuery_planned : forall query ctx anchorShardId relationShardList,
    rq_planningError (PlanRouterQuery query ctx anchorShardId relationShardList true) = None ->
    rq_originalQuery (PlanRouterQuery query ctx anchorShardId relationShardList true)
    = (if negb (UpdateOrDeleteQuery query && RequiresMasterEvaluation query)
       then UpdateRelationToShardNames
              query
              (rq_relationShardList
                 (PlanRouterQuery query ctx anchorShardId relationShardList true))
       else query)
    /\ rq_placementList (PlanRouterQuery query ctx anchorShardId relationShardList true) <> [].
Proof.
  intros query ctx anchor rsl; unfold PlanRouterQuery.
  destruct (TargetShardIntervalsForRouter query _) as [[m lists] rs'].
  destruct m; [intros H; discriminate H|].
  destruct (PlanRouterQuery_shards lists false INVALID_SHARD_ID rsl) as [[sp sid] rsl'].
  destruct (RelationPrunesToMultipleShards rsl'); [intros H; discriminate H|].
  rewrite andb_false_r.
  destruct (if sp then _ else _) as [|x l] eqn:Hworkers; [intros H; discriminate H|].
  intros _; cbn. split; [reflexivity | discriminate].
Qed.

Lemma PlanRouterQuery_shards_all_pruned : forall lists shardsPresent shardId relationShardList,
    Forall (fun l => l = []) lists ->
    PlanRouterQuery_shards lists shardsPresent shardId relationShardList
    = (shardsPresent, shardId, relationShardList).
Proof.
  intros lists sp sid rsl H; induction H as [|l r Hl _ IH]; simpl; [reflexivity|].
  now rewrite Hl.
Qed.

(** Every relation pruned away: the planner takes the first active worker
    as a dummy placement. *)
Lemma PlanRouterQuery_all_pruned : forall query ctx anchorShardId workerNode workers,
    SortsByRelation ->
    (forall r, In r (relationRestrictionList ctx) -> RelationPrunedShardList r = []) ->
    ActivePrimaryNodeList = workerNode :: workers ->
    rq_planningError (PlanRouterQuery query ctx anchorShardId [] true) = None
    /\ rq_placementList (PlanRouterQuery query ctx anchorShardId [] true)
       = [DummyPlacement workerNode]
    /\ rq_relationShardList (PlanRouterQuery query ctx anchorShardId [] true) = []
    /\ rq_anchorShardId (PlanRouterQuery query ctx anchorShardId [] true) = INVALID_SHARD_ID.
Proof.
  intros query ctx anchor w ws Hsort Hall Hworkers; unfold PlanRouterQuery.
  assert (Hlists : Forall (fun l => l = [])
                          (map RelationPrunedShardList (relationRestrictionList ctx))).
  { rewrite Forall_map, Forall_forall. exact Hall. }
  pose proof (TargetShardIntervalsForRouter_spec query (relationRestrictionList ctx)) as Hspec.
  assert (Hex : existsb (fun l => 1 <? Z.of_nat (List.length l))
                        (map RelationPrunedShardList (relationRestrictionList ctx)) = false).
  { clear Hspec. induction Hlists as [|l r Hl _ IH]; simpl; [reflexivity|].
    now rewrite Hl, IH. }
  rewrite Hex in Hspec. rewrite Hspec.
  rewrite (PlanRouterQuery_shards_all_pruned false INVALID_SHARD_ID [] Hlists).
  assert (Hnil : RelationPrunesToMultipleShards [] = false).
  { unfold RelationPrunesToMultipleShards.
    destruct (Hsort []) as [Hperm _]. apply Permutation_nil in Hperm.
    now rewrite Hperm. }
  rewrite Hnil, Hworkers. cbn. auto.
Qed.
End RouterJobFacts.

(** C9 (as amended).  For a SELECT, being pruned to the subquery shape
    that returns no rows does not by itself empty the task list.  When
    planning fails the error is handed on.  When it succeeds a Job is
    returned, and its task list is empty exactly when the first range table
    entry with UPDATE or DELETE permission of the statement, as planning
    left it, has the subquery shape; otherwise the Job holds exactly one
    read task with the resolved placement list, which is not empty.  So a
    SELECT none of whose range table entries has UPDATE or DELETE
    permission always gets its one read task, also when every shard is
    pruned and every relation reference has been rewritten to the subquery
    shape: the task is then placed on the dummy placement of the first
    active worker.  A SELECT that holds an entry with such a permission (a
    sub-select FOR UPDATE) whose shards are all pruned gets no task, like an
    UPDATE or DELETE whose target has that shape. *)
Theorem RouterJob_select_builds_one_task :
  forall (E : Externals) (originalQuery : Query)
         (restrictionContext : RelationRestrictionContext),
    commandType originalQuery = CMD_SELECT ->
    let planned := PlanRouterQuery originalQuery restrictionContext INVALID_SHARD_ID [] true in
    let updateOrDeleteRTE := GetUpdateOrDeleteRTE (rtable (rq_originalQuery planned)) in
    (forall planningError,
        rq_planningError planned = Some planningError ->
        RouterJob originalQuery restrictionContext = Deferred planningError)
    /\ (rq_planningError planned = None ->
        exists job,
          RouterJob originalQuery restrictionContext = Ok job
          /\ ((exists rangeTableEntry,
                  updateOrDeleteRTE = Some rangeTableEntry
                  /\ rtekind rangeTableEntry = RTE_SUBQUERY) ->
              taskList job = [])
          /\ ((forall rangeTableEntry,
                  updateOrDeleteRTE = Some rangeTableEntry ->
                  rtekind rangeTableEntry <> RTE_SUBQUERY) ->
              exists task,
                taskList job = [task]
                /\ taskType task = ROUTER_TASK
                /\ taskPlacementList task = rq_placementList planned
                /\ rq_placementList planned <> []
                /\ anchorShardId task = rq_anchorShardId planned
                /\ relationShardList task = rq_relationShardList planned))
    /\ ((forall rangeTableEntry,
            In rangeTableEntry (rtable originalQuery) ->
            UpdateOrDeleteRTE rangeTableEntry = false) ->
        (rq_planningError planned = None ->
         exists job task,
           RouterJob originalQuery restrictionContext = Ok job
           /\ taskList job = [task]
           /\ taskType task = ROUTER_TASK
           /\ taskPlacementList task = rq_placementList planned
           /\ rq_placementList planned <> []
           /\ anchorShardId task = rq_anchorShardId planned
           /\ relationShardList task = rq_relationShardList planned)
        /\ (forall workerNode workers,
               SortsByRelation ->
               (forall r, In r (relationRestrictionList restrictionContext) ->
                          RelationPrunedShardList r = []) ->
               ActivePrimaryNodeList = workerNode :: workers ->
               exists job task,
                 RouterJob originalQuery restrictionContext = Ok job
                 /\ taskList job = [task]
                 /\ taskType task = ROUTER_TASK
                 /\ taskPlacementList task = [DummyPlacement workerNode]
                 /\ Forall (fun rangeTableEntry => rtekind rangeTableEntry <> RTE_RELATION)
                           (rtable (jobQuery job))))
    /\ (forall permitted workerNode workers,
           SortsByRelation ->
           (forall r, In r (relationRestrictionList restrictionContext) ->
                      RelationPrunedShardList r = []) ->
           ActivePrimaryNodeList = workerNode :: workers ->
           GetUpdateOrDeleteRTE (rtable originalQuery) = Some permitted ->
           rtekind permitted = RTE_RELATION \/ rtekind permitted = RTE_SUBQUERY ->
           rq_planningError planned = None
           /\ rq_placementList planned = [DummyPlacement workerNode]
           /\ exists job,
               RouterJob originalQuery restrictionContext = Ok job
               /\ taskList job = []).
Proof.
  intros E q ctx Hcmd planned updateOrDeleteRTE.
  assert (Hselect : UpdateOrDeleteQuery q = false)
    by (unfold UpdateOrDeleteQuery; now rewrite Hcmd).
  assert (Hrewritten : rq_planningError planned = None ->
                       rq_originalQuery planned
                       = UpdateRelationToShardNames q (rq_relationShardList planned)
                       /\ rq_placementList planned <> []).
  { intros Hnone.
    destruct (PlanRouterQuery_planned q ctx INVALID_SHARD_ID [] Hnone) as [Hquery Hplaced].
    fold planned in Hquery, Hplaced.
    rewrite Hselect in Hquery. cbn [andb negb] in Hquery. auto. }
  assert (Hgeneral :
            rq_planningError planned = None ->
            exists job,
              RouterJob q ctx = Ok job
              /\ jobQuery job = rq_originalQuery planned
              /\ ((exists rte, updateOrDeleteRTE = Some rte /\ rtekind rte = RTE_SUBQUERY) ->
                  taskList job = [])
              /\ ((forall rte, updateOrDeleteRTE = Some rte -> rtekind rte <> RTE_SUBQUERY) ->
                  exists task,
                    taskList job = [task]
                    /\ taskType task = ROUTER_TASK
                    /\ taskPlacementList task = rq_placementList planned
                    /\ rq_placementList planned <> []
                    /\ anchorShardId task = rq_anchorShardId planned
                    /\ relationShardList task = rq_relationShardList planned)).
  { intros Hnone. destruct (Hrewritten Hnone) as [Hquery Hplaced].
    assert (Hcommand : commandType (rq_originalQuery planned) = CMD_SELECT)
      by (rewrite Hquery; exact Hcmd).
    unfold RouterJob. fold planned. rewrite Hnone.
    unfold ExtractRangeTableEntryWalker. fold updateOrDeleteRTE.
    destruct updateOrDeleteRTE as [rte|] eqn:Hrte.
    - destruct (RTEKind_beq (rtekind rte) RTE_SUBQUERY) eqn:Hkind.
      + eexists. split; [reflexivity|]. split; [reflexivity|]. split; [reflexivity|].
        intros Hnot. exfalso. apply (Hnot rte eq_refl). now destruct (rtekind rte).
      + rewrite Hcommand. cbn [CmdType_beq bindO].
        eexists. split; [reflexivity|]. split; [reflexivity|]. split.
        * intros (r & [= <-] & Hr). rewrite Hr in Hkind. discriminate Hkind.
        * intros _. eexists. repeat split. exact Hplaced.
    - rewrite Hcommand. cbn [CmdType_beq bindO].
      eexists. split; [reflexivity|]. split; [reflexivity|]. split.
      + intros (r & Hr & _). discriminate Hr.
      + intros _. eexists. repeat split. exact Hplaced. }
  split; [|split; [|split]].
  - intros e He. unfold RouterJob. fold planned. now rewrite He.
  - intros Hnone. destruct (Hgeneral Hnone) as (job & Hjob & _ & Hempty & Hone).
    exists job. auto.
  - intros Hperms.
    assert (Hnoentry : rq_planningError planned = None -> updateOrDeleteRTE = None).
    { intros Hnone. destruct (Hrewritten Hnone) as [Hquery _].
      subst updateOrDeleteRTE. rewrite Hquery, GetUpdateOrDeleteRTE_rewritten.
      now rewrite (GetUpdateOrDeleteRTE_none (rtable q) Hperms). }
    assert (Hsuccess : rq_planningError planned = None ->
                       exists job task,
                         RouterJob q ctx = Ok job
                         /\ taskList job = [task]
                         /\ taskType task = ROUTER_TASK
                         /\ taskPlacementList task = rq_placementList planned
                         /\ rq_placementList planned <> []
                         /\ anchorShardId task = rq_anchorShardId planned
                         /\ relationShardList task = rq_relationShardList planned
                         /\ jobQuery job = rq_originalQuery planned).
    { intros Hnone. destruct (Hgeneral Hnone) as (job & Hjob & Hq & _ & Hone).
      destruct Hone as (task & Htask).
      - intros rte Hrte. rewrite (Hnoentry Hnone) in Hrte. discriminate Hrte.
      - exists job, task. tauto. }
    split.
    + intros Hnone. destruct (Hsuccess Hnone) as (job & task & H). exists job, task. tauto.
    + intros w ws Hsort Hall Hworkers.
      destruct (PlanRouterQuery_all_pruned q ctx INVALID_SHARD_ID Hsort Hall Hworkers)
        as (Hnone & Hplaced & Hshards & _).
      fold planned in Hnone, Hplaced, Hshards.
      destruct (Hsuccess Hnone)
        as (job & task & Hjob & Htasks & Htype & Hpl & _ & _ & _ & Hq).
      exists job, task. repeat split; auto; [congruence|].
      rewrite Hq. destruct (Hrewritten Hnone) as [Hquery _].
      rewrite Hquery, Hshards. cbn [UpdateRelationToShardNames rtable].
      rewrite Forall_map, Forall_forall. intros rte _.
      unfold UpdateRelationToShardNames_rte.
      destruct (rtekind rte) eqn:Hkind; cbn; congruence.
  - intros permitted w ws Hsort Hall Hworkers Hfound Hkind.
    destruct (PlanRouterQuery_all_pruned q ctx INVALID_SHARD_ID Hsort Hall Hworkers)
      as (Hnone & Hplaced & Hshards & _).
    fold planned in Hnone, Hplaced, Hshards.
    split; [exact Hnone|]. split; [exact Hplaced|].
    destruct (Hgeneral Hnone) as (job & Hjob & _ & Hempty & _).
    exists job. split; [exact Hjob|]. apply Hempty.
    destruct (Hrewritten Hnone) as [Hquery _].
    subst updateOrDeleteRTE. rewrite Hquery, Hshards, GetUpdateOrDeleteRTE_rewritten, Hfound.
    cbn [option_map]. eexists. split; [reflexivity|].
    unfold UpdateRelationToShardNames_rte.
    destruct Hkind as [Hk|Hk]; rewrite Hk; [reflexivity | exact Hk].
Qed.

Lemma RouterJob_select_builds_one_task_witness :
  commandType Example.self_join = CMD_SELECT
  /\ (forall rangeTableEntry,
         In rangeTableEntry (rtable Example.self_join) ->
         UpdateOrDeleteRTE rangeTableEntry = false)
  /\ (exists job task,
         RouterJob (E := Example.catalog) Example.self_join Example.self_join_context = Ok job
         /\ taskList job = [task]
         /\ taskType task = ROUTER_TASK
         /\ taskPlacementList task
            = [makeShardPlacement 1 102008 "worker-1" 5432 1;
               makeShardPlacement 2 102008 "worker-2" 5432 2]
         /\ anchorShardId task = 102008)
  /\ GetUpdateOrDeleteRTE (rtable Example.select_for_update_contradiction)
     = Some (Example.relation_entry Example.orders (Z.lor ACL_SELECT ACL_UPDATE))
  /\ exists job,
      RouterJob (E := Example.catalog) Example.select_for_update_contradiction
                (Example.contradiction_context (Z.lor ACL_SELECT ACL_UPDATE)) = Ok job
      /\ taskList job = [].
Proof.
  assert (Hperms : forall rangeTableEntry,
             In rangeTableEntry (rtable Example.self_join) ->
             UpdateOrDeleteRTE rangeTableEntry = false).
  { intros rte [<-|[<-|[]]]; reflexivity. }
  split; [reflexivity|]. split; [exact Hperms|]. split; [|split; [reflexivity|]].
  - destruct (@RouterJob_select_builds_one_task
                Example.catalog Example.self_join Example.self_join_context eq_refl)
      as (_ & _ & Hplain & _).
    destruct (Hplain Hperms) as [Hplanned _].
    destruct (Hplanned eq_refl)
      as (job & task & Hjob & Htasks & Htype & Hplaced & _ & Hanchor & _).
    exists job, task. repeat split; auto.
  - destruct (@RouterJob_select_builds_one_task
                Example.catalog Example.select_for_update_contradiction
                (Example.contradiction_context (Z.lor ACL_SELECT ACL_UPDATE)) eq_refl)
      as (_ & _ & _ & Hpermitted).
    destruct (Hpermitted
                (Example.relation_entry Example.orders (Z.lor ACL_SELECT ACL_UPDATE))
                Example.worker1 [Example.worker2])
      as (_ & _ & Hjob).
    + exact Example_SortsByRelation.
    + intros r [<-|[]]. reflexivity.
    + reflexivity.
    + reflexivity.
    + left; reflexivity.
    + exact Hjob.
Defined.

Lemma RouterJob_select_all_pruned_emits_task :
  RelationPrunedShardList (E := Example.catalog)
                          (Example.restriction Example.orders 1 ACL_SELECT
                             [Example.equals Example.customer_id 42;
                              Example.equals Example.customer_id 43]) = []
  /\ exists job task,
      RouterJob (E := Example.catalog) Example.select_contradiction
                (Example.contradiction_context ACL_SELECT) = Ok job
      /\ map rtekind (rtable (jobQuery job)) = [RTE_SUBQUERY]
      /\ taskList job = [task]
      /\ taskType task = ROUTER_TASK
      /\ taskPlacementList task = [makeShardPlacement 0 0 "worker-1" 5432 1].
Proof.
  split; [reflexivity|].
  eexists; eexists; split; [vm_compute; reflexivity|].
  repeat split.
Qed.

(** C8 (as amended).  For an UPDATE of a distributed table all of whose
    shards are pruned (the WHERE clause contradicts itself), with an active
    worker: planning succeeds with no relation-to-shard mapping and with the
    dummy placement of the first active worker as its only placement.  When
    the statement needs no evaluation on the coordinator, its target
    reference is rewritten to the subquery shape that returns no rows and
    the Job has an empty task list: no task is dispatched.  When it does need
    that evaluation, the rewriting is postponed and the Job holds one modify
    task with the dummy placement. *)
Theorem RouterJob_update_all_pruned :
  forall (E : Externals) (originalQuery : Query)
         (restrictionContext : RelationRestrictionContext)
         (updateRTE : RangeTblEntry) (workerNode : WorkerNode) (workers : list WorkerNode),
    commandType originalQuery = CMD_UPDATE ->
    SortsByRelation ->
    (forall r, In r (relationRestrictionList restrictionContext) ->
               RelationPrunedShardList r = []) ->
    ActivePrimaryNodeList = workerNode :: workers ->
    GetUpdateOrDeleteRTE (rtable originalQuery) = Some updateRTE ->
    rtekind updateRTE = RTE_RELATION ->
    let planned := PlanRouterQuery originalQuery restrictionContext INVALID_SHARD_ID [] true in
    rq_planningError planned = None
    /\ rq_placementList planned = [DummyPlacement workerNode]
    /\ rq_relationShardList planned = []
    /\ (RequiresMasterEvaluation originalQuery = false ->
        exists job,
          RouterJob originalQuery restrictionContext = Ok job
          /\ taskList job = []
          /\ GetUpdateOrDeleteRTE (rtable (jobQuery job))
             = Some (makeRangeTblEntry RTE_SUBQUERY (relid updateRTE) (relkind updateRTE)
                                       (requiredPerms updateRTE)))
    /\ (RequiresMasterEvaluation originalQuery = true ->
        Ascii.eqb (partitionMethod (DistributedTableCacheEntry (relid updateRTE)))
                  DISTRIBUTE_BY_NONE
        && SelectsFromDistributedTable (rtable originalQuery) = false ->
        exists job task,
          RouterJob originalQuery restrictionContext = Ok job
          /\ taskList job = [task]
          /\ taskType task = MODIFY_TASK
          /\ taskPlacementList task = [DummyPlacement workerNode]
          /\ jobQuery job = originalQuery).
Proof.
  intros E q ctx rte w ws Hcmd Hsort Hall Hworkers Hrte Hkind planned.
  destruct (PlanRouterQuery_all_pruned q ctx INVALID_SHARD_ID Hsort Hall Hworkers)
    as (Hnone & Hplaced & Hshards & Hanchor).
  fold planned in Hnone, Hplaced, Hshards, Hanchor.
  destruct (PlanRouterQuery_planned q ctx INVALID_SHARD_ID [] Hnone) as [Hquery _].
  fold planned in Hquery. rewrite Hshards in Hquery.
  assert (Hupdate : UpdateOrDeleteQuery q = true)
    by (unfold UpdateOrDeleteQuery; now rewrite Hcmd).
  rewrite Hupdate in Hquery. cbn [andb] in Hquery.
  repeat (split; [assumption|]). split.
  - intros Heval. rewrite Heval in Hquery. cbn [negb] in Hquery.
    unfold RouterJob. fold planned. rewrite Hnone, Hquery.
    set (rewritten := UpdateRelationToShardNames q []).
    assert (Hfind : GetUpdateOrDeleteRTE (rtable rewritten)
                    = Some (makeRangeTblEntry RTE_SUBQUERY (relid rte) (relkind rte)
                                              (requiredPerms rte))).
    { subst rewritten. rewrite GetUpdateOrDeleteRTE_rewritten, Hrte. cbn [option_map].
      unfold UpdateRelationToShardNames_rte. now rewrite Hkind. }
    clearbody rewritten.
    unfold ExtractRangeTableEntryWalker. rewrite Hfind. cbn.
    eexists; repeat split. exact Hfind.
  - intros Heval Hreference. rewrite Heval in Hquery. cbn [negb] in Hquery.
    unfold RouterJob. fold planned. rewrite Hnone, Hquery.
    unfold ExtractRangeTableEntryWalker. rewrite Hrte, Hkind, Hcmd, Hreference.
    cbn. do 2 eexists; repeat split. exact Hplaced.
Qed.

(** UPDATE orders SET total = 1 WHERE customer_id = 42 AND customer_id = 43:
    the dummy placement is taken and the Job has no task. *)
Lemma RouterJob_update_all_pruned_witness :
  commandType Example.update_contradiction = CMD_UPDATE
  /\ SortsByRelation (E := Example.catalog)
  /\ (forall r,
         In r (relationRestrictionList
                 (Example.contradiction_context (Z.lor ACL_SELECT ACL_UPDATE))) ->
         RelationPrunedShardList (E := Example.catalog) r = [])
  /\ GetUpdateOrDeleteRTE (rtable Example.update_contradiction)
     = Some (Example.relation_entry Example.orders (Z.lor ACL_SELECT ACL_UPDATE))
  /\ rq_placementList
       (PlanRouterQuery (E := Example.catalog) Example.update_contradiction
                        (Example.contradiction_context (Z.lor ACL_SELECT ACL_UPDATE))
                        0 [] true)
     = [makeShardPlacement 0 0 "worker-1" 5432 1]
  /\ exists job,
      RouterJob (E := Example.catalog) Example.update_contradiction
                (Example.contradiction_context (Z.lor ACL_SELECT ACL_UPDATE)) = Ok job
      /\ taskList job = [].
Proof.
  assert (Hall : forall r,
             In r (relationRestrictionList
                     (Example.contradiction_context (Z.lor ACL_SELECT ACL_UPDATE))) ->
             RelationPrunedShardList (E := Example.catalog) r = []).
  { intros r [<-|[]]; reflexivity. }
  split; [reflexivity|]. split; [exact Example_SortsByRelation|].
  split; [exact Hall|]. split; [reflexivity|].
  destruct (@RouterJob_update_all_pruned
              Example.catalog Example.update_contradiction
              (Example.contradiction_context (Z.lor ACL_SELECT ACL_UPDATE))
              (Example.relation_entry Example.orders (Z.lor ACL_SELECT ACL_UPDATE))
              Example.worker1 [Example.worker2]
              eq_refl Example_SortsByRelation Hall eq_refl eq_refl eq_refl)
    as (_ & Hplaced & _ & Hempty & _).
  split; [exact Hplaced|].
  destruct (Hempty eq_refl) as (job & Hjob & Htasks & _).
  exists job. split; assumption.
Defined.

(** C8, the claim as stated fails: for
    UPDATE orders SET total = 1 WHERE customer_id = 42 AND customer_id = 43
    the validator accepts the statement, all shards are pruned and the dummy
    placement is substituted, but the Job has no task at all. *)
Lemma RouterJob_update_contradiction_emits_no_task :
  ModifyQuerySupported (E := Example.catalog) Example.update_contradiction false = None
  /\ RelationPrunedShardList (E := Example.catalog)
                             (Example.restriction Example.orders 1 (Z.lor ACL_SELECT ACL_UPDATE)
                                [Example.equals Example.customer_id 42;
                                 Example.equals Example.customer_id 43]) = []
  /\ rq_placementList
       (PlanRouterQuery (E := Example.catalog) Example.update_contradiction
                        (Example.contradiction_context (Z.lor ACL_SELECT ACL_UPDATE))
                        0 [] true)
     = [makeShardPlacement 0 0 "worker-1" 5432 1]
  /\ exists job,
      RouterJob (E := Example.catalog) Example.update_contradiction
                (Example.contradiction_context (Z.lor ACL_SELECT ACL_UPDATE)) = Ok job
      /\ taskList job = []
      /\ CreateModifyPlan (E := Example.catalog) Example.update_contradiction
                          Example.update_contradiction
                          (Example.contradiction_context (Z.lor ACL_SELECT ACL_UPDATE))
         = Ok (makeMultiPlan CMD_UPDATE None (Some job) None true false).
Proof.
  split; [reflexivity|]. split; [reflexivity|]. split; [reflexivity|].
  eexists; split; [vm_compute; reflexivity|].
  split; reflexivity.
Qed.

(** ** The modification validator *)

Section ValidatorFacts.
Context {E : Externals}.

Lemma ModifyQuerySupported_targetList_inr :
  forall queryTree partitionColumn l spv hva hbc spv' hva' hbc',
    ModifyQuerySupported_targetList queryTree partitionColumn l spv hva hbc
    = inr (spv', hva', hbc') ->
    spv' = spv || existsb (SetsPartitionValue queryTree partitionColumn) l
    /\ (commandType queryTree = CMD_UPDATE ->
        forall targetEntry,
          In targetEntry l -> resjunk targetEntry = false ->
          contain_volatile_functions (Some (expr targetEntry)) = false).
Proof.
  intros q pc; induction l as [|te r IH]; intros spv hva hbc spv' hva' hbc' H.
  - cbn in H. injection H as <- _ _. split; [now rewrite orb_false_r | intros _ ? []].
  - cbn [ModifyQuerySupported_targetList] in H.
    cbn [existsb]. unfold SetsPartitionValue at 1.
    destruct (resjunk te) eqn:Hjunk.
    + apply IH in H; destruct H as [Hflag Hvol]. cbn [negb andb orb]. split; [exact Hflag|].
      intros Hcmd x [<-|Hx] Hxj; [congruence | now apply Hvol].
    + destruct (CmdType_beq (commandType q) CMD_UPDATE) eqn:Hupd.
      * cbn [andb negb] in *.
        destruct (contain_volatile_functions (Some (expr te))) eqn:Hv; [discriminate|].
        destruct (MasterIrreducibleExpression (Some (expr te)) hva hbc) as [[res hva1] hbc1].
        apply IH in H; destruct H as [Hflag Hvol]. split.
        -- rewrite Hflag. destruct pc as [column|].
           ++ destruct (IsPartitionColumnEntry (Some column) te
                        && TargetEntryChangesValue te column (jointree q));
                [now rewrite orb_true_r | reflexivity].
           ++ reflexivity.
        -- intros Hcmd x [<-|Hx] Hxj; [exact Hv | now apply Hvol].
      * cbn [andb negb] in *.
        assert (H' : ModifyQuerySupported_targetList q pc r spv hva hbc
                     = inr (spv', hva', hbc')).
        { destruct pc; exact H. }
        apply IH in H'; destruct H' as [Hflag Hvol]. split; [exact Hflag|].
        intros Hcmd. rewrite Hcmd in Hupd. discriminate.
Qed.

Lemma ModifyQuerySupported_onConflictSet_keeps : forall partitionColumn l spv,
    (forall column, partitionColumn = Some column ->
                    forall entry, In entry l -> resno entry <> varattno column) ->
    (exists e, ModifyQuerySupported_onConflictSet partitionColumn l spv = inl e)
    \/ ModifyQuerySupported_onConflictSet partitionColumn l spv = inr spv.
Proof.
  intros pc; induction l as [|x r IH]; intros spv Hother; [now right|].
  assert (Hr : forall column, pc = Some column ->
                              forall entry, In entry r -> resno entry <> varattno column)
    by (intros column Hc entry Hin; apply (Hother column Hc); now right).
  cbn [ModifyQuerySupported_onConflictSet].
  destruct pc as [column|].
  - destruct (Z.eqb_spec (resno x) (varattno column)) as [Heq|_].
    + exfalso. apply (Hother column eq_refl x); [now left | exact Heq].
    + destruct (expr x); try (destruct (contain_mutable_functions _); [left; eauto|]);
        apply IH; exact Hr.
  - destruct (expr x); try (destruct (contain_mutable_functions _); [left; eauto|]);
      apply IH; exact Hr.
Qed.
End ValidatorFacts.

Lemma walk_list_unit_true : forall (walker : Node -> unit -> bool * unit) (l : list Node),
    fst (walk_list walker l tt) = true <-> exists x, In x l /\ fst (walker x tt) = true.
Proof.
  intros walker; induction l as [|a r IH]; simpl.
  - split; [discriminate | intros (x & [] & _)].
  - destruct (walker a tt) as [found []] eqn:Ha. destruct found; simpl.
    + split; [intros _; exists a; rewrite Ha; auto | reflexivity].
    + rewrite IH; split.
      * intros (x & Hin & Hx); exists x; auto.
      * intros (x & [<-|Hin] & Hx); [rewrite Ha in Hx; discriminate | exists x; auto].
Qed.

Lemma walk_opt_unit_true : forall (walker : Node -> unit -> bool * unit) (o : option Node),
    fst (walk_opt walker o tt) = true <-> exists x, o = Some x /\ fst (walker x tt) = true.
Proof.
  intros walker [x|]; simpl; split.
  - intros H; exists x; auto.
  - intros (y & [= <-] & Hy); exact Hy.
  - discriminate.
  - intros (y & Hy & _); discriminate.
Qed.

Section ContainFunctionsFacts.
Context {E : Externals}.

Lemma contain_functions_walker_unfold : forall checker node,
    contain_functions_walker checker node tt
    = if fst (check_functions_in_node node (fun f c => (checker f, c)) tt)
      then (true, tt)
      else expression_tree_walker node (contain_functions_walker checker) tt.
Proof. intros checker []; reflexivity. Qed.

(** A tree that calls a function accepted by one checker calls a function
    accepted by any weaker checker. *)
Lemma contain_functions_walker_mono : forall (checker1 checker2 : Oid -> bool),
    (forall f, checker1 f = true -> checker2 f = true) ->
    forall node,
      fst (contain_functions_walker checker1 node tt) = true ->
      fst (contain_functions_walker checker2 node tt) = true.
Proof.
  intros c1 c2 Hc.
  assert (Hlist : forall l,
             Forall (fun n => fst (contain_functions_walker c1 n tt) = true ->
                              fst (contain_functions_walker c2 n tt) = true) l ->
             fst (walk_list (contain_functions_walker c1) l tt) = true ->
             fst (walk_list (contain_functions_walker c2) l tt) = true).
  { intros l Hall H. rewrite walk_list_unit_true in *.
    destruct H as (x & Hin & Hx). exists x; split; [exact Hin|].
    rewrite Forall_forall in Hall. now apply Hall. }
  assert (Hopt : forall o,
             OptForall (fun n => fst (contain_functions_walker c1 n tt) = true ->
                                 fst (contain_functions_walker c2 n tt) = true) o ->
             fst (walk_opt (contain_functions_walker c1) o tt) = true ->
             fst (walk_opt (contain_functions_walker c2) o tt) = true).
  { intros [x|] Hall H; simpl in *; auto. }
  induction node as [v|c|p|f args IH|o f args IH|args IH|args IH
                     |arg args d IHarg IHargs IHd|e r IHe IHr|l IH]
                      using Node_nested_ind;
    rewrite !contain_functions_walker_unfold; cbn [check_functions_in_node fst];
    try (cbn [expression_tree_walker]; now auto).
  - destruct (c1 f) eqn:H1; [now rewrite (Hc f H1)|].
    destruct (c2 f); [reflexivity|]. cbn [expression_tree_walker]. now apply Hlist.
  - destruct (c1 f) eqn:H1; [now rewrite (Hc f H1)|].
    destruct (c2 f); [reflexivity|]. cbn [expression_tree_walker]. now apply Hlist.
  - cbn [expression_tree_walker].
    destruct (walk_opt (contain_functions_walker c1) arg tt) as [f1 []] eqn:H1.
    destruct (walk_opt (contain_functions_walker c2) arg tt) as [g1 []] eqn:G1.
    destruct f1.
    + intros _. apply Hopt in IHarg; [|now rewrite H1].
      rewrite G1 in IHarg; cbn in IHarg; subst g1. reflexivity.
    + destruct g1; [reflexivity|].
      destruct (walk_list (contain_functions_walker c1) args tt) as [f2 []] eqn:H2.
      destruct (walk_list (contain_functions_walker c2) args tt) as [g2 []] eqn:G2.
      destruct f2.
      * intros _. apply Hlist in IHargs; [|now rewrite H2].
        rewrite G2 in IHargs; cbn in IHargs; subst g2. reflexivity.
      * destruct g2; [reflexivity|]. now apply Hopt.
  - cbn [expression_tree_walker].
    destruct (contain_functions_walker c1 e tt) as [f1 []] eqn:H1.
    destruct (contain_functions_walker c2 e tt) as [g1 []] eqn:G1.
    cbn [fst] in *. destruct f1.
    + intros _. rewrite (IHe eq_refl). reflexivity.
    + destruct g1; [reflexivity | exact IHr].
Qed.

Lemma volatile_is_mutable : forall clause,
    contain_volatile_functions clause = true -> contain_mutable_functions clause = true.
Proof.
  intros [node|]; [|discriminate]. unfold contain_volatile_functions, contain_mutable_functions.
  apply contain_functions_walker_mono. intros f.
  unfold contain_volatile_functions_checker, contain_mutable_functions_checker.
  intros H; apply Ascii.eqb_eq in H; rewrite H. reflexivity.
Qed.

Lemma contain_mutable_functions_in_list : forall (l : list TargetEntry) entry,
    In entry l ->
    contain_mutable_functions (Some (expr entry)) = true ->
    contain_mutable_functions (TargetListNode l) = true.
Proof.
  intros l entry Hin Hm. unfold TargetListNode.
  destruct l as [|x r] eqn:Hl; [destruct Hin|]. rewrite <- Hl in *.
  unfold contain_mutable_functions in *.
  rewrite contain_functions_walker_unfold. cbn [check_functions_in_node fst expression_tree_walker].
  apply walk_list_unit_true. exists (expr entry); split; [now apply in_map | exact Hm].
Qed.
End ContainFunctionsFacts.

Section ValidatorRules.
Context {E : Externals}.

Lemma ModifyQuerySupported_onConflictSet_volatile : forall partitionColumn l spv entry,
    NoDup (map resno l) ->
    In entry l ->
    contain_volatile_functions (Some (expr entry)) = true ->
    (exists e, ModifyQuerySupported_onConflictSet partitionColumn l spv = inl e)
    \/ ModifyQuerySupported_onConflictSet partitionColumn l spv = inr true.
Proof.
  intros pc; induction l as [|x r IH]; intros spv entry Hnodup Hin Hvol; [destruct Hin|].
  cbn [map] in Hnodup. apply NoDup_cons_iff in Hnodup; destruct Hnodup as [Hx Hr].
  destruct Hin as [->|Hin].
  - pose proof (volatile_is_mutable _ Hvol) as Hmut.
    cbn [ModifyQuerySupported_onConflictSet].
    destruct pc as [column|].
    + destruct (Z.eqb_spec (resno entry) (varattno column)) as [Heq|Hneq].
      * assert (Hflag : match expr entry with
                        | T_Var setVar => negb (varattno setVar =? varattno column)
                        | _ => true
                        end = true).
        { destruct (expr entry); try reflexivity. discriminate Hvol. }
        rewrite Hflag.
        apply ModifyQuerySupported_onConflictSet_keeps.
        intros column' [= <-] other Hother Heq'.
        apply Hx. rewrite Heq, <- Heq'. now apply in_map.
      * destruct (expr entry); try (discriminate Hvol); rewrite Hmut; left; eauto.
    + destruct (expr entry); try (discriminate Hvol); rewrite Hmut; left; eauto.
  - cbn [ModifyQuerySupported_onConflictSet].
    destruct pc as [column|].
    + destruct (resno x =? varattno column); [now apply (IH _ entry)|].
      destruct (expr x); try (destruct (contain_mutable_functions _); [left; eauto|]);
        now apply (IH _ entry).
    + destruct (expr x); try (destruct (contain_mutable_functions _); [left; eauto|]);
        now apply (IH _ entry).
Qed.

(** What holds when every rule before the last test lets the statement
    through. *)
Lemma ModifyQuerySupported_rules_inr : forall queryTree multiShardQuery flag,
    ModifyQuerySupported_rules queryTree multiShardQuery = inr flag ->
    let partitionColumn := PartitionColumn (ExtractFirstDistributedTableId queryTree) 1 in
    let conflict := ModifyQuerySupported_onConflict queryTree in
    exists spv,
      ModifyQuerySupported_onConflictSet partitionColumn (onConflictSet conflict) spv
      = inr flag
      /\ contain_mutable_functions (arbiterWhere conflict) = false
      /\ contain_mutable_functions (onConflictWhere conflict) = false
      /\ (In (commandType queryTree) [CMD_INSERT; CMD_UPDATE; CMD_DELETE] ->
          (exists hva hbc,
              ModifyQuerySupported_targetList queryTree partitionColumn
                                              (targetList queryTree) false false false
              = inr (spv, hva, hbc))
          /\ (forall joinTree, jointree queryTree = Some joinTree ->
                               contain_volatile_functions (quals joinTree) = false)
          /\ contain_mutable_functions (TargetListNode (returningList queryTree)) = false).
Proof.
  intros q ms flag H pc conflict.
  unfold ModifyQuerySupported_rules in H. fold pc conflict in H.
  unfold bindE, guard in H.
  destruct (hasSubLinks q && _); [discriminate|].
  destruct (match cteList q with [] => false | _ => true end); [discriminate|].
  destruct (ModifyQuerySupported_rangeTable _ _ _ _ _) as [e|[hasValuesScan queryTableCount]];
    [discriminate|].
  cbv beta iota in H.
  destruct (negb _ && negb (queryTableCount =? 1) && _); [discriminate|].
  destruct hasValuesScan; [discriminate|].
  cbv beta iota in H.
  assert (Hconflict : forall spv,
             match ModifyQuerySupported_onConflictSet pc (onConflictSet conflict) spv with
             | inl e => inl e
             | inr specifiesPartitionValue =>
                 match (if contain_mutable_functions (arbiterWhere conflict)
                           || contain_mutable_functions (onConflictWhere conflict)
                        then inl OnConflictWhereMutableError else inr tt) with
                 | inl e => inl e
                 | inr _ => inr specifiesPartitionValue
                 end
             end = inr flag ->
             ModifyQuerySupported_onConflictSet pc (onConflictSet conflict) spv = inr flag
             /\ contain_mutable_functions (arbiterWhere conflict) = false
             /\ contain_mutable_functions (onConflictWhere conflict) = false).
  { intros spv Hc.
    destruct (ModifyQuerySupported_onConflictSet pc (onConflictSet conflict) spv)
      as [e|flag']; [discriminate|].
    destruct (contain_mutable_functions (arbiterWhere conflict)
              || contain_mutable_functions (onConflictWhere conflict)) eqn:Harb;
      [discriminate|].
    apply orb_false_iff in Harb. injection Hc as <-. tauto. }
  destruct (CmdType_beq (commandType q) CMD_INSERT
            || CmdType_beq (commandType q) CMD_UPDATE
            || CmdType_beq (commandType q) CMD_DELETE) eqn:Hmod.
  - destruct (ModifyQuerySupported_targetList q pc (targetList q) false false false)
      as [e|[[spv hva] hbc]] eqn:Hloop; [discriminate|].
    cbv beta iota in H.
    assert (Hwhere : (forall joinTree, jointree q = Some joinTree ->
                                       contain_volatile_functions (quals joinTree) = false)
                     /\ contain_mutable_functions (TargetListNode (returningList q)) = false
                     /\ match ModifyQuerySupported_onConflictSet
                                pc (onConflictSet conflict) spv with
                        | inl e => inl e
                        | inr specifiesPartitionValue =>
                            match (if contain_mutable_functions (arbiterWhere conflict)
                                      || contain_mutable_functions (onConflictWhere conflict)
                                   then inl OnConflictWhereMutableError else inr tt) with
                            | inl e => inl e
                            | inr _ => inr specifiesPartitionValue
                            end
                        end = inr flag).
    { destruct (jointree q) as [joinTree|].
      - destruct (contain_volatile_functions (quals joinTree)) eqn:Hv; [discriminate|].
        destruct (MasterIrreducibleExpression (quals joinTree) hva hbc) as [[res hva1] hbc1].
        cbv beta iota in H.
        destruct hva1; [discriminate|]. destruct hbc1; [discriminate|].
        cbv beta iota in H.
        destruct (contain_mutable_functions (TargetListNode (returningList q)));
          [discriminate|].
        repeat split; [|exact H]. intros jt [= <-]; exact Hv.
      - cbv beta iota in H.
        destruct hva; [discriminate|]. destruct hbc; [discriminate|].
        cbv beta iota in H.
        destruct (contain_mutable_functions (TargetListNode (returningList q)));
          [discriminate|].
        repeat split; [|exact H]. intros jt Hjt; discriminate. }
    destruct Hwhere as (Hv & Hret & Hrest).
    apply Hconflict in Hrest. destruct Hrest as (Hc & Ha & Hf).
    exists spv. repeat split; eauto.
  - cbv beta iota in H. apply Hconflict in H. destruct H as (Hc & Ha & Hf).
    exists false. repeat split; auto;
      simpl in H; destruct H as [H|[H|[H|[]]]]; rewrite <- H in Hmod; discriminate.
Qed.
End ValidatorRules.

Section PartitionValueFacts.
Context {E : Externals}.

(** For an UPDATE that reaches the last test, [specifiesPartitionValue] says
    whether some entry of the SET list changes the partition value. *)
Lemma ModifyQuerySupported_rules_update_flag : forall queryTree multiShardQuery flag,
    commandType queryTree = CMD_UPDATE ->
    ModifyQuerySupported_rules queryTree multiShardQuery = inr flag ->
    flag = existsb (SetsPartitionValue
                      queryTree (PartitionColumn (ExtractFirstDistributedTableId queryTree) 1))
                   (targetList queryTree).
Proof.
  intros q ms flag Hcmd Hrules.
  apply ModifyQuerySupported_rules_inr in Hrules.
  destruct Hrules as (spv & Hconflict & _ & _ & Hmod).
  destruct Hmod as ((hva & hbc & Hloop) & _); [rewrite Hcmd; simpl; auto|].
  apply ModifyQuerySupported_targetList_inr in Hloop. destruct Hloop as [Hspv _].
  assert (Hnone : onConflictSet (ModifyQuerySupported_onConflict q) = []).
  { unfold ModifyQuerySupported_onConflict. rewrite Hcmd.
    destruct (onConflict q); reflexivity. }
  rewrite Hnone in Hconflict. cbn in Hconflict. injection Hconflict as <-.
  exact Hspv.
Qed.
End PartitionValueFacts.

(** C4.  An UPDATE whose SET list assigns the partition column a constant
    that the WHERE clause does not imply the column to equal is always
    rejected, and with the error "modifying the partition value of rows is
    not allowed" when the other rules of the validator are satisfied.  An
    UPDATE whose assignments to the partition column all assign the column
    itself, or a constant the WHERE clause implies it to equal, is accepted
    when the other rules of the validator are satisfied. *)
Theorem ModifyQuerySupported_partition_value :
  forall (E : Externals) (queryTree : Query) (multiShardQuery : bool) (column : Var),
    commandType queryTree = CMD_UPDATE ->
    PartitionColumn (ExtractFirstDistributedTableId queryTree) 1 = Some column ->
    (forall targetEntry newValue,
        In targetEntry (targetList queryTree) ->
        resjunk targetEntry = false ->
        resno targetEntry = varattno column ->
        expr targetEntry = T_Const newValue ->
        predicate_implied_by
          [SetRightConst (MakeOpExpression column BTEqualStrategyNumber) newValue]
          (WhereClauseList (jointree queryTree)) = false ->
        (exists planningError,
            ModifyQuerySupported queryTree multiShardQuery = Some planningError)
        /\ (OtherRulesSatisfied queryTree multiShardQuery ->
            ModifyQuerySupported queryTree multiShardQuery
            = Some PartitionValueModifiedError))
    /\ ((forall targetEntry,
            In targetEntry (targetList queryTree) ->
            resjunk targetEntry = false ->
            resno targetEntry = varattno column ->
            (exists sameColumn,
                expr targetEntry = T_Var sameColumn
                /\ varattno sameColumn = varattno column)
            \/ (exists newValue,
                   expr targetEntry = T_Const newValue
                   /\ predicate_implied_by
                        [SetRightConst (MakeOpExpression column BTEqualStrategyNumber)
                                       newValue]
                        (WhereClauseList (jointree queryTree)) = true)) ->
        OtherRulesSatisfied queryTree multiShardQuery ->
        ModifyQuerySupported queryTree multiShardQuery = None).
Proof.
  intros E q ms column Hcmd Hcolumn; split.
  - intros te newValue Hin Hjunk Hresno Hexpr Himplied.
    assert (Hsets : existsb (SetsPartitionValue
                               q (PartitionColumn (ExtractFirstDistributedTableId q) 1))
                            (targetList q) = true).
    { apply existsb_exists; exists te; split; [exact Hin|].
      unfold SetsPartitionValue, IsPartitionColumnEntry, TargetEntryChangesValue.
      rewrite Hcolumn, Hjunk, Hcmd, Hexpr, Himplied.
      rewrite (proj2 (Z.eqb_eq _ _) Hresno). reflexivity. }
    assert (Hflag : forall flag, ModifyQuerySupported_rules q ms = inr flag -> flag = true).
    { intros flag Hrules.
      rewrite (ModifyQuerySupported_rules_update_flag q ms Hcmd Hrules). exact Hsets. }
    unfold ModifyQuerySupported, OtherRulesSatisfied.
    destruct (ModifyQuerySupported_rules q ms) as [e|flag] eqn:Hrules.
    + split; [eauto | intros (f & Hf); discriminate].
    + rewrite (Hflag flag eq_refl). split; [eauto | reflexivity].
  - intros Hsame (flag & Hrules).
    unfold ModifyQuerySupported. rewrite Hrules.
    rewrite (ModifyQuerySupported_rules_update_flag q ms Hcmd Hrules).
    replace (existsb _ (targetList q)) with false; [reflexivity|].
    symmetry. apply not_true_is_false. intros Hex.
    apply existsb_exists in Hex. destruct Hex as (te & Hin & Hsets).
    unfold SetsPartitionValue, IsPartitionColumnEntry in Hsets. rewrite Hcolumn in Hsets.
    destruct (resjunk te) eqn:Hjunk; [discriminate|].
    destruct (Z.eqb_spec (resno te) (varattno column)) as [Hresno|_];
      [|rewrite andb_false_r in Hsets; discriminate].
    unfold TargetEntryChangesValue in Hsets.
    rewrite (proj2 (Z.eqb_eq _ _) Hresno) in Hsets.
    cbn [negb andb] in Hsets.
    destruct (Hsame te Hin Hjunk Hresno) as [(v & Hv & Hattno)|(c & Hc & Himplied)].
    + rewrite Hv, (proj2 (Z.eqb_eq _ _) Hattno), andb_false_r in Hsets. discriminate.
    + rewrite Hc, Himplied, andb_false_r in Hsets. discriminate.
Qed.

(** UPDATE orders SET customer_id = 999 WHERE customer_id = 42 is rejected;
    with 42, or with the column itself, on the right it is accepted. *)
Lemma ModifyQuerySupported_partition_value_witness :
  commandType (Example.update_customer_id (Example.literal 999)) = CMD_UPDATE
  /\ PartitionColumn (Externals := Example.catalog)
                     (ExtractFirstDistributedTableId
                        (E := Example.catalog)
                        (Example.update_customer_id (Example.literal 999))) 1
     = Some Example.customer_id
  /\ OtherRulesSatisfied (E := Example.catalog)
                         (Example.update_customer_id (Example.literal 999)) false
  /\ ModifyQuerySupported (E := Example.catalog)
                          (Example.update_customer_id (Example.literal 999)) false
     = Some PartitionValueModifiedError
  /\ ModifyQuerySupported (E := Example.catalog)
                          (Example.update_customer_id (Example.literal 42)) false
     = None
  /\ ModifyQuerySupported (E := Example.catalog)
                          (Example.update_customer_id (T_Var Example.customer_id)) false
     = None.
Proof.
  assert (Hother : forall setExpr,
             setExpr = Example.literal 999 \/ setExpr = Example.literal 42
             \/ setExpr = T_Var Example.customer_id ->
             OtherRulesSatisfied (E := Example.catalog)
                                 (Example.update_customer_id setExpr) false).
  { intros setExpr [->|[->| ->]]; eexists; vm_compute; reflexivity. }
  split; [reflexivity|]. split; [reflexivity|].
  split; [apply Hother; auto|].
  split; [|split].
  - destruct (@ModifyQuerySupported_partition_value
                Example.catalog (Example.update_customer_id (Example.literal 999)) false
                Example.customer_id eq_refl eq_refl) as [Hreject _].
    destruct (Hreject (makeTargetEntry (Example.literal 999) 1 false)
                      (makeConst 999 false true)
                      (or_introl eq_refl) eq_refl eq_refl eq_refl eq_refl) as [_ Hrejected].
    apply Hrejected, Hother; auto.
  - destruct (@ModifyQuerySupported_partition_value
                Example.catalog (Example.update_customer_id (Example.literal 42)) false
                Example.customer_id eq_refl eq_refl) as [_ Haccept].
    apply Haccept; [|apply Hother; auto].
    intros te [<-|[]] _ _. right. exists (makeConst 42 false true). split; reflexivity.
  - destruct (@ModifyQuerySupported_partition_value
                Example.catalog (Example.update_customer_id (T_Var Example.customer_id))
                false Example.customer_id eq_refl eq_refl) as [_ Haccept].
    apply Haccept; [|apply Hother; auto].
    intros te [<-|[]] _ _. left. exists Example.customer_id. split; reflexivity.
Defined.

(** * Further properties of the planner *)

(** ** The analyzer's answer and its flags *)

Section AnalyzerAnswerFacts.
Context {E : Externals}.

(** Whether a state has one of the two flags the validator reports. *)
Lemma raised_join_state : forall s d,
    varArgument (join_state s d) || badCoalesce (join_state s d)
    = (varArgument s || badCoalesce s) || (varArgument d || badCoalesce d).
Proof. intros [a b c] [a' b' c']; unfold join_state; simpl. destruct b, c, b', c'; reflexivity. Qed.

Lemma walk_list_answer : forall walker l,
    Forall (additive walker) l ->
    Forall (fun n => fst (walker n fresh_state)
                     = varArgument (snd (walker n fresh_state))
                       || badCoalesce (snd (walker n fresh_state))) l ->
    fst (walk_list walker l fresh_state)
    = varArgument (snd (walk_list walker l fresh_state))
      || badCoalesce (snd (walk_list walker l fresh_state)).
Proof.
  intros walker l Hadd Hans; induction l as [|x r IH]; [reflexivity|].
  inversion Hadd as [|? ? Hx Hr]; inversion Hans as [|? ? Ax Ar]; subst.
  simpl. destruct (walker x fresh_state) as [found d] eqn:Hw. cbn [fst snd] in Ax.
  destruct found; [exact Ax|].
  rewrite (walk_list_additive Hr d). cbn [fst snd].
  rewrite raised_join_state, <- Ax, (IH Hr Ar). reflexivity.
Qed.

Lemma walker_answer : forall n,
    fst (MasterIrreducibleExpressionWalker n fresh_state)
    = varArgument (snd (MasterIrreducibleExpressionWalker n fresh_state))
      || badCoalesce (snd (MasterIrreducibleExpressionWalker n fresh_state)).
Proof.
  assert (Hlist : forall l,
             Forall (fun n => fst (MasterIrreducibleExpressionWalker n fresh_state)
                              = varArgument (snd (MasterIrreducibleExpressionWalker
                                                    n fresh_state))
                                || badCoalesce (snd (MasterIrreducibleExpressionWalker
                                                       n fresh_state))) l ->
             fst (walk_list MasterIrreducibleExpressionWalker l fresh_state)
             = varArgument (snd (walk_list MasterIrreducibleExpressionWalker l fresh_state))
               || badCoalesce (snd (walk_list MasterIrreducibleExpressionWalker l
                                              fresh_state))).
  { intros l Hl. apply walk_list_answer; [|exact Hl].
    apply Forall_forall; intros x _; apply walker_additive. }
  assert (Hgeneric : forall n,
             fst (expression_tree_walker n MasterIrreducibleExpressionWalker fresh_state)
             = varArgument (snd (expression_tree_walker
                                   n MasterIrreducibleExpressionWalker fresh_state))
               || badCoalesce (snd (expression_tree_walker
                                      n MasterIrreducibleExpressionWalker fresh_state)) ->
             (let volatileFlag :=
                  snd (check_functions_in_node n MasterIrreducibleExpressionFunctionChecker
                                               zero) in
              let res :=
                  if Ascii.eqb volatileFlag PROVOLATILE_STABLE
                  then
                    let '(containsDisallowedFunction, childState) :=
                        expression_tree_walker n MasterIrreducibleExpressionWalker
                                               (makeWalkerState false false false) in
                    let varArgument1 :=
                        if containsVar childState then true else varArgument fresh_state in
                    (containsDisallowedFunction || containsVar childState,
                     makeWalkerState (containsVar fresh_state)
                                     (varArgument1 || varArgument childState)
                                     (badCoalesce fresh_state || badCoalesce childState))
                  else expression_tree_walker n MasterIrreducibleExpressionWalker fresh_state in
              fst res = varArgument (snd res) || badCoalesce (snd res))).
  { intros n Hn; cbv zeta. destruct (Ascii.eqb _ PROVOLATILE_STABLE); [|exact Hn].
    fold fresh_state.
    destruct (expression_tree_walker n MasterIrreducibleExpressionWalker fresh_state)
      as [found [cv va bc]]. cbn in *. subst found.
    destruct cv, va, bc; reflexivity. }
  induction n as [v|c|p|f args IH|o f args IH|args IH|args IH
                  |arg args d IHarg IHargs IHd|e r IHe IHr|l IH]
                   using Node_nested_ind;
    try (apply Hgeneric; cbn [expression_tree_walker]; auto; fail).
  - reflexivity.
  - cbn [MasterIrreducibleExpressionWalker].
    destruct (contain_mutable_functions _); reflexivity.
  - cbn [MasterIrreducibleExpressionWalker].
    destruct (contain_mutable_functions _); reflexivity.
  - apply Hgeneric. cbn [expression_tree_walker].
    destruct (MasterIrreducibleExpressionWalker e fresh_state) as [f1 d1] eqn:He.
    cbn [fst snd] in IHe. destruct f1; [exact IHe|].
    rewrite (walker_additive r d1). cbn [fst snd].
    rewrite raised_join_state, <- IHe, IHr. reflexivity.
Qed.

(** The answer and the flags of a top-level call. *)
Lemma MasterIrreducibleExpression_answer : forall expression v b,
    MasterIrreducibleExpression expression v b
    = (fst (fst (MasterIrreducibleExpression expression false false)),
       v || snd (fst (MasterIrreducibleExpression expression false false)),
       b || snd (MasterIrreducibleExpression expression false false))
    /\ fst (fst (MasterIrreducibleExpression expression false false))
       = snd (fst (MasterIrreducibleExpression expression false false))
         || snd (MasterIrreducibleExpression expression false false).
Proof.
  intros [e|] v b; unfold MasterIrreducibleExpression.
  - pose proof (walker_answer e) as Hans. unfold fresh_state in Hans.
    destruct (MasterIrreducibleExpressionWalker e (makeWalkerState false false false))
      as [res data]. cbn in *. auto.
  - cbn. now rewrite !orb_false_r.
Qed.
End AnalyzerAnswerFacts.

(** X1.  The assertion the validator makes after each call of the analyzer
    holds: when [MasterIrreducibleExpression] answers true, one of the
    caller's flags [varArgument], [badCoalesce] is set afterwards.
    Conversely, a call that answers false leaves both flags as they were: the
    answer is true exactly when the expression raises a flag. *)
Theorem MasterIrreducibleExpression_true_iff_flag :
  forall (E : Externals) (expression : option Node) (varArgument0 badCoalesce0 : bool),
    let analysed := MasterIrreducibleExpression expression varArgument0 badCoalesce0 in
    (fst (fst analysed) = true -> snd (fst analysed) || snd analysed = true)
    /\ (fst (fst analysed) = false ->
        snd (fst analysed) = varArgument0 /\ snd analysed = badCoalesce0)
    /\ (varArgument0 = false -> badCoalesce0 = false ->
        fst (fst analysed) = snd (fst analysed) || snd analysed).
Proof.
  intros E expression v b analysed. subst analysed.
  destruct (MasterIrreducibleExpression_answer expression v b) as [Heq Hans].
  rewrite Heq. cbn [fst snd].
  destruct (MasterIrreducibleExpression expression false false) as [[res dv] db].
  cbn [fst snd] in *. subst res.
  repeat split.
  - intros H. destruct v, b, dv, db; try reflexivity; discriminate.
  - destruct dv; [discriminate|]. now rewrite orb_false_r.
  - destruct dv, db; try discriminate. now rewrite orb_false_r.
  - intros -> ->. reflexivity.
Qed.

Section AnalyzerReducibleFacts.
Context {E : Externals}.

Lemma walk_list_answer_false : forall walker l,
    Forall (additive walker) l ->
    (forall x, In x l -> fst (walker x fresh_state) = false) ->
    fst (walk_list walker l fresh_state) = false.
Proof.
  intros walker l Hadd Hall; induction l as [|x r IH]; [reflexivity|].
  inversion Hadd as [|? ? Hx Hr]; subst.
  simpl. pose proof (Hall x (or_introl eq_refl)) as Hfx.
  destruct (walker x fresh_state) as [found d]. cbn [fst] in Hfx; subst found.
  rewrite (walk_list_additive Hr d). cbn [fst].
  apply IH; [exact Hr | intros y Hy; apply Hall; now right].
Qed.

Lemma walk_list_unit_false : forall (walker : Node -> unit -> bool * unit) (l : list Node),
    fst (walk_list walker l tt) = false ->
    forall x, In x l -> fst (walker x tt) = false.
Proof.
  intros walker l H x Hin. destruct (fst (walker x tt)) eqn:Hx; [|reflexivity].
  assert (Ht : fst (walk_list walker l tt) = true)
    by (apply walk_list_unit_true; exists x; auto).
  rewrite H in Ht; discriminate.
Qed.

Lemma immutable_function_flag : forall f,
    contain_mutable_functions_checker f = false ->
    snd (MasterIrreducibleExpressionFunctionChecker f zero) = PROVOLATILE_IMMUTABLE.
Proof.
  unfold contain_mutable_functions_checker, MasterIrreducibleExpressionFunctionChecker.
  intros f H. apply negb_false_iff, Ascii.eqb_eq in H. rewrite H. reflexivity.
Qed.

Lemma walker_no_mutable_function : forall n,
    fst (contain_functions_walker contain_mutable_functions_checker n tt) = false ->
    fst (MasterIrreducibleExpressionWalker n fresh_state) = false.
Proof.
  assert (Hlist : forall l,
             Forall (fun n => fst (contain_functions_walker
                                     contain_mutable_functions_checker n tt) = false ->
                              fst (MasterIrreducibleExpressionWalker n fresh_state) = false) l ->
             fst (walk_list (contain_functions_walker contain_mutable_functions_checker) l tt)
             = false ->
             fst (walk_list MasterIrreducibleExpressionWalker l fresh_state) = false).
  { intros l Hall H. apply walk_list_answer_false.
    - apply Forall_forall; intros x _; apply walker_additive.
    - intros x Hin. rewrite Forall_forall in Hall. apply (Hall x Hin).
      now apply (walk_list_unit_false _ _ H). }
  induction n as [v|c|p|f args IH|o f args IH|args IH|args IH
                  |arg args d IHarg IHargs IHd|e r IHe IHr|l IH]
                   using Node_nested_ind;
    rewrite contain_functions_walker_unfold; cbn [check_functions_in_node fst];
    intros Hno; try reflexivity.
  - destruct (contain_mutable_functions_checker f) eqn:Hf; [discriminate|].
    cbn [MasterIrreducibleExpressionWalker check_functions_in_node].
    rewrite (immutable_function_flag _ Hf).
    change (Ascii.eqb PROVOLATILE_IMMUTABLE PROVOLATILE_STABLE) with false. cbv iota.
    cbn [expression_tree_walker] in *. now apply Hlist.
  - destruct (contain_mutable_functions_checker f) eqn:Hf; [discriminate|].
    cbn [MasterIrreducibleExpressionWalker check_functions_in_node].
    rewrite (immutable_function_flag _ Hf).
    change (Ascii.eqb PROVOLATILE_IMMUTABLE PROVOLATILE_STABLE) with false. cbv iota.
    cbn [expression_tree_walker] in *. now apply Hlist.
  - cbn [MasterIrreducibleExpressionWalker check_functions_in_node snd].
    change (Ascii.eqb zero PROVOLATILE_STABLE) with false. cbv iota.
    cbn [expression_tree_walker] in *. now apply Hlist.
  - cbn [MasterIrreducibleExpressionWalker]. unfold contain_mutable_functions.
    rewrite contain_functions_walker_unfold. cbn [check_functions_in_node fst].
    cbn [expression_tree_walker] in *. now rewrite Hno.
  - cbn [MasterIrreducibleExpressionWalker]. unfold contain_mutable_functions.
    rewrite contain_functions_walker_unfold. cbn [check_functions_in_node fst].
    now rewrite Hno.
  - cbn [MasterIrreducibleExpressionWalker check_functions_in_node snd].
    change (Ascii.eqb zero PROVOLATILE_STABLE) with false. cbv iota.
    cbn [expression_tree_walker] in *.
    destruct (contain_functions_walker contain_mutable_functions_checker e tt)
      as [f1 []] eqn:He. cbn [fst] in IHe.
    destruct f1; [discriminate|]. specialize (IHe eq_refl). specialize (IHr Hno).
    destruct (MasterIrreducibleExpressionWalker e fresh_state) as [g1 d1] eqn:Hw.
    cbn [fst] in IHe; subst g1.
    rewrite (walker_additive r d1). exact IHr.
  - cbn [MasterIrreducibleExpressionWalker check_functions_in_node snd].
    change (Ascii.eqb zero PROVOLATILE_STABLE) with false. cbv iota.
    cbn [expression_tree_walker] in *. now apply Hlist.
Qed.

(** A column among the arguments is noticed unless the walk stops before
    it with a true answer. *)
Lemma walk_list_sees_var : forall l v,
    In (T_Var v) l ->
    fst (walk_list MasterIrreducibleExpressionWalker l fresh_state)
    || containsVar (snd (walk_list MasterIrreducibleExpressionWalker l fresh_state)) = true.
Proof.
  induction l as [|x r IH]; intros v Hin; [destruct Hin|].
  simpl. destruct (MasterIrreducibleExpressionWalker x fresh_state) as [found d] eqn:Hw.
  destruct found; [reflexivity|].
  rewrite (walk_list_additive (walker := MasterIrreducibleExpressionWalker) (l := r)) by
      (apply Forall_forall; intros y _; apply walker_additive).
  cbn [fst snd].
  destruct Hin as [->|Hin].
  - cbn in Hw. injection Hw as <-. unfold join_state; cbn.
    now rewrite orb_true_r.
  - specialize (IH v Hin).
    destruct (walk_list MasterIrreducibleExpressionWalker r fresh_state) as [f2 d2].
    cbn [fst snd] in *. destruct f2; [reflexivity|]. cbn in IH.
    unfold join_state; cbn. rewrite IH. now rewrite !orb_true_r.
Qed.

Lemma stable_function_flag : forall f,
    func_volatile f = PROVOLATILE_STABLE ->
    snd (MasterIrreducibleExpressionFunctionChecker f zero) = PROVOLATILE_STABLE.
Proof.
  unfold MasterIrreducibleExpressionFunctionChecker. intros f ->. reflexivity.
Qed.
End AnalyzerReducibleFacts.

(** X2.  An expression none of whose nodes calls a STABLE or VOLATILE
    function is reducible wherever columns appear in it: the analyzer
    answers false and leaves both flags as they were. *)
Theorem MasterIrreducibleExpression_immutable_reducible :
  forall (E : Externals) (expression : option Node) (varArgument0 badCoalesce0 : bool),
    contain_mutable_functions expression = false ->
    MasterIrreducibleExpression expression varArgument0 badCoalesce0
    = (false, varArgument0, badCoalesce0).
Proof.
  intros E expression v b Hno.
  destruct (MasterIrreducibleExpression_answer expression v b) as [Heq Hans].
  assert (Hres : fst (fst (MasterIrreducibleExpression expression false false)) = false).
  { destruct expression as [e|]; [|reflexivity].
    pose proof (walker_no_mutable_function e Hno) as Hw.
    unfold MasterIrreducibleExpression. unfold fresh_state in Hw.
    destruct (MasterIrreducibleExpressionWalker e (makeWalkerState false false false)).
    exact Hw. }
  rewrite Heq. rewrite Hres in *. symmetry in Hans. apply orb_false_iff in Hans.
  destruct Hans as [-> ->]. now rewrite !orb_false_r.
Qed.

Lemma MasterIrreducibleExpression_immutable_reducible_witness :
  contain_mutable_functions (E := Example.catalog)
    (Some (T_FuncExpr Example.abs_oid [T_Var Example.customer_id])) = false
  /\ MasterIrreducibleExpression (E := Example.catalog)
       (Some (T_FuncExpr Example.abs_oid [T_Var Example.customer_id])) false true
     = (false, false, true).
Proof.
  split; [reflexivity|].
  apply (@MasterIrreducibleExpression_immutable_reducible Example.catalog).
  reflexivity.
Defined.

(** X3.  A call of a STABLE function, or a use of an operator whose function
    is STABLE, that has a column directly among its arguments is
    irreducible: the analyzer answers true whatever the other arguments
    are. *)
Theorem MasterIrreducibleExpression_stable_with_column :
  forall (E : Externals) (f : Oid) (args : list Node) (column : Var)
         (varArgument0 badCoalesce0 : bool),
    func_volatile f = PROVOLATILE_STABLE ->
    In (T_Var column) args ->
    fst (fst (MasterIrreducibleExpression (Some (T_FuncExpr f args))
                                          varArgument0 badCoalesce0)) = true
    /\ forall opno,
        fst (fst (MasterIrreducibleExpression (Some (T_OpExpr opno f args))
                                              varArgument0 badCoalesce0)) = true.
Proof.
  intros E f args column v b Hstable Hin.
  pose proof (walk_list_sees_var args column Hin) as Hsees.
  unfold fresh_state in Hsees.
  split; [|intros opno];
    unfold MasterIrreducibleExpression;
    cbn [MasterIrreducibleExpressionWalker check_functions_in_node];
    rewrite (stable_function_flag _ Hstable);
    change (Ascii.eqb PROVOLATILE_STABLE PROVOLATILE_STABLE) with true; cbv iota;
    cbn [expression_tree_walker];
    destruct (walk_list MasterIrreducibleExpressionWalker args
                        (makeWalkerState false false false)) as [found child];
    cbn [fst snd] in *; exact Hsees.
Qed.

Lemma MasterIrreducibleExpression_stable_with_column_witness :
  func_volatile (Externals := Example.catalog) Example.now_oid = PROVOLATILE_STABLE
  /\ fst (fst (MasterIrreducibleExpression (E := Example.catalog)
                 (Some (T_FuncExpr Example.now_oid
                                   [Example.literal 1; T_Var Example.customer_id]))
                 false false)) = true.
Proof.
  split; [reflexivity|].
  apply (@MasterIrreducibleExpression_stable_with_column Example.catalog
           Example.now_oid [Example.literal 1; T_Var Example.customer_id]
           Example.customer_id false false); [reflexivity | right; left; reflexivity].
Defined.

(** ** What the validator accepts *)

Section ValidatorAcceptance.
Context {E : Externals}.

Lemma ModifyQuerySupported_rangeTable_inr :
  forall queryTree multiShardQuery l hasValuesScan count hasValuesScan' count',
    ModifyQuerySupported_rangeTable queryTree multiShardQuery l hasValuesScan count
    = inr (hasValuesScan', count') ->
    (hasValuesScan' = false ->
     hasValuesScan = false
     /\ forall rangeTableEntry, In rangeTableEntry l ->
                                rtekind rangeTableEntry <> RTE_VALUES)
    /\ uint32_wrap count' = uint32_wrap (count + RelationCount l)
    /\ (count' = count \/ count' = uint32_wrap count')
    /\ forall rangeTableEntry,
        In rangeTableEntry l ->
        match rtekind rangeTableEntry with
        | RTE_RELATION =>
            relkind rangeTableEntry <> RELKIND_VIEW
            /\ (partitionMethod (DistributedTableCacheEntry (relid rangeTableEntry))
                = DISTRIBUTE_BY_NONE -> IsCoordinator = true)
        | RTE_VALUES => True
        | _ => UpdateOrDeleteQuery queryTree = true /\ multiShardQuery = false
        end.
Proof.
  intros q ms; induction l as [|r rest IH]; intros hv c hv' c' H.
  - cbn in H. injection H as <- <-. unfold RelationCount; cbn. rewrite Z.add_0_r.
    split; [|split; [reflexivity|split; [now left|intros ? []]]].
    intros Hf; split; [exact Hf | intros ? []].
  - cbn [ModifyQuerySupported_rangeTable] in H.
    assert (Hskip : rtekind r <> RTE_RELATION -> rtekind r <> RTE_VALUES ->
                    (if UpdateOrDeleteQuery q && negb ms
                     then ModifyQuerySupported_rangeTable q ms rest hv c
                     else inl (RangeTableEntryError (rtekind r))) = inr (hv', c') ->
                    (hv' = false ->
                     hv = false
                     /\ forall x, In x (r :: rest) -> rtekind x <> RTE_VALUES)
                    /\ uint32_wrap c' = uint32_wrap (c + RelationCount (r :: rest))
                    /\ (c' = c \/ c' = uint32_wrap c')
                    /\ forall x,
                        In x (r :: rest) ->
                        match rtekind x with
                        | RTE_RELATION =>
                            relkind x <> RELKIND_VIEW
                            /\ (partitionMethod (DistributedTableCacheEntry (relid x))
                                = DISTRIBUTE_BY_NONE -> IsCoordinator = true)
                        | RTE_VALUES => True
                        | _ => UpdateOrDeleteQuery q = true /\ ms = false
                        end).
    { intros Hrel Hval Hk.
      destruct (UpdateOrDeleteQuery q && negb ms) eqn:Hsingle; [|discriminate].
      apply andb_true_iff in Hsingle; destruct Hsingle as [Hud Hms].
      apply negb_true_iff in Hms.
      apply IH in Hk; destruct Hk as (Hv & Hc & Hw & Hall).
      assert (Hcount : RelationCount (r :: rest) = RelationCount rest).
      { unfold RelationCount; cbn [filter].
        destruct (rtekind r); try reflexivity; congruence. }
      rewrite Hcount. split; [|split; [exact Hc|split; [exact Hw|]]].
      - intros Hf. destruct (Hv Hf) as [Hhv Hno]. split; [exact Hhv|].
        intros x [<-|Hx]; [exact Hval | now apply Hno].
      - intros x [<-|Hx]; [|now apply Hall].
        destruct (rtekind r); try congruence; auto. }
    destruct (rtekind r) eqn:Hkind;
      try (apply Hskip; [congruence | congruence | exact H]).
    + (* a relation *)
      destruct (Ascii.eqb (partitionMethod (DistributedTableCacheEntry (relid r)))
                          DISTRIBUTE_BY_NONE && negb IsCoordinator) eqn:Href;
        [discriminate|].
      destruct (Ascii.eqb (relkind r) RELKIND_VIEW) eqn:Hview; [discriminate|].
      apply IH in H; destruct H as (Hv & Hc & Hw & Hall).
      assert (Hcount : RelationCount (r :: rest) = 1 + RelationCount rest).
      { unfold RelationCount; cbn [filter]. rewrite Hkind.
        cbn [RTEKind_beq List.length]. lia. }
      rewrite Hcount. split; [|split; [|split]].
      * intros Hf. destruct (Hv Hf) as [Hhv Hno]. split; [exact Hhv|].
        intros x [<-|Hx]; [congruence | now apply Hno].
      * rewrite Hc. unfold uint32_wrap.
        rewrite Z.add_mod_idemp_l by (now compute).
        f_equal; lia.
      * right. destruct Hw as [->|Hw]; [|exact Hw].
        unfold uint32_wrap. now rewrite Z.mod_mod by (now compute).
      * intros x [<-|Hx]; [|now apply Hall].
        rewrite Hkind. split.
        -- intros Hv'. rewrite Hv' in Hview. discriminate.
        -- intros Hnone. rewrite Hnone in Href. cbn in Href.
           now apply negb_false_iff in Href.
    + (* a VALUES scan *)
      apply IH in H; destruct H as (Hv & Hc & Hw & Hall).
      assert (Hcount : RelationCount (r :: rest) = RelationCount rest).
      { unfold RelationCount; cbn [filter]. now rewrite Hkind. }
      rewrite Hcount. split; [|split; [exact Hc|split; [exact Hw|]]].
      * intros Hf. now destruct (Hv Hf).
      * intros x [<-|Hx]; [now rewrite Hkind | now apply Hall].
Qed.

(** The flags the loop over the target list hands on. *)
Lemma ModifyQuerySupported_targetList_flags :
  forall queryTree partitionColumn l spv hva hbc spv' hva' hbc',
    ModifyQuerySupported_targetList queryTree partitionColumn l spv hva hbc
    = inr (spv', hva', hbc') ->
    hva' = false -> hbc' = false ->
    hva = false /\ hbc = false
    /\ (commandType queryTree = CMD_UPDATE ->
        forall targetEntry,
          In targetEntry l -> resjunk targetEntry = false ->
          fst (fst (MasterIrreducibleExpression (Some (expr targetEntry)) false false))
          = false).
Proof.
  intros q pc; induction l as [|te r IH]; intros spv hva hbc spv' hva' hbc' H Ha Hb.
  - cbn in H. injection H as _ <- <-. repeat split; auto. intros _ ? [].
  - cbn [ModifyQuerySupported_targetList] in H.
    destruct (resjunk te) eqn:Hjunk.
    + destruct (IH _ _ _ _ _ _ H Ha Hb) as (Hva & Hbc & Hall).
      repeat split; auto.
      intros Hcmd x [<-|Hx] Hxj; [congruence | now apply Hall].
    + destruct (CmdType_beq (commandType q) CMD_UPDATE) eqn:Hupd.
      * cbn [andb] in H.
        destruct (contain_volatile_functions (Some (expr te))); [discriminate|].
        destruct (MasterIrreducibleExpression_answer (Some (expr te)) hva hbc)
          as [Heq Hans].
        rewrite Heq in H. cbv beta iota in H.
        destruct (IH _ _ _ _ _ _ H Ha Hb) as (Hva & Hbc & Hall).
        apply orb_false_iff in Hva, Hbc. destruct Hva as [Hva Hdv], Hbc as [Hbc Hdb].
        repeat split; auto.
        intros Hcmd x [<-|Hx] Hxj; [|now apply Hall].
        rewrite Hans, Hdv, Hdb. reflexivity.
      * cbn [andb] in H. cbv beta iota in H.
        destruct (IH _ _ _ _ _ _ H Ha Hb) as (Hva & Hbc & Hall).
        repeat split; auto.
        intros Hcmd. rewrite Hcmd in Hupd. discriminate.
Qed.

(** For a statement that is not an UPDATE the loop over the target list
    does nothing. *)
Lemma ModifyQuerySupported_targetList_not_update :
  forall queryTree partitionColumn l spv hva hbc,
    commandType queryTree <> CMD_UPDATE ->
    ModifyQuerySupported_targetList queryTree partitionColumn l spv hva hbc
    = inr (spv, hva, hbc).
Proof.
  intros q pc l spv hva hbc Hcmd.
  assert (Hupd : CmdType_beq (commandType q) CMD_UPDATE = false)
    by (destruct (commandType q); try reflexivity; congruence).
  induction l as [|te r IH]; [reflexivity|].
  cbn [ModifyQuerySupported_targetList]. rewrite Hupd. cbn [andb].
  destruct (resjunk te); [exact IH|]. cbv beta iota.
  destruct pc; exact IH.
Qed.

Lemma ModifyQuerySupported_rangeTable_command :
  forall queryTree queryTree' multiShardQuery l hasValuesScan count,
    commandType queryTree = commandType queryTree' ->
    ModifyQuerySupported_rangeTable queryTree multiShardQuery l hasValuesScan count
    = ModifyQuerySupported_rangeTable queryTree' multiShardQuery l hasValuesScan count.
Proof.
  intros q q' ms l; induction l as [|r rest IH]; intros hv c Hcmd; [reflexivity|].
  cbn [ModifyQuerySupported_rangeTable]. unfold UpdateOrDeleteQuery. rewrite Hcmd.
  rewrite !IH by exact Hcmd. reflexivity.
Qed.

(** What holds when every rule before the one on the partition value
    passes. *)
Lemma ModifyQuerySupported_rules_passes : forall queryTree multiShardQuery flag,
    ModifyQuerySupported_rules queryTree multiShardQuery = inr flag ->
    let partitionColumn := PartitionColumn (ExtractFirstDistributedTableId queryTree) 1 in
    hasSubLinks queryTree
    && (negb (UpdateOrDeleteQuery queryTree) || multiShardQuery) = false
    /\ cteList queryTree = []
    /\ (exists count,
           ModifyQuerySupported_rangeTable queryTree multiShardQuery
                                           (ExtractRangeTableEntryWalker queryTree) false 0
           = inr (false, count)
           /\ negb (CmdType_beq (commandType queryTree) CMD_INSERT) && negb (count =? 1)
              && (negb (UpdateOrDeleteQuery queryTree) || multiShardQuery) = false)
    /\ (In (commandType queryTree) [CMD_INSERT; CMD_UPDATE; CMD_DELETE] ->
        (exists spv,
            ModifyQuerySupported_targetList queryTree partitionColumn
                                            (targetList queryTree) false false false
            = inr (spv, false, false))
        /\ forall joinTree,
            jointree queryTree = Some joinTree ->
            contain_volatile_functions (quals joinTree) = false
            /\ fst (fst (MasterIrreducibleExpression (quals joinTree) false false)) = false).
Proof.
  intros q ms flag H pc.
  unfold ModifyQuerySupported_rules in H. fold pc in H.
  unfold bindE, guard in H.
  destruct (hasSubLinks q && _) eqn:Hsub; [discriminate|].
  destruct (cteList q) eqn:Hcte; [|discriminate].
  destruct (ModifyQuerySupported_rangeTable _ _ _ _ _)
    as [e|[hasValuesScan queryTableCount]] eqn:Hscan; [discriminate|].
  cbv beta iota in H.
  destruct (negb _ && negb (queryTableCount =? 1) && _) eqn:Hjoin; [discriminate|].
  destruct hasValuesScan; [discriminate|].
  cbv beta iota in H.
  split; [reflexivity|]. split; [reflexivity|].
  split; [exists queryTableCount; split; [reflexivity | exact Hjoin]|].
  intros Hmod.
  assert (Hm : CmdType_beq (commandType q) CMD_INSERT
               || CmdType_beq (commandType q) CMD_UPDATE
               || CmdType_beq (commandType q) CMD_DELETE = true).
  { destruct Hmod as [<-|[<-|[<-|[]]]]; reflexivity. }
  rewrite Hm in H.
  destruct (ModifyQuerySupported_targetList q pc (targetList q) false false false)
    as [e|[[spv hva] hbc]] eqn:Hloop; [discriminate|].
  cbv beta iota in H.
  destruct (jointree q) as [joinTree|] eqn:Hjt.
  - destruct (contain_volatile_functions (quals joinTree)) eqn:Hvol; [discriminate|].
    destruct (MasterIrreducibleExpression_answer (quals joinTree) hva hbc) as [Heq Hans].
    rewrite Heq in H. cbv beta iota in H.
    destruct (hva || _) eqn:Hva; [discriminate|].
    destruct (hbc || _) eqn:Hbc; [discriminate|].
    apply orb_false_iff in Hva, Hbc. destruct Hva as [-> Hdv], Hbc as [-> Hdb].
    split; [exists spv; reflexivity|].
    intros jt [= <-]. split; [exact Hvol|]. rewrite Hans, Hdv, Hdb. reflexivity.
  - destruct hva; [discriminate|]. destruct hbc; [discriminate|].
    split; [exists spv; reflexivity|]. intros jt [=].
Qed.

Lemma ModifyQuerySupported_accepts_rules : forall queryTree multiShardQuery,
    ModifyQuerySupported queryTree multiShardQuery = None ->
    ModifyQuerySupported_rules queryTree multiShardQuery = inr false.
Proof.
  unfold ModifyQuerySupported. intros q ms H.
  destruct (ModifyQuerySupported_rules q ms) as [e|[|]]; congruence.
Qed.
End ValidatorAcceptance.

(** X4.  A modification is never accepted when the analyzer finds the
    SET expression of an UPDATE (of an entry that is not resjunk) or the
    WHERE clause of an INSERT, UPDATE or DELETE irreducible: the flags the
    analyzer raises are tested after the WHERE clause has been looked at. *)
Theorem ModifyQuerySupported_rejects_irreducible :
  forall (E : Externals) (queryTree : Query) (multiShardQuery : bool),
    In (commandType queryTree) [CMD_INSERT; CMD_UPDATE; CMD_DELETE] ->
    (commandType queryTree = CMD_UPDATE
     /\ exists targetEntry,
         In targetEntry (targetList queryTree)
         /\ resjunk targetEntry = false
         /\ fst (fst (MasterIrreducibleExpression (Some (expr targetEntry)) false false))
            = true)
    \/ (exists joinTree,
           jointree queryTree = Some joinTree
           /\ fst (fst (MasterIrreducibleExpression (quals joinTree) false false)) = true) ->
    exists planningError,
      ModifyQuerySupported queryTree multiShardQuery = Some planningError.
Proof.
  intros E q ms Hmod Hirr.
  destruct (ModifyQuerySupported q ms) as [e|] eqn:Hq; [eauto|]. exfalso.
  apply ModifyQuerySupported_accepts_rules in Hq.
  apply ModifyQuerySupported_rules_passes in Hq.
  destruct Hq as (_ & _ & _ & Hrest).
  destruct (Hrest Hmod) as ((spv & Hloop) & Hwhere).
  destruct Hirr as [(Hcmd & te & Hin & Hjunk & Hte)|(jt & Hjt & Hq)].
  - destruct (ModifyQuerySupported_targetList_flags _ _ _ _ _ _ Hloop eq_refl eq_refl)
      as (_ & _ & Hall).
    rewrite (Hall Hcmd te Hin Hjunk) in Hte. discriminate.
  - destruct (Hwhere jt Hjt) as [_ Hred]. rewrite Hred in Hq. discriminate.
Qed.

Lemma ModifyQuerySupported_rejects_irreducible_witness :
  (exists targetEntry,
      In targetEntry
         (targetList (Example.update_total
                        (T_FuncExpr Example.now_oid [T_Var (makeVar 1 2)])
                        (Example.equals Example.customer_id 42)
                        (T_Var Example.customer_id)))
      /\ resjunk targetEntry = false
      /\ fst (fst (MasterIrreducibleExpression (E := Example.catalog)
                     (Some (expr targetEntry)) false false)) = true)
  /\ exists planningError,
      ModifyQuerySupported (E := Example.catalog)
        (Example.update_total (T_FuncExpr Example.now_oid [T_Var (makeVar 1 2)])
                              (Example.equals Example.customer_id 42)
                              (T_Var Example.customer_id))
        false = Some planningError.
Proof.
  assert (Hentry : exists targetEntry,
             In targetEntry
                (targetList (Example.update_total
                               (T_FuncExpr Example.now_oid [T_Var (makeVar 1 2)])
                               (Example.equals Example.customer_id 42)
                               (T_Var Example.customer_id)))
             /\ resjunk targetEntry = false
             /\ fst (fst (MasterIrreducibleExpression (E := Example.catalog)
                            (Some (expr targetEntry)) false false)) = true).
  { exists (makeTargetEntry (T_FuncExpr Example.now_oid [T_Var (makeVar 1 2)]) 2 false).
    split; [left; reflexivity | split; reflexivity]. }
  split; [exact Hentry|].
  apply (@ModifyQuerySupported_rejects_irreducible Example.catalog).
  - right; left; reflexivity.
  - left. split; [reflexivity | exact Hentry].
Defined.

(** X5.  What an accepted modification looks like.  When
    [ModifyQuerySupported] returns [NULL]: the statement has no common table
    expression; it has sublinks only if it is an UPDATE or DELETE validated
    as a single-shard one; no range table entry is a VALUES scan; no
    relation is a view; a reference table is among the relations only on the
    coordinator; an entry that is neither a relation nor a VALUES scan
    (subquery, join, function) is there only for a single-shard UPDATE or
    DELETE; and, INSERT and single-shard UPDATE or DELETE apart, the range
    table has exactly one relation (counted modulo 2^32). *)
Theorem ModifyQuerySupported_accepted_shape :
  forall (E : Externals) (queryTree : Query) (multiShardQuery : bool),
    ModifyQuerySupported queryTree multiShardQuery = None ->
    let singleShardUpdateOrDelete :=
        UpdateOrDeleteQuery queryTree && negb multiShardQuery in
    (hasSubLinks queryTree = true -> singleShardUpdateOrDelete = true)
    /\ cteList queryTree = []
    /\ (forall rangeTableEntry,
           In rangeTableEntry (ExtractRangeTableEntryWalker queryTree) ->
           match rtekind rangeTableEntry with
           | RTE_RELATION =>
               relkind rangeTableEntry <> RELKIND_VIEW
               /\ (partitionMethod (DistributedTableCacheEntry (relid rangeTableEntry))
                   = DISTRIBUTE_BY_NONE -> IsCoordinator = true)
           | RTE_VALUES => False
           | _ => singleShardUpdateOrDelete = true
           end)
    /\ (commandType queryTree <> CMD_INSERT ->
        singleShardUpdateOrDelete = false ->
        uint32_wrap (RelationCount (ExtractRangeTableEntryWalker queryTree)) = 1).
Proof.
  intros E q ms Hq single. subst single.
  apply ModifyQuerySupported_accepts_rules in Hq.
  apply ModifyQuerySupported_rules_passes in Hq.
  destruct Hq as (Hsub & Hcte & (count & Hscan & Hjoin) & _).
  apply ModifyQuerySupported_rangeTable_inr in Hscan.
  destruct Hscan as (Hvalues & Hcount & Hwrap & Hall).
  destruct (Hvalues eq_refl) as [_ Hno].
  split; [|split; [exact Hcte|split]].
  - intros Hlinks. rewrite Hlinks in Hsub. cbn [andb] in Hsub.
    destruct (UpdateOrDeleteQuery q), ms; cbn in *; congruence.
  - intros r Hin. specialize (Hall r Hin). specialize (Hno r Hin).
    destruct (rtekind r); try exact Hall; try congruence;
      destruct Hall as [-> ->]; reflexivity.
  - intros Hcmd Hsingle.
    assert (Hins : CmdType_beq (commandType q) CMD_INSERT = false)
      by (destruct (commandType q); try reflexivity; congruence).
    rewrite Hins in Hjoin. cbn [negb andb] in Hjoin.
    assert (Hone : count = 1).
    { destruct (Z.eqb_spec count 1) as [Hc|Hc]; [exact Hc|]. cbn [negb andb] in Hjoin.
      destruct (UpdateOrDeleteQuery q), ms; cbn in *; congruence. }
    rewrite Z.add_0_l in Hcount. rewrite <- Hcount, Hone. reflexivity.
Qed.

Lemma ModifyQuerySupported_accepted_shape_witness :
  ModifyQuerySupported (E := Example.catalog) Example.update_contradiction true = None
  /\ uint32_wrap (RelationCount (ExtractRangeTableEntryWalker Example.update_contradiction))
     = 1.
Proof.
  split; [reflexivity|].
  apply (@ModifyQuerySupported_accepted_shape Example.catalog
           Example.update_contradiction true eq_refl).
  - discriminate.
  - reflexivity.
Defined.

(** X6.  Only an UPDATE has its target list examined: for the other
    commands the verdict of the validator does not depend on the target
    list (so functions of any volatility are let through in the values of
    an INSERT). *)
Theorem ModifyQuerySupported_ignores_target_list :
  forall (E : Externals) (cmd : CmdType) (subLinks forUpdate : bool)
         (ctes : list CommonTableExpr) (rangeTable : list RangeTblEntry)
         (joinTree : option FromExpr) (targets targets' returning : list TargetEntry)
         (conflict : option OnConflictExpr) (multiShardQuery : bool),
    cmd <> CMD_UPDATE ->
    ModifyQuerySupported
      (makeQuery cmd subLinks forUpdate ctes rangeTable joinTree targets returning conflict)
      multiShardQuery
    = ModifyQuerySupported
        (makeQuery cmd subLinks forUpdate ctes rangeTable joinTree targets' returning conflict)
        multiShardQuery.
Proof.
  intros E cmd subLinks forUpdate ctes rangeTable joinTree targets targets' returning
         conflict ms Hcmd.
  unfold ModifyQuerySupported, ModifyQuerySupported_rules.
  rewrite !ModifyQuerySupported_targetList_not_update by exact Hcmd.
  rewrite (ModifyQuerySupported_rangeTable_command
             (makeQuery cmd subLinks forUpdate ctes rangeTable joinTree targets
                        returning conflict)
             (makeQuery cmd subLinks forUpdate ctes rangeTable joinTree targets'
                        returning conflict)) by reflexivity.
  reflexivity.
Qed.

Lemma ModifyQuerySupported_ignores_target_list_witness :
  ModifyQuerySupported (E := Example.catalog)
    (Example.insert_into Example.orders Example.call_random) false
  = ModifyQuerySupported (E := Example.catalog)
      (Example.insert_into Example.orders (Example.literal 42)) false.
Proof.
  unfold Example.insert_into.
  apply (@ModifyQuerySupported_ignores_target_list Example.catalog). discriminate.
Defined.



Lemma find_app_last : forall (A : Type) (p : A -> bool) (l : list A) (x : A),
    find p (l ++ [x]) = match find p l with
                        | Some y => Some y
                        | None => if p x then Some x else None
                        end.
Proof.
  intros A p l x; induction l as [|a r IH]; [reflexivity|].
  cbn [app find]. destruct (p a); [reflexivity | exact IH].
Qed.

Section UpsertFacts.
Context {E : Externals}.

(** The flag the loop over the SET list of ON CONFLICT ends with is decided
    by the last entry that assigns the partition column. *)
Lemma ModifyQuerySupported_onConflictSet_last : forall column l spv flag,
    ModifyQuerySupported_onConflictSet (Some column) l spv = inr flag ->
    flag = match LastAssignmentTo column l with
           | Some setTargetEntry => negb (SameColumn column (expr setTargetEntry))
           | None => spv
           end.
Proof.
  intros column; induction l as [|x r IH]; intros spv flag H.
  - cbn in H. now injection H as <-.
  - unfold LastAssignmentTo in *. cbn [rev]. rewrite find_app_last.
    cbn [ModifyQuerySupported_onConflictSet] in H.
    destruct (resno x =? varattno column) eqn:Hx.
    + apply IH in H. rewrite H.
      destruct (find _ (rev r)); [reflexivity|].
      unfold SameColumn. now destruct (expr x).
    + assert (Hr : ModifyQuerySupported_onConflictSet (Some column) r spv = inr flag).
      { destruct (expr x); try exact H;
          destruct (contain_mutable_functions _); (discriminate || exact H). }
      apply IH in Hr. rewrite Hr.
      destruct (find _ (rev r)); reflexivity.
Qed.
End UpsertFacts.

(** X8.  For an INSERT with ON CONFLICT DO UPDATE that satisfies the other
    rules of the validator, the verdict on the partition value is that of
    the last entry of the SET list that assigns the partition column: the
    statement is accepted when there is none or when that entry assigns the
    column itself, and rejected with "modifying the partition value of rows
    is not allowed" otherwise; earlier assignments to the column are
    overridden. *)
Theorem ModifyQuerySupported_upsert_last_assignment :
  forall (E : Externals) (queryTree : Query) (multiShardQuery : bool) (column : Var)
         (conflict : OnConflictExpr),
    commandType queryTree = CMD_INSERT ->
    onConflict queryTree = Some conflict ->
    PartitionColumn (ExtractFirstDistributedTableId queryTree) 1 = Some column ->
    OtherRulesSatisfied queryTree multiShardQuery ->
    ModifyQuerySupported queryTree multiShardQuery
    = match LastAssignmentTo column (onConflictSet conflict) with
      | Some setTargetEntry =>
          if SameColumn column (expr setTargetEntry) then None
          else Some PartitionValueModifiedError
      | None => None
      end.
Proof.
  intros E q ms column conflict Hcmd Hconflict Hcolumn (flag & Hrules).
  unfold ModifyQuerySupported. rewrite Hrules.
  apply ModifyQuerySupported_rules_inr in Hrules. cbv zeta in Hrules.
  destruct Hrules as (spv & Hset & _ & _ & Hmod).
  destruct Hmod as ((hva & hbc & Hloop) & _); [rewrite Hcmd; simpl; auto|].
  rewrite ModifyQuerySupported_targetList_not_update in Hloop by (rewrite Hcmd; discriminate).
  injection Hloop as <- _ _.
  unfold ModifyQuerySupported_onConflict in Hset. rewrite Hconflict, Hcmd in Hset.
  cbn [CmdType_beq] in Hset. rewrite Hcolumn in Hset.
  apply ModifyQuerySupported_onConflictSet_last in Hset. rewrite Hset.
  destruct (LastAssignmentTo column (onConflictSet conflict)); [|reflexivity].
  now destruct (SameColumn column (expr t)).
Qed.

Lemma ModifyQuerySupported_upsert_last_assignment_witness :
  OtherRulesSatisfied (E := Example.catalog)
    (Example.upsert (Example.literal 5) None None) false
  /\ ModifyQuerySupported (E := Example.catalog)
       (Example.upsert (Example.literal 5) None None) false
     = None.
Proof.
  assert (Hother : OtherRulesSatisfied (E := Example.catalog)
                     (Example.upsert (Example.literal 5) None None) false)
    by (exists false; reflexivity).
  split; [exact Hother|].
  exact (@ModifyQuerySupported_upsert_last_assignment
           Example.catalog (Example.upsert (Example.literal 5) None None) false
           Example.customer_id
           (makeOnConflictExpr
              [makeTargetEntry (T_Var Example.customer_id) 1 false;
               makeTargetEntry (Example.literal 5) 2 false] None None)
           eq_refl eq_refl eq_refl Hother).
Defined.

(** ** Planning an INSERT *)

Section InsertFacts.
Context {E : Externals}.

Lemma CanShardPrune_insert : forall distributedTableId query,
    commandType query = CMD_INSERT ->
    CanShardPrune distributedTableId query
    = match PartitionColumn distributedTableId 1 with
      | None => Ok true
      | Some partitionColumn =>
          match get_tle_by_resno (targetList query) (varattno partitionColumn) with
          | None => Fatal ERRCODE_NULL_VALUE_NOT_ALLOWED
                          "cannot perform an INSERT without a partition column value"
          | Some targetEntry =>
              match expr targetEntry with
              | T_Const _ => Ok true
              | _ => Ok false
              end
          end
      end.
Proof.
  intros id q Hcmd. unfold CanShardPrune, ExtractInsertPartitionValue. rewrite Hcmd.
  cbn [CmdType_beq negb]. destruct (PartitionColumn id 1) as [column|]; [|reflexivity].
  destruct (get_tle_by_resno (targetList q) (varattno column)); reflexivity.
Qed.

Lemma RouterInsertJob_not_prunable : forall originalQuery query,
    CanShardPrune (ExtractFirstDistributedTableId query) query = Ok false ->
    RouterInsertJob originalQuery query
    = Ok (makeJob INVALID_JOB_ID originalQuery [] false true true).
Proof. intros oq q H. unfold RouterInsertJob. rewrite H. reflexivity. Qed.

Lemma RouterInsertJob_prunable : forall originalQuery query,
    CanShardPrune (ExtractFirstDistributedTableId query) query = Ok true ->
    RouterInsertJob originalQuery query
    = taskList <- RouterInsertTaskList query ;;
      Ok (makeJob INVALID_JOB_ID originalQuery
                  (if RequiresMasterEvaluation originalQuery then taskList
                   else RebuildQueryStrings originalQuery taskList)
                  false (RequiresMasterEvaluation originalQuery) false).
Proof.
  intros oq q H. unfold RouterInsertJob. rewrite H. cbn [bindO negb].
  destruct (RouterInsertTaskList q) as [tasks| |]; try reflexivity.
  cbn [bindO]. destruct (RequiresMasterEvaluation oq); reflexivity.
Qed.
End InsertFacts.

(** X9.  The job [RouterInsertJob] gives back.  It is for the original
    query and has no job identifier yet.  Either pruning is deferred, and
    then the job has no task and requires master evaluation; or the job has
    exactly one task, made from a task of type MODIFY_TASK that is anchored
    at the shard [FindShardForInsert] found, is an upsert exactly when the
    statement has an ON CONFLICT clause, has the replication model of the
    table, and has no placement and no query string yet; the query strings
    are built by [RebuildQueryStrings] exactly when master evaluation is
    not required. *)
Theorem RouterInsertJob_job_shape :
  forall (E : Externals) (originalQuery query : Query) (job : Job),
    RouterInsertJob originalQuery query = Ok job ->
    let cacheEntry := DistributedTableCacheEntry (ExtractFirstDistributedTableId query) in
    jobQuery job = originalQuery
    /\ jobId job = INVALID_JOB_ID
    /\ subqueryPushdown job = false
    /\ ((deferredPruning job = true
         /\ requiresMasterEvaluation job = true
         /\ taskList job = [])
        \/ (deferredPruning job = false
            /\ requiresMasterEvaluation job = RequiresMasterEvaluation originalQuery
            /\ sortedShardIntervalArray cacheEntry <> []
            /\ exists shardInterval modifyTask,
                FindShardForInsert query cacheEntry = Ok shardInterval
                /\ taskType modifyTask = MODIFY_TASK
                /\ anchorShardId modifyTask = si_shardId shardInterval
                /\ upsertQuery modifyTask
                   = match onConflict query with Some _ => true | None => false end
                /\ task_replicationModel modifyTask = ce_replicationModel cacheEntry
                /\ taskPlacementList modifyTask = []
                /\ queryString modifyTask = None
                /\ taskList job
                   = if RequiresMasterEvaluation originalQuery then [modifyTask]
                     else RebuildQueryStrings originalQuery [modifyTask])).
Proof.
  intros E oq q job H cacheEntry.
  destruct (CanShardPrune (ExtractFirstDistributedTableId q) q) as [[|]| |] eqn:Hprune.
  - rewrite (RouterInsertJob_prunable _ _ Hprune) in H.
    unfold RouterInsertTaskList in H. fold cacheEntry in H.
    unfold ErrorIfNoShardsExist, shardIntervalArrayLength in H.
    destruct (sortedShardIntervalArray cacheEntry) as [|s0 others] eqn:Hshards;
      [discriminate|].
    cbn [List.length Z.of_nat bindO] in H.
    replace (Z.of_nat (S (List.length others)) =? 0) with false in H
      by (symmetry; apply Z.eqb_neq; lia).
    cbn [bindO] in H.
    destruct (FindShardForInsert q cacheEntry) as [shard| |] eqn:Hfind; try discriminate.
    cbn [bindO] in H. injection H as <-.
    cbn [jobQuery jobId subqueryPushdown deferredPruning requiresMasterEvaluation taskList].
    split; [reflexivity|]. split; [reflexivity|]. split; [reflexivity|].
    right. split; [reflexivity|]. split; [reflexivity|]. split; [discriminate|].
    exists shard. eexists. split; [reflexivity|].
    split; [|split; [|split; [|split; [|split; [|split; [|reflexivity]]]]]];
      cbn; reflexivity.
  - rewrite (RouterInsertJob_not_prunable _ _ Hprune) in H. injection H as <-.
    cbn. split; [reflexivity|]. split; [reflexivity|]. split; [reflexivity|].
    left. repeat split.
  - unfold RouterInsertJob in H. rewrite Hprune in H. discriminate.
  - unfold RouterInsertJob in H. rewrite Hprune in H. discriminate.
Qed.

Lemma RouterInsertJob_job_shape_witness :
  exists job,
    RouterInsertJob (E := Example.catalog)
      (Example.upsert (Example.literal 5) None None)
      (Example.upsert (Example.literal 5) None None) = Ok job
    /\ exists modifyTask,
        taskList job = [modifyTask]
        /\ anchorShardId modifyTask = 102008
        /\ upsertQuery modifyTask = true.
Proof.
  eexists. split; [reflexivity|].
  destruct (@RouterInsertJob_job_shape
              Example.catalog (Example.upsert (Example.literal 5) None None)
              (Example.upsert (Example.literal 5) None None) _ eq_refl)
    as (_ & _ & _ & [(Hdeferred & _)|(_ & _ & _ & shard & task & Hfind & _ & Hanchor
                                      & Hupsert & _ & _ & _ & Htasks)]).
  - discriminate Hdeferred.
  - exists task. split; [exact Htasks|]. split; [|exact Hupsert].
    rewrite Hanchor. injection Hfind as <-. reflexivity.
Defined.

(** X10.  The errors [RouterInsertJob] raises at once for an INSERT: when
    the target list has no entry for the partition column; when the
    statement can be pruned and the table has no shard; and when the
    partition column is given the NULL constant (in a table that is not a
    reference table and has shards). *)
Theorem RouterInsertJob_raises :
  forall (E : Externals) (originalQuery query : Query),
    commandType query = CMD_INSERT ->
    let distributedTableId := ExtractFirstDistributedTableId query in
    let cacheEntry := DistributedTableCacheEntry distributedTableId in
    (forall partitionColumn,
        PartitionColumn distributedTableId 1 = Some partitionColumn ->
        get_tle_by_resno (targetList query) (varattno partitionColumn) = None ->
        RouterInsertJob originalQuery query
        = Fatal ERRCODE_NULL_VALUE_NOT_ALLOWED
                "cannot perform an INSERT without a partition column value")
    /\ (CanShardPrune distributedTableId query = Ok true ->
        sortedShardIntervalArray cacheEntry = [] ->
        RouterInsertJob originalQuery query
        = Fatal ERRCODE_OBJECT_NOT_IN_PREREQUISITE_STATE "could not find any shards")
    /\ (forall partitionColumn targetEntry partitionValueConst,
           ce_relationId cacheEntry = distributedTableId ->
           partitionMethod cacheEntry <> DISTRIBUTE_BY_NONE ->
           sortedShardIntervalArray cacheEntry <> [] ->
           PartitionColumn distributedTableId 1 = Some partitionColumn ->
           get_tle_by_resno (targetList query) (varattno partitionColumn)
           = Some targetEntry ->
           expr targetEntry = T_Const partitionValueConst ->
           constisnull partitionValueConst = true ->
           RouterInsertJob originalQuery query
           = Fatal ERRCODE_NULL_VALUE_NOT_ALLOWED
                   "cannot perform an INSERT with NULL in the partition column").
Proof.
  intros E oq q Hcmd id cacheEntry. split; [|split].
  - intros column Hcolumn Hte. unfold RouterInsertJob. fold id.
    rewrite (CanShardPrune_insert _ _ Hcmd), Hcolumn, Hte. reflexivity.
  - intros Hprune Hshards. rewrite (RouterInsertJob_prunable _ _ Hprune).
    unfold RouterInsertTaskList, ErrorIfNoShardsExist, shardIntervalArrayLength.
    fold id cacheEntry. rewrite Hshards. reflexivity.
  - intros column te c Hrel Hmethod Hshards Hcolumn Hte Hexpr Hnull.
    assert (Hprune : CanShardPrune id q = Ok true)
      by (rewrite (CanShardPrune_insert _ _ Hcmd), Hcolumn, Hte, Hexpr; reflexivity).
    rewrite (RouterInsertJob_prunable _ _ Hprune).
    unfold RouterInsertTaskList, ErrorIfNoShardsExist, shardIntervalArrayLength.
    fold id cacheEntry.
    destruct (sortedShardIntervalArray cacheEntry) as [|s0 others] eqn:Harray;
      [now destruct Hshards|].
    replace (Z.of_nat (List.length (s0 :: others)) =? 0) with false
      by (symmetry; apply Z.eqb_neq; cbn [List.length]; lia).
    cbn [bindO]. unfold FindShardForInsert.
    replace (Ascii.eqb (partitionMethod cacheEntry) DISTRIBUTE_BY_NONE) with false
      by (symmetry; now apply Ascii.eqb_neq).
    rewrite Hrel, Hcolumn. unfold ExtractInsertPartitionValue. rewrite Hte. cbn [bindO].
    rewrite Hexpr, Hnull. reflexivity.
Qed.

Lemma RouterInsertJob_raises_witness :
  RouterInsertJob (E := Example.catalog)
    (Example.insert_into 400 (Example.literal 7))
    (Example.insert_into 400 (Example.literal 7))
  = Fatal ERRCODE_OBJECT_NOT_IN_PREREQUISITE_STATE "could not find any shards"
  /\ RouterInsertJob (E := Example.catalog)
       (Example.insert_into Example.orders (T_Const (makeConst 0 true true)))
       (Example.insert_into Example.orders (T_Const (makeConst 0 true true)))
     = Fatal ERRCODE_NULL_VALUE_NOT_ALLOWED
             "cannot perform an INSERT with NULL in the partition column".
Proof.
  split.
  - exact (proj1 (proj2 (@RouterInsertJob_raises
                           Example.catalog (Example.insert_into 400 (Example.literal 7))
                           (Example.insert_into 400 (Example.literal 7)) eq_refl))
                 eq_refl eq_refl).
  - refine (proj2 (proj2 (@RouterInsertJob_raises
                            Example.catalog
                            (Example.insert_into Example.orders
                                                 (T_Const (makeConst 0 true true)))
                            (Example.insert_into Example.orders
                                                 (T_Const (makeConst 0 true true)))
                            eq_refl))
                  Example.customer_id
                  (makeTargetEntry (T_Const (makeConst 0 true true)) 1 false)
                  (makeConst 0 true true) eq_refl _ _ eq_refl eq_refl eq_refl eq_refl);
      discriminate.
Defined.

(** X11.  The test of [FindShardForInsert] for a value of the partition
    column that is not a constant never fires when the function is reached
    from [RouterInsertJob] for an INSERT: [CanShardPrune] has sent such a
    statement down the deferred path before.  (The cache entry is the one
    of the table it is looked up for.) *)
Theorem RouterInsertJob_never_non_constant :
  forall (E : Externals) (originalQuery query : Query),
    commandType query = CMD_INSERT ->
    ce_relationId (DistributedTableCacheEntry (ExtractFirstDistributedTableId query))
    = ExtractFirstDistributedTableId query ->
    RouterInsertJob originalQuery query
    <> Fatal ERRCODE_NULL_VALUE_NOT_ALLOWED
             "cannot perform an INSERT with a non-constant in the partition column".
Proof.
  intros E oq q Hcmd Hrel.
  destruct (CanShardPrune (ExtractFirstDistributedTableId q) q) as [[|]| |] eqn:Hprune.
  - rewrite (RouterInsertJob_prunable _ _ Hprune).
    rewrite (CanShardPrune_insert _ _ Hcmd) in Hprune.
    unfold RouterInsertTaskList, ErrorIfNoShardsExist.
    destruct (shardIntervalArrayLength _ =? 0); [intros H; discriminate H|].
    cbn [bindO]. unfold FindShardForInsert. rewrite Hrel.
    destruct (Ascii.eqb _ DISTRIBUTE_BY_NONE).
    + destruct (sortedShardIntervalArray _) as [|s0 [|s1 others]];
        cbn; intros H; discriminate H.
    + destruct (PartitionColumn (ExtractFirstDistributedTableId q) 1) as [column|];
        [|intros H; discriminate H].
      unfold ExtractInsertPartitionValue.
      destruct (get_tle_by_resno (targetList q) (varattno column)) as [te|];
        [|discriminate Hprune].
      cbn [bindO].
      destruct (expr te) as [|c| | | | | | | |]; try discriminate Hprune.
      destruct (constisnull c); [intros H; discriminate H|].
      destruct (FindShardForInsert_prunedShardList _ column c) as [|s0 [|s1 others]];
        cbn; intros H; discriminate H.
  - rewrite (RouterInsertJob_not_prunable _ _ Hprune). intros H; discriminate H.
  - unfold RouterInsertJob. rewrite Hprune. intros H; discriminate H.
  - unfold RouterInsertJob. rewrite Hprune.
    rewrite (CanShardPrune_insert _ _ Hcmd) in Hprune.
    destruct (PartitionColumn (ExtractFirstDistributedTableId q) 1) as [column|];
      [|discriminate Hprune].
    destruct (get_tle_by_resno (targetList q) (varattno column)) as [te|].
    + destruct (expr te); discriminate Hprune.
    + injection Hprune as <- <-. intros H; discriminate H.
Qed.

Lemma RouterInsertJob_never_non_constant_witness :
  commandType (Example.insert_into Example.orders (T_FuncExpr Example.now_oid []))
  = CMD_INSERT
  /\ RouterInsertJob (E := Example.catalog)
       (Example.insert_into Example.orders (T_FuncExpr Example.now_oid []))
       (Example.insert_into Example.orders (T_FuncExpr Example.now_oid []))
     <> Fatal ERRCODE_NULL_VALUE_NOT_ALLOWED
              "cannot perform an INSERT with a non-constant in the partition column".
Proof.
  split; [reflexivity|].
  apply (@RouterInsertJob_never_non_constant Example.catalog); reflexivity.
Defined.

(** ** What [PlanRouterQuery] leaves behind *)

Section PlanRouterQueryFacts.
Context {E : Externals}.

Lemma PlanRouterQuery_shards_anchor : forall lists shardsPresent shardId relationShardList,
    snd (fst (PlanRouterQuery_shards lists shardsPresent shardId relationShardList))
    = if shardId =? INVALID_SHARD_ID then AnchorShardOf (TargetedShards lists) else shardId.
Proof.
  induction lists as [|l rest IH]; intros sp shardId rsl.
  - cbn. now destruct (shardId =? INVALID_SHARD_ID) eqn:Heq; [apply Z.eqb_eq in Heq|].
  - destruct l as [|s others]; cbn [PlanRouterQuery_shards TargetedShards]; [apply IH|].
    rewrite IH. unfold AnchorShardOf. cbn [find].
    destruct (shardId =? INVALID_SHARD_ID) eqn:Hid.
    + destruct (si_shardId s =? INVALID_SHARD_ID); reflexivity.
    + now rewrite Hid.
Qed.

Lemma existsb_multiple_false : forall (lists : list (list ShardInterval)),
    Forall (fun l => l = []) lists ->
    existsb (fun l => 1 <? Z.of_nat (List.length l)) lists = false.
Proof.
  intros lists H; induction H as [|l r Hl _ IH]; simpl; [reflexivity|]. now rewrite Hl, IH.
Qed.

Lemma TargetedShards_all_pruned : forall (lists : list (list ShardInterval)),
    Forall (fun l => l = []) lists -> TargetedShards lists = [].
Proof. intros lists H; induction H as [|l r Hl _ IH]; simpl; [reflexivity|]. now rewrite Hl. Qed.

(** Every way [PlanRouterQuery] ends, with what it leaves in each case. *)
Lemma PlanRouterQuery_cases :
  forall originalQuery restrictionContext anchorShardId relationShardList replace,
    let planned := PlanRouterQuery originalQuery restrictionContext anchorShardId
                                   relationShardList replace in
    let lists := map RelationPrunedShardList (relationRestrictionList restrictionContext) in
    let mappings := relationShardList ++ map RelationShardOf (TargetedShards lists) in
    (existsb (fun l => 1 <? Z.of_nat (List.length l)) lists = true
     /\ rq_planningError planned = Some (MultiShardQueryError originalQuery)
     /\ rq_originalQuery planned = originalQuery
     /\ rq_placementList planned = []
     /\ rq_anchorShardId planned = anchorShardId
     /\ rq_relationShardList planned = relationShardList)
    \/ (existsb (fun l => 1 <? Z.of_nat (List.length l)) lists = false
        /\ relationRestrictionList (rq_restrictionContext planned)
           = map RecordPrunedShards (relationRestrictionList restrictionContext)
        /\ rq_relationShardList planned = mappings
        /\ ((RelationPrunesToMultipleShards mappings = true
             /\ rq_planningError planned = Some SameRelationMultipleShardsError
             /\ rq_originalQuery planned = originalQuery
             /\ rq_placementList planned = []
             /\ rq_anchorShardId planned = anchorShardId)
            \/ (RelationPrunesToMultipleShards mappings = false
                /\ let workerList :=
                       match TargetedShards lists with
                       | [] => match ActivePrimaryNodeList with
                               | workerNode :: _ => [DummyPlacement workerNode]
                               | [] => []
                               end
                       | _ => WorkersContainingAllShards lists
                       end in
                   (TargetedShards lists = [] /\ replace = false
                    /\ rq_planningError planned = None
                    /\ rq_originalQuery planned = originalQuery
                    /\ rq_placementList planned = []
                    /\ rq_anchorShardId planned = anchorShardId)
                   \/ ((TargetedShards lists <> [] \/ replace = true)
                       /\ workerList = []
                       /\ rq_planningError planned = Some NoWorkerWithAllPlacementsError
                       /\ rq_originalQuery planned = originalQuery
                       /\ rq_placementList planned = []
                       /\ rq_anchorShardId planned = anchorShardId)
                   \/ ((TargetedShards lists <> [] \/ replace = true)
                       /\ workerList <> []
                       /\ rq_planningError planned = None
                       /\ rq_originalQuery planned = RoutedQuery originalQuery mappings
                       /\ rq_placementList planned = workerList
                       /\ rq_anchorShardId planned
                          = AnchorShardOf (TargetedShards lists))))).
Proof.
  intros q ctx anchor rsl replace planned lists mappings. subst planned.
  unfold PlanRouterQuery.
  pose proof (TargetShardIntervalsForRouter_spec q (relationRestrictionList ctx)) as Hspec.
  fold lists in Hspec.
  destruct (existsb _ lists) eqn:Hex.
  - left. destruct (TargetShardIntervalsForRouter q _) as [[m ls] rs'].
    simpl in Hspec; destruct Hspec as [-> ->]. cbn. repeat split.
  - right. rewrite Hspec.
    destruct (PlanRouterQuery_shards_spec lists false INVALID_SHARD_ID rsl) as [Hsp Hrsl].
    pose proof (PlanRouterQuery_shards_anchor lists false INVALID_SHARD_ID rsl) as Hanchor.
    rewrite Z.eqb_refl in Hanchor.
    destruct (PlanRouterQuery_shards lists false INVALID_SHARD_ID rsl) as [[sp sid] rsl'].
    cbn [fst snd] in Hsp, Hrsl, Hanchor. fold mappings in Hrsl. subst rsl' sid.
    cbn [orb] in Hsp.
    split; [reflexivity|].
    destruct (RelationPrunesToMultipleShards mappings) eqn:Hsame.
    + cbn. split; [reflexivity|]. split; [reflexivity|]. left. repeat split.
    + destruct (TargetedShards lists) as [|s0 more] eqn:Htargeted.
      * cbn in Hsp. subst sp. cbn [negb andb].
        destruct replace.
        -- cbn [negb]. destruct ActivePrimaryNodeList as [|w ws] eqn:Hworkers.
           ++ cbn. split; [reflexivity|]. split; [reflexivity|]. right.
              split; [reflexivity|]. right; left. repeat split. now right.
           ++ cbn. split; [reflexivity|]. split; [reflexivity|]. right.
              split; [reflexivity|]. right; right.
              split; [now right|]. split; [discriminate|]. repeat split.
        -- cbn. split; [reflexivity|]. split; [reflexivity|]. right.
           split; [reflexivity|]. left. repeat split.
      * cbn in Hsp. subst sp. cbn [negb andb].
        destruct (WorkersContainingAllShards lists) as [|p ps] eqn:Hworkers.
        -- cbn. split; [reflexivity|]. split; [reflexivity|]. right.
           split; [reflexivity|]. right; left.
           split; [left; discriminate|]. repeat split.
        -- cbn. split; [reflexivity|]. split; [reflexivity|]. right.
           split; [reflexivity|]. right; right.
           split; [left; discriminate|]. split; [discriminate|]. repeat split.
Qed.
End PlanRouterQueryFacts.

(** X12.  A query [PlanRouterQuery] cannot route is left as it was: when
    the function returns an error, the statement is not rewritten, no
    placement is given back and the anchor shard is not set.  The error is
    one of three: a relation prunes to several shards, two references to a
    relation prune to different shards, or no worker has all the shards. *)
Theorem PlanRouterQuery_error_frame :
  forall (E : Externals) (originalQuery : Query)
         (restrictionContext : RelationRestrictionContext)
         (anchorShardId : uint64) (relationShardList : list RelationShard)
         (replacePrunedQueryWithDummy : bool) (planningError : DeferredErrorMessage),
    let planned := PlanRouterQuery originalQuery restrictionContext anchorShardId
                                   relationShardList replacePrunedQueryWithDummy in
    rq_planningError planned = Some planningError ->
    rq_originalQuery planned = originalQuery
    /\ rq_placementList planned = []
    /\ rq_anchorShardId planned = anchorShardId
    /\ In planningError [MultiShardQueryError originalQuery;
                         SameRelationMultipleShardsError;
                         NoWorkerWithAllPlacementsError].
Proof.
  intros E q ctx anchor rsl replace e planned He.
  pose proof (PlanRouterQuery_cases q ctx anchor rsl replace) as Hcases.
  cbv zeta in Hcases. fold planned in Hcases.
  destruct Hcases
    as [(_ & Herr & Hq & Hp & Ha & _)
       |(_ & _ & _ & [(_ & Herr & Hq & Hp & Ha)
                     |(_ & [(_ & _ & Herr & _)
                           |[(_ & _ & Herr & Hq & Hp & Ha)
                            |(_ & _ & Herr & _)]])])];
    rewrite Herr in He; try discriminate He; injection He as <-;
      (split; [exact Hq|split; [exact Hp|split; [exact Ha|simpl; auto]]]).
Qed.

Lemma PlanRouterQuery_error_frame_witness :
  rq_planningError (PlanRouterQuery (E := Example.catalog) Example.orders_events_join
                                    Example.orders_events_context 7 [] true)
  = Some NoWorkerWithAllPlacementsError
  /\ rq_originalQuery (PlanRouterQuery (E := Example.catalog) Example.orders_events_join
                                       Example.orders_events_context 7 [] true)
     = Example.orders_events_join
  /\ rq_anchorShardId (PlanRouterQuery (E := Example.catalog) Example.orders_events_join
                                       Example.orders_events_context 7 [] true) = 7.
Proof.
  split; [reflexivity|].
  destruct (@PlanRouterQuery_error_frame
              Example.catalog Example.orders_events_join Example.orders_events_context
              7 [] true NoWorkerWithAllPlacementsError eq_refl) as (Hq & _ & Ha & _).
  split; [exact Hq | exact Ha].
Defined.

(** X13.  What [PlanRouterQuery] gives back when it returns no error.
    The mappings are those it was given followed by one per reference that
    kept a shard, in the order of the references; every restriction has its
    pruned shard list recorded.  When some reference kept a shard, the
    placements are those [WorkersContainingAllShards] found, there is at
    least one, and the anchor is the first shard (whose identifier is not
    [INVALID_SHARD_ID]).  When none did and a dummy is asked for, the one
    placement is on the first active worker and the anchor is
    [INVALID_SHARD_ID]; when no dummy is asked for, nothing is given back and
    the statement and the anchor stay as they were.  In the first two cases
    the statement has its relations rewritten, unless it is an UPDATE or
    DELETE that requires master evaluation. *)
Theorem PlanRouterQuery_success :
  forall (E : Externals) (originalQuery : Query)
         (restrictionContext : RelationRestrictionContext)
         (anchorShardId : uint64) (relationShardList : list RelationShard)
         (replacePrunedQueryWithDummy : bool),
    let planned := PlanRouterQuery originalQuery restrictionContext anchorShardId
                                   relationShardList replacePrunedQueryWithDummy in
    let lists := map RelationPrunedShardList (relationRestrictionList restrictionContext) in
    let mappings := relationShardList ++ map RelationShardOf (TargetedShards lists) in
    rq_planningError planned = None ->
    rq_relationShardList planned = mappings
    /\ relationRestrictionList (rq_restrictionContext planned)
       = map RecordPrunedShards (relationRestrictionList restrictionContext)
    /\ (TargetedShards lists <> [] ->
        rq_placementList planned = WorkersContainingAllShards lists
        /\ rq_placementList planned <> []
        /\ rq_anchorShardId planned = AnchorShardOf (TargetedShards lists)
        /\ rq_originalQuery planned = RoutedQuery originalQuery mappings)
    /\ (TargetedShards lists = [] ->
        if replacePrunedQueryWithDummy
        then exists workerNode workers,
            ActivePrimaryNodeList = workerNode :: workers
            /\ rq_placementList planned = [DummyPlacement workerNode]
            /\ rq_anchorShardId planned = INVALID_SHARD_ID
            /\ rq_originalQuery planned = RoutedQuery originalQuery mappings
        else rq_placementList planned = []
             /\ rq_anchorShardId planned = anchorShardId
             /\ rq_originalQuery planned = originalQuery).
Proof.
  intros E q ctx anchor rsl replace planned lists mappings Hok.
  pose proof (PlanRouterQuery_cases q ctx anchor rsl replace) as Hcases.
  cbv zeta in Hcases. fold planned lists mappings in Hcases.
  destruct Hcases
    as [(_ & Herr & _)
       |(_ & Hrec & Hmap & [(_ & Herr & _)
                           |(_ & [(Hnone & Hrep & _ & Hq & Hp & Ha)
                                 |[(_ & _ & Herr & _)
                                  |(Hsome & Hworkers & _ & Hq & Hp & Ha)]])])];
    try (rewrite Herr in Hok; discriminate Hok).
  - split; [exact Hmap|]. split; [exact Hrec|]. split.
    + intros Hne. now destruct Hne.
    + intros _. rewrite Hrep. auto.
  - split; [exact Hmap|]. split; [exact Hrec|]. split.
    + intros Hne. destruct (TargetedShards lists) as [|s0 more]; [now destruct Hne|].
      rewrite Hp. auto.
    + intros Hnone. rewrite Hnone in *.
      destruct Hsome as [Hne| ->]; [now destruct Hne|].
      destruct ActivePrimaryNodeList as [|w ws]; [now destruct Hworkers|].
      exists w, ws. rewrite Hp. auto.
Qed.

Lemma PlanRouterQuery_success_witness :
  rq_relationShardList (PlanRouterQuery (E := Example.catalog) Example.self_join
                                        Example.self_join_context 7 [] true)
  = [makeRelationShard Example.orders 102008; makeRelationShard Example.orders 102008]
  /\ rq_anchorShardId (PlanRouterQuery (E := Example.catalog) Example.self_join
                                       Example.self_join_context 7 [] true) = 102008.
Proof.
  destruct (@PlanRouterQuery_success Example.catalog Example.self_join
                                     Example.self_join_context 7 [] true eq_refl)
    as (Hmap & _ & Hsome & _).
  split; [exact Hmap|].
  destruct Hsome as (_ & _ & Ha & _); [discriminate | exact Ha].
Defined.

(** X14.  References that cannot keep a shard.  A reference whose join
    restrictions hold a false pseudo-constant clause, or whose table has no
    shard, is pruned to nothing without [PruneShards] being asked.  When
    every reference is such a one (and the mappings given do not clash):
    without a dummy the function returns no error and gives nothing back;
    with a dummy it fails with "found no worker with all shard placements"
    when there is no active worker, and otherwise gives back a placement on
    the first active worker. *)
Theorem PlanRouterQuery_no_shard_present :
  forall (E : Externals) (originalQuery : Query)
         (restrictionContext : RelationRestrictionContext)
         (anchorShardId : uint64) (relationShardList : list RelationShard)
         (replacePrunedQueryWithDummy : bool),
    (forall relationRestriction,
        In relationRestriction (relationRestrictionList restrictionContext) ->
        ContainsFalseClause
          (extract_actual_clauses (joininfo (relOptInfo relationRestriction)) true) = true
        \/ sortedShardIntervalArray
             (DistributedTableCacheEntry (rr_relationId relationRestriction)) = []) ->
    RelationPrunesToMultipleShards relationShardList = false ->
    let planned := PlanRouterQuery originalQuery restrictionContext anchorShardId
                                   relationShardList replacePrunedQueryWithDummy in
    rq_relationShardList planned = relationShardList
    /\ Forall (fun relationRestriction => prunedShardIntervalList relationRestriction = [])
              (relationRestrictionList (rq_restrictionContext planned))
    /\ match replacePrunedQueryWithDummy, ActivePrimaryNodeList with
       | false, _ =>
           rq_planningError planned = None
           /\ rq_placementList planned = []
           /\ rq_anchorShardId planned = anchorShardId
           /\ rq_originalQuery planned = originalQuery
       | true, [] =>
           rq_planningError planned = Some NoWorkerWithAllPlacementsError
       | true, workerNode :: _ =>
           rq_planningError planned = None
           /\ rq_placementList planned = [DummyPlacement workerNode]
           /\ rq_anchorShardId planned = INVALID_SHARD_ID
           /\ rq_originalQuery planned = RoutedQuery originalQuery relationShardList
       end.
Proof.
  intros E q ctx anchor rsl replace Hall Hclash planned.
  assert (Hpruned : forall r, In r (relationRestrictionList ctx) ->
                              RelationPrunedShardList r = []).
  { intros r Hin. unfold RelationPrunedShardList, shardIntervalArrayLength.
    destruct (Hall r Hin) as [-> | ->]; [reflexivity|]. cbn. now rewrite andb_false_r. }
  assert (Hlists : Forall (fun l => l = [])
                          (map RelationPrunedShardList (relationRestrictionList ctx))).
  { rewrite Forall_map, Forall_forall. exact Hpruned. }
  pose proof (TargetedShards_all_pruned Hlists) as Hnone.
  pose proof (existsb_multiple_false Hlists) as Hex.
  pose proof (PlanRouterQuery_cases q ctx anchor rsl replace) as Hcases.
  cbv zeta in Hcases. fold planned in Hcases.
  rewrite Hnone, Hex in Hcases. cbn [map] in Hcases. rewrite app_nil_r, Hclash in Hcases.
  assert (Hrecorded :
            relationRestrictionList (rq_restrictionContext planned)
            = map RecordPrunedShards (relationRestrictionList ctx) ->
            Forall (fun r => prunedShardIntervalList r = [])
                   (relationRestrictionList (rq_restrictionContext planned))).
  { intros ->. rewrite Forall_map, Forall_forall. intros r Hin.
    unfold RecordPrunedShards. cbn. now apply Hpruned. }
  destruct Hcases
    as [(Habs & _)
       |(_ & Hrec & Hmap & [(Habs & _)
                           |(_ & [(_ & Hrep & Herr & Hq & Hp & Ha)
                                 |[(Hsome & Hworkers & Herr & _)
                                  |(Hsome & Hworkers & Herr & Hq & Hp & Ha)]])])];
    try discriminate Habs;
    (split; [exact Hmap|]); (split; [exact (Hrecorded Hrec)|]).
  - rewrite Hrep. auto.
  - destruct Hsome as [Hne| ->]; [now destruct Hne|].
    destruct ActivePrimaryNodeList; [exact Herr | discriminate Hworkers].
  - destruct Hsome as [Hne| ->]; [now destruct Hne|].
    destruct ActivePrimaryNodeList as [|w ws]; [now destruct Hworkers|].
    rewrite Hp. auto.
Qed.

Lemma PlanRouterQuery_no_shard_present_witness :
  rq_planningError
    (PlanRouterQuery (E := Example.catalog) Example.select_contradiction
       (makeRelationRestrictionContext [Example.restriction 400 1 ACL_SELECT []])
       7 [] false) = None
  /\ rq_anchorShardId
       (PlanRouterQuery (E := Example.catalog) Example.select_contradiction
          (makeRelationRestrictionContext [Example.restriction 400 1 ACL_SELECT []])
          7 [] false) = 7.
Proof.
  destruct (@PlanRouterQuery_no_shard_present
              Example.catalog Example.select_contradiction
              (makeRelationRestrictionContext [Example.restriction 400 1 ACL_SELECT []])
              7 [] false) as (_ & _ & Herr & _ & Ha & _).
  - intros r [<-|[]]. right. reflexivity.
  - reflexivity.
  - split; [exact Herr | exact Ha].
Defined.

(** ** The job of a SELECT, UPDATE or DELETE *)

(** X15.  The job [RouterJob] gives back, for any command.  It holds the
    statement as [PlanRouterQuery] left it and has at most one task.  It has
    none exactly when the first range table entry with UPDATE or DELETE
    permission has the kind of a subquery; master evaluation is then not
    recorded in the job.  Otherwise the one task has the deparsed statement
    as query string, at least one placement, the anchor shard and the
    mappings of [PlanRouterQuery]; it is a ROUTER_TASK exactly for a SELECT,
    and a MODIFY_TASK otherwise, with the replication model of the table of
    that range table entry. *)
Theorem RouterJob_job_shape :
  forall (E : Externals) (originalQuery : Query)
         (restrictionContext : RelationRestrictionContext) (job : Job),
    RouterJob originalQuery restrictionContext = Ok job ->
    let planned := PlanRouterQuery originalQuery restrictionContext INVALID_SHARD_ID []
                                   true in
    let updateOrDeleteRTE := GetUpdateOrDeleteRTE (rtable (jobQuery job)) in
    rq_planningError planned = None
    /\ jobQuery job = rq_originalQuery planned
    /\ jobId job = INVALID_JOB_ID
    /\ deferredPruning job = false
    /\ ((taskList job = []
         /\ requiresMasterEvaluation job = false
         /\ exists rangeTableEntry,
             updateOrDeleteRTE = Some rangeTableEntry
             /\ rtekind rangeTableEntry = RTE_SUBQUERY)
        \/ (exists task,
               taskList job = [task]
               /\ requiresMasterEvaluation job = RequiresMasterEvaluation originalQuery
               /\ (forall rangeTableEntry,
                      updateOrDeleteRTE = Some rangeTableEntry ->
                      rtekind rangeTableEntry <> RTE_SUBQUERY)
               /\ queryString task = Some (pg_get_query_def (jobQuery job))
               /\ taskPlacementList task = rq_placementList planned
               /\ taskPlacementList task <> []
               /\ anchorShardId task = rq_anchorShardId planned
               /\ relationShardList task = rq_relationShardList planned
               /\ upsertQuery task = false
               /\ (commandType (jobQuery job) = CMD_SELECT -> taskType task = ROUTER_TASK)
               /\ (commandType (jobQuery job) <> CMD_SELECT ->
                   taskType task = MODIFY_TASK
                   /\ exists rangeTableEntry,
                       updateOrDeleteRTE = Some rangeTableEntry
                       /\ task_replicationModel task
                          = ce_replicationModel
                              (DistributedTableCacheEntry (relid rangeTableEntry))))).
Proof.
  intros E q ctx job Hjob planned updateOrDeleteRTE.
  unfold RouterJob in Hjob. fold planned in Hjob.
  destruct (rq_planningError planned) eqn:Herr; [discriminate Hjob|].
  destruct (PlanRouterQuery_planned q ctx INVALID_SHARD_ID [] Herr) as [_ Hplaced].
  fold planned in Hplaced.
  unfold ExtractRangeTableEntryWalker in Hjob.
  split; [reflexivity|].
  destruct (GetUpdateOrDeleteRTE (rtable (rq_originalQuery planned))) as [rte|] eqn:Hrte.
  - destruct (RTEKind_beq (rtekind rte) RTE_SUBQUERY) eqn:Hkind.
    + injection Hjob as <-. subst updateOrDeleteRTE. cbn.
      split; [reflexivity|]. split; [reflexivity|]. split; [reflexivity|]. left.
      split; [reflexivity|]. split; [reflexivity|].
      exists rte. split; [exact Hrte|]. now destruct (rtekind rte).
    + assert (Hnot : rtekind rte <> RTE_SUBQUERY)
        by (intros Hk; rewrite Hk in Hkind; discriminate Hkind).
      destruct (CmdType_beq (commandType (rq_originalQuery planned)) CMD_SELECT) eqn:Hcmd.
      * cbn [bindO] in Hjob. injection Hjob as <-. subst updateOrDeleteRTE. cbn.
        split; [reflexivity|]. split; [reflexivity|]. split; [reflexivity|]. right.
        eexists. split; [reflexivity|]. cbn.
        split; [reflexivity|]. split; [rewrite Hrte; intros r [= <-]; exact Hnot|].
        split; [reflexivity|]. split; [reflexivity|]. split; [exact Hplaced|].
        split; [reflexivity|]. split; [reflexivity|]. split; [reflexivity|].
        split; [reflexivity|].
        intros Hne. destruct (commandType (rq_originalQuery planned)); try discriminate Hcmd.
        now destruct Hne.
      * destruct (Ascii.eqb _ DISTRIBUTE_BY_NONE && SelectsFromDistributedTable _);
          [discriminate Hjob|].
        cbn [bindO] in Hjob. injection Hjob as <-. subst updateOrDeleteRTE. cbn.
        split; [reflexivity|]. split; [reflexivity|]. split; [reflexivity|]. right.
        eexists. split; [reflexivity|]. cbn.
        split; [reflexivity|]. split; [rewrite Hrte; intros r [= <-]; exact Hnot|].
        split; [reflexivity|]. split; [reflexivity|]. split; [exact Hplaced|].
        split; [reflexivity|]. split; [reflexivity|]. split; [reflexivity|].
        split; [intros Hsel; rewrite Hsel in Hcmd; discriminate Hcmd|].
        intros _. split; [reflexivity|]. exists rte. split; [exact Hrte | reflexivity].
  - destruct (CmdType_beq (commandType (rq_originalQuery planned)) CMD_SELECT) eqn:Hcmd;
      [|discriminate Hjob].
    cbn [bindO] in Hjob. injection Hjob as <-. subst updateOrDeleteRTE. cbn.
    split; [reflexivity|]. split; [reflexivity|]. split; [reflexivity|]. right.
    eexists. split; [reflexivity|]. cbn.
    split; [reflexivity|]. split; [rewrite Hrte; intros r [=]|].
    split; [reflexivity|]. split; [reflexivity|]. split; [exact Hplaced|].
    split; [reflexivity|]. split; [reflexivity|]. split; [reflexivity|].
    split; [reflexivity|].
    intros Hne. destruct (commandType (rq_originalQuery planned)); try discriminate Hcmd.
    now destruct Hne.
Qed.

Lemma RouterJob_job_shape_witness :
  exists job,
    RouterJob (E := Example.catalog) Example.self_join Example.self_join_context = Ok job
    /\ exists task,
        taskList job = [task]
        /\ taskType task = ROUTER_TASK
        /\ taskPlacementList task <> [].
Proof.
  eexists. split; [reflexivity|].
  destruct (@RouterJob_job_shape Example.catalog Example.self_join
                                 Example.self_join_context _ eq_refl)
    as (_ & _ & _ & _ & [(Hnone & _)|(task & Htasks & _ & _ & _ & _ & Hplaced & _ & _ & _
                                      & Hselect & _)]).
  - discriminate Hnone.
  - exists task. split; [exact Htasks|]. split; [exact (Hselect eq_refl) | exact Hplaced].
Defined.

(** X16.  [RouterJob] raises an error when the statement is not a SELECT,
    its first range table entry with UPDATE or DELETE permission is on a
    reference table, and some other entry reads from a table that is not a
    reference table: "cannot perform select on a distributed table and
    modify a reference table".  The test is made on the statement as
    [PlanRouterQuery] left it, after a plan with a placement was found. *)
Theorem RouterJob_reference_table_with_distributed_select :
  forall (E : Externals) (originalQuery : Query)
         (restrictionContext : RelationRestrictionContext)
         (modified selected : RangeTblEntry),
    let planned := PlanRouterQuery originalQuery restrictionContext INVALID_SHARD_ID []
                                   true in
    let rangeTableList := rtable (rq_originalQuery planned) in
    rq_planningError planned = None ->
    commandType (rq_originalQuery planned) <> CMD_SELECT ->
    GetUpdateOrDeleteRTE rangeTableList = Some modified ->
    rtekind modified <> RTE_SUBQUERY ->
    partitionMethod (DistributedTableCacheEntry (relid modified)) = DISTRIBUTE_BY_NONE ->
    In selected rangeTableList ->
    relid selected <> InvalidOid ->
    partitionMethod (DistributedTableCacheEntry (relid selected)) <> DISTRIBUTE_BY_NONE ->
    UpdateOrDeleteRTE selected = false ->
    RouterJob originalQuery restrictionContext
    = Fatal ERRCODE_FEATURE_NOT_SUPPORTED
            "cannot perform select on a distributed table and modify a reference table".
Proof.
  intros E q ctx modified selected planned rangeTableList
         Herr Hcmd Hrte Hkind Hreference Hin Hrelid Hmethod Hperms.
  unfold RouterJob. fold planned. rewrite Herr.
  unfold ExtractRangeTableEntryWalker. fold rangeTableList. rewrite Hrte.
  replace (RTEKind_beq (rtekind modified) RTE_SUBQUERY) with false
    by (destruct (rtekind modified); try reflexivity; now destruct Hkind).
  replace (CmdType_beq (commandType (rq_originalQuery planned)) CMD_SELECT) with false
    by (destruct (commandType (rq_originalQuery planned)); try reflexivity;
        now destruct Hcmd).
  rewrite Hreference.
  assert (Hselects : SelectsFromDistributedTable rangeTableList = true).
  { unfold SelectsFromDistributedTable. apply existsb_exists. exists selected.
    split; [exact Hin|].
    replace (relid selected =? InvalidOid) with false
      by (symmetry; now apply Z.eqb_neq).
    rewrite Hperms.
    replace (Ascii.eqb (partitionMethod (DistributedTableCacheEntry (relid selected)))
                       DISTRIBUTE_BY_NONE) with false
      by (symmetry; now apply Ascii.eqb_neq).
    reflexivity. }
  rewrite Hselects. reflexivity.
Qed.

Lemma RouterJob_reference_table_with_distributed_select_witness :
  rq_planningError
    (PlanRouterQuery (E := Example.catalog) Example.update_reference_from_orders
                     Example.reference_from_orders_context 0 [] true) = None
  /\ RouterJob (E := Example.catalog) Example.update_reference_from_orders
               Example.reference_from_orders_context
     = Fatal ERRCODE_FEATURE_NOT_SUPPORTED
             "cannot perform select on a distributed table and modify a reference table".
Proof.
  split; [reflexivity|].
  refine (@RouterJob_reference_table_with_distributed_select
            Example.catalog Example.update_reference_from_orders
            Example.reference_from_orders_context
            (Example.relation_entry Example.countries (Z.lor ACL_SELECT ACL_UPDATE))
            (Example.relation_entry Example.orders ACL_SELECT)
            eq_refl _ eq_refl _ eq_refl _ _ _ eq_refl);
    try discriminate.
  right; left; reflexivity.
Defined.

(** ** The plans *)

(** X17.  The plan of a modification.  [CreateModifyPlan] raises no error
    of its own: it returns a plan unless the job builder raises.  When the
    validator rejects the statement, the plan carries the validator's error
    and no job is built (so no error of the job builder can be raised).
    Otherwise the job comes from [RouterJob] for an UPDATE or DELETE and
    from [RouterInsertJob] for any other command.  A plan has either an
    error or a job, never both and never neither; it is router executable
    exactly when it has a job, and only then can it have the returning
    flag, which says whether the original statement has a RETURNING
    list. *)
Theorem CreateModifyPlan_plan_shape :
  forall (E : Externals) (originalQuery query : Query)
         (restrictionContext : RelationRestrictionContext),
    let built := if UpdateOrDeleteQuery query
                 then RouterJob originalQuery restrictionContext
                 else RouterInsertJob originalQuery query in
    (forall planningError,
        ModifyQuerySupported query false = Some planningError ->
        CreateModifyPlan originalQuery query restrictionContext
        = Ok (makeMultiPlan (commandType query) (Some planningError) None None false false))
    /\ (forall errcode errmsg,
           CreateModifyPlan originalQuery query restrictionContext = Fatal errcode errmsg ->
           ModifyQuerySupported query false = None /\ built = Fatal errcode errmsg)
    /\ (forall planningError,
           CreateModifyPlan originalQuery query restrictionContext
           <> Deferred planningError)
    /\ (forall plan,
           CreateModifyPlan originalQuery query restrictionContext = Ok plan ->
           operation plan = commandType query
           /\ masterQuery plan = None
           /\ ((exists reason,
                   planningError plan = Some reason
                   /\ workerJob plan = None
                   /\ routerExecutable plan = false
                   /\ hasReturning plan = false
                   /\ (ModifyQuerySupported query false = Some reason
                       \/ (ModifyQuerySupported query false = None
                           /\ built = Deferred reason)))
               \/ (exists job,
                      planningError plan = None
                      /\ workerJob plan = Some job
                      /\ routerExecutable plan = true
                      /\ hasReturning plan = negb (is_nil (returningList originalQuery))
                      /\ ModifyQuerySupported query false = None
                      /\ built = Ok job))).
Proof.
  intros E oq q ctx built. unfold CreateModifyPlan. fold built.
  destruct (ModifyQuerySupported q false) as [e|] eqn:Hvalid.
  - split; [intros e' [= <-]; reflexivity|].
    split; [intros c m H; discriminate H|].
    split; [intros e' H; discriminate H|].
    intros plan [= <-]. cbn. split; [reflexivity|]. split; [reflexivity|].
    left. exists e. repeat split. now left.
  - split; [intros e' H; discriminate H|].
    destruct built as [job|e|c m] eqn:Hbuilt.
    + split; [intros c m H; discriminate H|].
      split; [intros e' H; discriminate H|].
      intros plan [= <-]. cbn. split; [reflexivity|]. split; [reflexivity|].
      right. exists job. repeat split.
    + split; [intros c m H; discriminate H|].
      split; [intros e' H; discriminate H|].
      intros plan [= <-]. cbn. split; [reflexivity|]. split; [reflexivity|].
      left. exists e. repeat split. now right.
    + split; [intros c' m' [= <- <-]; split; reflexivity|].
      split; [intros e' H; discriminate H|].
      intros plan H; discriminate H.
Qed.

(** X18.  The plan of a SELECT.  [CreateRouterPlan] gives no plan ([NULL])
    exactly when the query is not router plannable, or has no
    data-modifying common table expression and [RouterJob] returns a
    deferred error, which is dropped.  A data-modifying common table
    expression (looked for in the query the planner has rewritten, while the
    job is built from the original one) gives a plan that carries the error
    and no job.  Otherwise the plan has the job of [RouterJob], no error, is
    router executable and has no returning flag. *)
Theorem CreateRouterPlan_plan_shape :
  forall (E : Externals) (originalQuery query : Query)
         (restrictionContext : RelationRestrictionContext),
    let modifyingCte :=
        existsb (fun cte => negb (CmdType_beq (ctequery_commandType cte) CMD_SELECT))
                (cteList query) in
    (CreateRouterPlan originalQuery query restrictionContext = Ok None <->
     MultiRouterPlannableQuery query restrictionContext = false
     \/ (modifyingCte = false
         /\ exists planningError,
             RouterJob originalQuery restrictionContext = Deferred planningError))
    /\ (forall plan,
           CreateRouterPlan originalQuery query restrictionContext = Ok (Some plan) ->
           MultiRouterPlannableQuery query restrictionContext = true
           /\ operation plan = commandType query
           /\ masterQuery plan = None
           /\ hasReturning plan = false
           /\ ((modifyingCte = true
                /\ planningError plan = Some ModifyingCteError
                /\ workerJob plan = None
                /\ routerExecutable plan = false)
               \/ (modifyingCte = false
                   /\ planningError plan = None
                   /\ routerExecutable plan = true
                   /\ exists job,
                       workerJob plan = Some job
                       /\ RouterJob originalQuery restrictionContext = Ok job)))
    /\ (forall planningError,
           CreateRouterPlan originalQuery query restrictionContext
           <> Deferred planningError).
Proof.
  intros E oq q ctx modifyingCte.
  unfold CreateRouterPlan, CreateSingleTaskRouterPlan, ErrorIfQueryHasModifyingCTE.
  fold modifyingCte.
  destruct (MultiRouterPlannableQuery q ctx).
  - destruct modifyingCte.
    + split; [split; [intros H; discriminate H|]|split].
      * intros [H|[H _]]; discriminate H.
      * intros plan [= <-]. cbn. repeat split. left. repeat split.
      * intros e H; discriminate H.
    + destruct (RouterJob oq ctx) as [job|e|c m].
      * split; [split; [intros H; discriminate H|]|split].
        -- intros [H|[_ [e H]]]; discriminate H.
        -- intros plan [= <-]. cbn. repeat split. right. repeat split.
           exists job. split; reflexivity.
        -- intros e H; discriminate H.
      * split; [split; [intros _; right; split; [reflexivity|exists e; reflexivity]
                       |reflexivity]|split].
        -- intros plan H; discriminate H.
        -- intros e' H; discriminate H.
      * split; [split; [intros H; discriminate H|]|split].
        -- intros [H|[_ [e H]]]; discriminate H.
        -- intros plan H; discriminate H.
        -- intros e H; discriminate H.
  - split; [split; [intros _; now left | reflexivity]|split].
    + intros plan H; discriminate H.
    + intros e H; discriminate H.
Qed.

(** ** Shards of one relation, placements on one node *)

Section SameRelationFacts.
Context {E : Externals}.

Lemma scan_true_pair : forall l previous,
    RelationPrunesToMultipleShards_scan previous l = true ->
    exists a b,
      In a (match previous with Some p => p :: l | None => l end) /\ In b l
      /\ rs_relationId b = rs_relationId a /\ rs_shardId b <> rs_shardId a.
Proof.
  induction l as [|x r IH]; intros previous H; [discriminate H|].
  cbn [RelationPrunesToMultipleShards_scan] in H.
  assert (Hnext : RelationPrunesToMultipleShards_scan (Some x) r = true ->
                  exists a b,
                    In a (match previous with Some p => p :: x :: r | None => x :: r end)
                    /\ In b (x :: r)
                    /\ rs_relationId b = rs_relationId a /\ rs_shardId b <> rs_shardId a).
  { intros Hr. destruct (IH _ Hr) as (a & b & Ha & Hb & Hrel & Hshard).
    exists a, b. split; [destruct previous; simpl; auto|]. split; [now right | auto]. }
  destruct previous as [p|]; [|now apply Hnext].
  destruct ((rs_relationId x =? rs_relationId p)
            && negb (rs_shardId x =? rs_shardId p)) eqn:Hclash; [|now apply Hnext].
  apply andb_true_iff in Hclash. destruct Hclash as [Hrel Hshard].
  apply Z.eqb_eq in Hrel. apply negb_true_iff, Z.eqb_neq in Hshard.
  exists p, x. simpl; auto.
Qed.
End SameRelationFacts.

(** X19.  [RelationPrunesToMultipleShards] answers true exactly when the
    list has two mappings of the same relation to different shards, given
    that the sort it relies on keeps the entries and puts those of one
    relation next to each other. *)
Theorem RelationPrunesToMultipleShards_iff :
  forall (E : Externals) (relationShardList : list RelationShard),
    SortsByRelation ->
    (RelationPrunesToMultipleShards relationShardList = true <->
     exists a b,
       In a relationShardList /\ In b relationShardList
       /\ rs_relationId a = rs_relationId b /\ rs_shardId a <> rs_shardId b).
Proof.
  intros E l Hsort. split.
  - intros H. unfold RelationPrunesToMultipleShards in H.
    destruct (scan_true_pair _ None H) as (a & b & Ha & Hb & Hrel & Hshard).
    destruct (Hsort l) as [Hperm _]. apply Permutation_sym in Hperm.
    exists a, b. split; [eapply Permutation_in; eauto|].
    split; [eapply Permutation_in; eauto|]. split; [now symmetry | congruence].
  - intros (a & b & Ha & Hb & Hrel & Hshard).
    destruct (RelationPrunesToMultipleShards l) eqn:H; [reflexivity|]. exfalso.
    apply Hshard. exact (RelationPrunesToMultipleShards_false l Hsort H a b Ha Hb Hrel).
Qed.

Lemma RelationPrunesToMultipleShards_iff_witness :
  RelationPrunesToMultipleShards (E := Example.catalog)
    [makeRelationShard Example.orders 102008; makeRelationShard Example.events 102011;
     makeRelationShard Example.orders 102009] = true
  <-> exists a b,
      In a [makeRelationShard Example.orders 102008; makeRelationShard Example.events 102011;
            makeRelationShard Example.orders 102009]
      /\ In b [makeRelationShard Example.orders 102008;
               makeRelationShard Example.events 102011;
               makeRelationShard Example.orders 102009]
      /\ rs_relationId a = rs_relationId b /\ rs_shardId a <> rs_shardId b.
Proof.
  apply (@RelationPrunesToMultipleShards_iff Example.catalog).
  exact Example_SortsByRelation.
Defined.

Lemma strncmp_zero_substring : forall (n : nat) (a b : string),
    strncmp a b n = 0 <-> substring 0 n a = substring 0 n b.
Proof.
  induction n as [|n IH]; intros a b.
  - destruct a, b; simpl; tauto.
  - destruct a as [|c1 r1], b as [|c2 r2]; simpl; try (split; [lia | discriminate]).
    + tauto.
    + destruct (Ascii.eqb_spec c1 c2) as [->|Hneq].
      * rewrite (IH r1 r2). split; [now intros -> | now intros [= ->]].
      * split; [destruct (_ <? _)%N; lia | intros [= Hc _]; contradiction].
Qed.

(** X20.  [IntersectPlacementList] keeps a placement of the right list
    exactly when some placement of the left list has the same port and a
    node name that agrees with its own on the first [WORKER_LENGTH]
    characters; names are not compared beyond that length.  Nothing but
    placements of the right list is returned. *)
Theorem IntersectPlacementList_exact :
  forall (E : Externals) (lhsPlacementList rhsPlacementList : list ShardPlacement)
         (placement : ShardPlacement),
    In placement (IntersectPlacementList lhsPlacementList rhsPlacementList)
    <-> In placement rhsPlacementList
        /\ exists lhsPlacement,
            In lhsPlacement lhsPlacementList
            /\ nodePort placement = nodePort lhsPlacement
            /\ substring 0 WORKER_LENGTH (nodeName placement)
               = substring 0 WORKER_LENGTH (nodeName lhsPlacement).
Proof.
  intros E lhs rhs p. unfold IntersectPlacementList. rewrite in_flat_map.
  split.
  - intros (q & Hq & Hin). apply filter_In in Hin. destruct Hin as [Hin Hmatch].
    split; [exact Hin|]. exists q. split; [exact Hq|].
    unfold PlacementNodeMatches in Hmatch. apply andb_true_iff in Hmatch.
    destruct Hmatch as [Hport Hname]. apply Z.eqb_eq in Hport, Hname.
    split; [exact Hport | now apply strncmp_zero_substring].
  - intros (Hin & q & Hq & Hport & Hname). exists q. split; [exact Hq|].
    apply filter_In. split; [exact Hin|].
    unfold PlacementNodeMatches. apply andb_true_iff.
    split; apply Z.eqb_eq; [exact Hport | now apply strncmp_zero_substring].
Qed.

(** X21.  [ExtractFirstDistributedTableId] gives the relation of the first
    range table entry that is a distributed table, and [InvalidOid] when no
    entry is one. *)
Theorem ExtractFirstDistributedTableId_first :
  forall (E : Externals) (query : Query),
    (forall before rangeTableEntry after,
        ExtractRangeTableEntryWalker query = before ++ rangeTableEntry :: after ->
        (forall other, In other before -> IsDistributedTable (relid other) = false) ->
        IsDistributedTable (relid rangeTableEntry) = true ->
        ExtractFirstDistributedTableId query = relid rangeTableEntry)
    /\ ((forall rangeTableEntry,
            In rangeTableEntry (ExtractRangeTableEntryWalker query) ->
            IsDistributedTable (relid rangeTableEntry) = false) ->
        ExtractFirstDistributedTableId query = InvalidOid)
    /\ (ExtractFirstDistributedTableId query = InvalidOid
        \/ (IsDistributedTable (ExtractFirstDistributedTableId query) = true
            /\ exists rangeTableEntry,
                In rangeTableEntry (ExtractRangeTableEntryWalker query)
                /\ relid rangeTableEntry = ExtractFirstDistributedTableId query)).
Proof.
  intros E q. unfold ExtractFirstDistributedTableId.
  split; [|split].
  - intros before rte after -> Hbefore Hrte.
    induction before as [|x r IH]; cbn [app find].
    + now rewrite Hrte.
    + rewrite (Hbefore x (or_introl eq_refl)). apply IH.
      intros other Hin. apply Hbefore. now right.
  - intros Hnone.
    destruct (find _ (ExtractRangeTableEntryWalker q)) as [rte|] eqn:Hfind; [|reflexivity].
    apply find_some in Hfind. destruct Hfind as [Hin Hd].
    rewrite (Hnone rte Hin) in Hd. discriminate Hd.
  - destruct (find _ (ExtractRangeTableEntryWalker q)) as [rte|] eqn:Hfind; [|now left].
    apply find_some in Hfind. destruct Hfind as [Hin Hd].
    right. split; [exact Hd|]. exists rte. split; [exact Hin | reflexivity].
Qed.

(** ** The range table entry that is updated or deleted from *)

Lemma land_single_bit : forall k p : Z,
    0 <= k -> (Z.land (Z.shiftl 1 k) p =? 0) = negb (Z.testbit p k).
Proof.
  intros k p Hk. destruct (Z.testbit p k) eqn:Hbit; cbn [negb].
  - apply Z.eqb_neq. intros Hzero.
    assert (Hk' : Z.testbit (Z.land (Z.shiftl 1 k) p) k = true).
    { rewrite Z.land_spec, Z.shiftl_spec, Z.sub_diag, Hbit by exact Hk. reflexivity. }
    rewrite Hzero, Z.bits_0 in Hk'. discriminate Hk'.
  - apply Z.eqb_eq. apply Z.bits_inj'. intros n Hn.
    rewrite Z.land_spec, Z.shiftl_spec, Z.bits_0 by exact Hn.
    destruct (Z.eq_dec n k) as [->|Hneq]; [now rewrite Hbit, andb_false_r|].
    destruct (n - k) as [|m|m] eqn:Hdiff; [lia| |reflexivity].
    now destruct m.
Qed.

(** X22.  [UpdateOrDeleteRTE] looks at two bits of the required
    permissions, bit 2 (UPDATE) and bit 3 (DELETE), whatever the other bits
    are; and [GetUpdateOrDeleteRTE] gives the first entry of the range table
    that has one of the two bits set, and nothing exactly when no entry has
    one. *)
Theorem GetUpdateOrDeleteRTE_first_with_bits :
  forall (E : Externals) (rangeTableList : list RangeTblEntry),
    (forall rangeTableEntry,
        UpdateOrDeleteRTE rangeTableEntry
        = Z.testbit (requiredPerms rangeTableEntry) 2
          || Z.testbit (requiredPerms rangeTableEntry) 3)
    /\ (forall rangeTableEntry,
           GetUpdateOrDeleteRTE rangeTableList = Some rangeTableEntry ->
           Z.testbit (requiredPerms rangeTableEntry) 2
           || Z.testbit (requiredPerms rangeTableEntry) 3 = true
           /\ exists before after,
               rangeTableList = before ++ rangeTableEntry :: after
               /\ forall other,
                   In other before ->
                   Z.testbit (requiredPerms other) 2 = false
                   /\ Z.testbit (requiredPerms other) 3 = false)
    /\ (GetUpdateOrDeleteRTE rangeTableList = None <->
        forall rangeTableEntry,
          In rangeTableEntry rangeTableList ->
          Z.testbit (requiredPerms rangeTableEntry) 2 = false
          /\ Z.testbit (requiredPerms rangeTableEntry) 3 = false).
Proof.
  intros E l.
  assert (Hbits : forall rte,
             UpdateOrDeleteRTE rte
             = Z.testbit (requiredPerms rte) 2 || Z.testbit (requiredPerms rte) 3).
  { intros rte. unfold UpdateOrDeleteRTE, ACL_UPDATE, ACL_DELETE.
    rewrite !land_single_bit by lia. now rewrite !negb_involutive. }
  split; [exact Hbits|]. unfold GetUpdateOrDeleteRTE. split.
  - induction l as [|x r IH]; intros rte Hfind; [discriminate Hfind|].
    cbn [find] in Hfind. destruct (UpdateOrDeleteRTE x) eqn:Hx.
    + injection Hfind as <-. split; [now rewrite <- Hbits|].
      exists [], r. split; [reflexivity | intros ? []].
    + destruct (IH rte Hfind) as (Hrte & before & after & -> & Hbefore).
      split; [exact Hrte|]. exists (x :: before), after. split; [reflexivity|].
      intros other [<-|Hin]; [|now apply Hbefore].
      rewrite Hbits in Hx. now apply orb_false_iff in Hx.
  - split.
    + intros Hnone rte Hin. pose proof (find_none _ _ Hnone rte Hin) as Hrte.
      rewrite Hbits in Hrte. now apply orb_false_iff in Hrte.
    + intros Hall. apply GetUpdateOrDeleteRTE_none. intros rte Hin.
      rewrite Hbits. destruct (Hall rte Hin) as [-> ->]. reflexivity.
Qed.

(** X23.  The text of the error for a relation that prunes to several
    shards.  The message names UPDATE or DELETE for these commands and
    SELECT for every other one.  For an UPDATE or DELETE the hint names the
    partition column of the table of the first range table entry with
    UPDATE or DELETE permission; for the other commands the hint is the
    empty string. *)
Theorem MultiShardQueryError_text :
  forall (E : Externals) (originalQuery : Query),
    code (MultiShardQueryError originalQuery) = ERRCODE_FEATURE_NOT_SUPPORTED
    /\ detail (MultiShardQueryError originalQuery) = None
    /\ message (MultiShardQueryError originalQuery)
       = match commandType originalQuery with
         | CMD_UPDATE => "cannot run UPDATE command which targets multiple shards"
         | CMD_DELETE => "cannot run DELETE command which targets multiple shards"
         | _ => "cannot run SELECT command which targets multiple shards"
         end%string
    /\ (UpdateOrDeleteQuery originalQuery = false ->
        hint (MultiShardQueryError originalQuery) = Some EmptyString)
    /\ (UpdateOrDeleteQuery originalQuery = true ->
        forall updateOrDeleteRTE,
          GetUpdateOrDeleteRTE (ExtractRangeTableEntryWalker originalQuery)
          = Some updateOrDeleteRTE ->
          exists errorHint,
            hint (MultiShardQueryError originalQuery) = Some errorHint
            /\ Mentions
                 (ColumnNameToColumn
                    (relid updateOrDeleteRTE)
                    (partitionKeyString
                       (DistributedTableCacheEntry (relid updateOrDeleteRTE))))
                 errorHint = true).
Proof.
  intros E q. unfold MultiShardQueryError, UpdateOrDeleteQuery.
  split; [reflexivity|]. split; [reflexivity|]. split; [|split].
  - cbn [message]. now destruct (commandType q).
  - cbn [hint]. destruct (commandType q); try discriminate; reflexivity.
  - intros Hcmd rte Hrte. cbn [hint]. rewrite Hrte.
    eexists. split; [destruct (commandType q); try discriminate Hcmd; reflexivity|].
    apply (Mentions_infix
             _ ("Consider using an equality filter on partition column " ++ double_quote)
             (double_quote ++ " to target a single shard. If you'd like to run a multi-shard operation, use master_modify_multiple_shards().")).
Qed.

(** ** Pruning the references *)

(** X24.  The quick bail out of [TargetShardIntervalsForRouter].  When a
    reference keeps more than one shard and the references before it keep at
    most one each, the function reports a multi-shard query and returns no
    list; the references before it have their pruned shard lists recorded,
    the reference itself is left with an empty list, and the references
    after it are not pruned and keep what was recorded in them. *)
Theorem TargetShardIntervalsForRouter_bail_out :
  forall (E : Externals) (query : Query)
         (before after : list RelationRestriction) (relationRestriction : RelationRestriction),
    (forall earlier, In earlier before ->
                     (List.length (RelationPrunedShardList earlier) <= 1)%nat) ->
    (1 < List.length (RelationPrunedShardList relationRestriction))%nat ->
    TargetShardIntervalsForRouter query (before ++ relationRestriction :: after)
    = (true, [],
       map RecordPrunedShards before
           ++ SetPrunedShardIntervalList relationRestriction [] :: after).
Proof.
  intros E q before after r Hbefore Hmany.
  induction before as [|x rest IH]; cbn [app map TargetShardIntervalsForRouter].
  - replace (1 <? Z.of_nat (List.length (RelationPrunedShardList r))) with true
      by (symmetry; apply Z.ltb_lt; lia).
    reflexivity.
  - replace (1 <? Z.of_nat (List.length (RelationPrunedShardList x))) with false
      by (symmetry; apply Z.ltb_ge; pose proof (Hbefore x (or_introl eq_refl)); lia).
    rewrite IH by (intros y Hy; apply Hbefore; now right). reflexivity.
Qed.

Lemma TargetShardIntervalsForRouter_bail_out_witness :
  TargetShardIntervalsForRouter (E := Example.catalog) Example.self_join
    (relationRestrictionList Example.unfiltered_context)
  = (true, [],
     [Example.restriction Example.orders 1 ACL_SELECT [];
      Example.restriction Example.orders 2 ACL_SELECT
                          [Example.equals (makeVar 2 1) 42]]).
Proof.
  refine (@TargetShardIntervalsForRouter_bail_out
            Example.catalog Example.self_join []
            [Example.restriction Example.orders 2 ACL_SELECT
                                 [Example.equals (makeVar 2 1) 42]]
            (Example.restriction Example.orders 1 ACL_SELECT []) _ _).
  - intros earlier [].
  - cbn. lia.
Defined.

(** ** The validator for single-shard and for multi-shard modifications *)

Section ValidatorModes.
Context {E : Externals}.

Lemma ModifyQuerySupported_rangeTable_single : forall queryTree l hasValuesScan count scanned,
    ModifyQuerySupported_rangeTable queryTree true l hasValuesScan count = inr scanned ->
    ModifyQuerySupported_rangeTable queryTree false l hasValuesScan count = inr scanned.
Proof.
  intros q; induction l as [|r rest IH]; intros hv c scanned H; [exact H|].
  cbn [ModifyQuerySupported_rangeTable] in *. rewrite andb_false_r in H.
  destruct (rtekind r); try discriminate H.
  - destruct (_ && negb IsCoordinator); [discriminate H|].
    destruct (Ascii.eqb (relkind r) RELKIND_VIEW); [discriminate H | now apply IH].
  - now apply IH.
Qed.

Lemma ModifyQuerySupported_rangeTable_mode : forall queryTree l hasValuesScan count,
    UpdateOrDeleteQuery queryTree = false ->
    ModifyQuerySupported_rangeTable queryTree true l hasValuesScan count
    = ModifyQuerySupported_rangeTable queryTree false l hasValuesScan count.
Proof.
  intros q; induction l as [|r rest IH]; intros hv c Hcmd; [reflexivity|].
  cbn [ModifyQuerySupported_rangeTable]. rewrite Hcmd. cbn [andb].
  rewrite !IH by exact Hcmd. reflexivity.
Qed.

Lemma ModifyQuerySupported_rules_single : forall queryTree flag,
    ModifyQuerySupported_rules queryTree true = inr flag ->
    ModifyQuerySupported_rules queryTree false = inr flag.
Proof.
  intros q flag. unfold ModifyQuerySupported_rules, bindE, guard.
  rewrite !orb_true_r, !andb_true_r, !orb_false_r.
  destruct (hasSubLinks q); [intros H; discriminate H|]. cbn [andb].
  destruct (cteList q); [|intros H; discriminate H].
  destruct (ModifyQuerySupported_rangeTable q true (ExtractRangeTableEntryWalker q) false 0)
    as [e|[hv count]] eqn:Hscan; [intros H; discriminate H|].
  rewrite (ModifyQuerySupported_rangeTable_single _ _ _ _ Hscan).
  destruct (negb (CmdType_beq (commandType q) CMD_INSERT) && negb (count =? 1));
    [intros H; discriminate H|].
  cbn [andb]. exact (fun H => H).
Qed.

Lemma ModifyQuerySupported_rules_mode : forall queryTree,
    UpdateOrDeleteQuery queryTree = false ->
    ModifyQuerySupported_rules queryTree true = ModifyQuerySupported_rules queryTree false.
Proof.
  intros q Hcmd. unfold ModifyQuerySupported_rules.
  rewrite (ModifyQuerySupported_rangeTable_mode q _ false 0 Hcmd), Hcmd.
  cbn [negb orb]. reflexivity.
Qed.
End ValidatorModes.

(** X25.  The validation of a multi-shard modification is the stricter
    one: a statement accepted as a multi-shard modification is accepted as a
    single-shard one.  The two differ for UPDATE and DELETE only: for any
    other command the verdict is the same in both modes. *)
Theorem ModifyQuerySupported_multi_shard_stricter :
  forall (E : Externals) (queryTree : Query),
    (ModifyQuerySupported queryTree true = None ->
     ModifyQuerySupported queryTree false = None)
    /\ (UpdateOrDeleteQuery queryTree = false ->
        ModifyQuerySupported queryTree true = ModifyQuerySupported queryTree false).
Proof.
  intros E q. split.
  - intros H. apply ModifyQuerySupported_accepts_rules in H.
    unfold ModifyQuerySupported. now rewrite (ModifyQuerySupported_rules_single _ H).
  - intros Hcmd. unfold ModifyQuerySupported.
    now rewrite (ModifyQuerySupported_rules_mode _ Hcmd).
Qed.

Section ValidatorOrder.
Context {E : Externals}.

Lemma ModifyQuerySupported_rangeTable_app :
  forall queryTree multiShardQuery l1 l2 hasValuesScan count,
    ModifyQuerySupported_rangeTable queryTree multiShardQuery (l1 ++ l2) hasValuesScan count
    = match ModifyQuerySupported_rangeTable queryTree multiShardQuery l1
                                            hasValuesScan count with
      | inl e => inl e
      | inr (hasValuesScan', count') =>
          ModifyQuerySupported_rangeTable queryTree multiShardQuery l2 hasValuesScan' count'
      end.
Proof.
  intros q ms; induction l1 as [|r rest IH]; intros l2 hv c; [reflexivity|].
  cbn [app ModifyQuerySupported_rangeTable].
  destruct (rtekind r); rewrite ?IH; try reflexivity.
  - destruct (_ && negb IsCoordinator); [reflexivity|].
    destruct (Ascii.eqb (relkind r) RELKIND_VIEW); reflexivity.
  - destruct (UpdateOrDeleteQuery q && negb ms); reflexivity.
  - destruct (UpdateOrDeleteQuery q && negb ms); reflexivity.
  - destruct (UpdateOrDeleteQuery q && negb ms); reflexivity.
  - destruct (UpdateOrDeleteQuery q && negb ms); reflexivity.
Qed.

Lemma ModifyQuerySupported_rangeTable_supported :
  forall queryTree multiShardQuery l hasValuesScan count,
    forallb (SupportedRangeTableEntry queryTree multiShardQuery) l = true ->
    exists scanned,
      ModifyQuerySupported_rangeTable queryTree multiShardQuery l hasValuesScan count
      = inr scanned.
Proof.
  intros q ms; induction l as [|r rest IH]; intros hv c Hall; [cbn; eauto|].
  cbn [forallb] in Hall. apply andb_true_iff in Hall. destruct Hall as [Hr Hrest].
  cbn [ModifyQuerySupported_rangeTable]. unfold SupportedRangeTableEntry in Hr.
  destruct (rtekind r); try (rewrite Hr; now apply IH).
  - apply andb_true_iff in Hr. destruct Hr as [Href Hview].
    apply negb_true_iff in Href, Hview. rewrite Href, Hview. now apply IH.
  - now apply IH.
Qed.

Lemma ModifyQuerySupported_rangeTable_rejects :
  forall queryTree multiShardQuery before rangeTableEntry after,
    forallb (SupportedRangeTableEntry queryTree multiShardQuery) before = true ->
    SupportedRangeTableEntry queryTree multiShardQuery rangeTableEntry = false ->
    ModifyQuerySupported_rangeTable queryTree multiShardQuery
                                    (before ++ rangeTableEntry :: after) false 0
    = inl (match rtekind rangeTableEntry with
           | RTE_RELATION =>
               if Ascii.eqb (partitionMethod
                               (DistributedTableCacheEntry (relid rangeTableEntry)))
                            DISTRIBUTE_BY_NONE
                  && negb IsCoordinator
               then ReferenceTableNotCoordinatorError
               else ViewModificationError
           | kind => RangeTableEntryError kind
           end).
Proof.
  intros q ms before r after Hbefore Hr.
  rewrite ModifyQuerySupported_rangeTable_app.
  destruct (ModifyQuerySupported_rangeTable_supported q ms before false 0 Hbefore)
    as ([hv c] & ->).
  cbn [ModifyQuerySupported_rangeTable]. unfold SupportedRangeTableEntry in Hr.
  destruct (rtekind r); try (rewrite Hr; reflexivity); try discriminate Hr.
  destruct (_ && negb IsCoordinator); [reflexivity|]. cbn [negb andb] in Hr.
  apply negb_false_iff in Hr. now rewrite Hr.
Qed.
End ValidatorOrder.

(** X26.  The order of the first rules of the validator.  Sublinks are
    looked at first, then common table expressions, then the range table
    entries in their order: the statement is rejected with the error of the
    first entry that is not supported (a reference table away from the
    coordinator, else a view, else a subquery, join, function or other
    entry outside a single-shard UPDATE or DELETE), whatever comes after
    it. *)
Theorem ModifyQuerySupported_first_rejection :
  forall (E : Externals) (queryTree : Query) (multiShardQuery : bool),
    let singleShardUpdateOrDelete :=
        UpdateOrDeleteQuery queryTree && negb multiShardQuery in
    (hasSubLinks queryTree = true ->
     singleShardUpdateOrDelete = false ->
     ModifyQuerySupported queryTree multiShardQuery = Some SubqueryNotSupportedError)
    /\ (hasSubLinks queryTree && negb singleShardUpdateOrDelete = false ->
        cteList queryTree <> [] ->
        ModifyQuerySupported queryTree multiShardQuery = Some CteNotSupportedError)
    /\ (forall before rangeTableEntry after,
           hasSubLinks queryTree && negb singleShardUpdateOrDelete = false ->
           cteList queryTree = [] ->
           ExtractRangeTableEntryWalker queryTree = before ++ rangeTableEntry :: after ->
           forallb (SupportedRangeTableEntry queryTree multiShardQuery) before = true ->
           SupportedRangeTableEntry queryTree multiShardQuery rangeTableEntry = false ->
           ModifyQuerySupported queryTree multiShardQuery
           = Some (match rtekind rangeTableEntry with
                   | RTE_RELATION =>
                       if Ascii.eqb (partitionMethod
                                       (DistributedTableCacheEntry (relid rangeTableEntry)))
                                    DISTRIBUTE_BY_NONE
                          && negb IsCoordinator
                       then ReferenceTableNotCoordinatorError
                       else ViewModificationError
                   | kind => RangeTableEntryError kind
                   end)).
Proof.
  intros E q ms single.
  assert (Hguard : hasSubLinks q && (negb (UpdateOrDeleteQuery q) || ms)
                   = hasSubLinks q && negb single).
  { subst single. now rewrite negb_andb, negb_involutive. }
  unfold ModifyQuerySupported, ModifyQuerySupported_rules, bindE, guard.
  rewrite Hguard. split; [|split].
  - intros -> ->. reflexivity.
  - intros -> Hcte. destruct (cteList q); [now destruct Hcte | reflexivity].
  - intros before r after -> -> Htable Hbefore Hr.
    rewrite Htable, (ModifyQuerySupported_rangeTable_rejects _ _ _ _ after Hbefore Hr).
    reflexivity.
Qed.

(** ** The constraint of a shard interval *)

(** X27.  [ShardIntervalOpExpressions] succeeds exactly for the shards of
    hash, range and append partitioned tables, and then returns a list of
    exactly one expression; for any other table it raises an error.  For a
    hash partitioned table the expression is on the hashed column and does
    not depend on the range table index; when the shard lacks its minimum
    or its maximum, the expression is the base constraint as it was
    built. *)
Theorem ShardIntervalOpExpressions_one_constraint :
  forall (E : Externals) (B : ConstraintBuilders) (shardInterval : ShardInterval)
         (rteIndex : Index),
    let partitionMethod := PartitionMethod (si_relationId shardInterval) in
    ((exists constraint, ShardIntervalOpExpressions shardInterval rteIndex = Ok [constraint])
     <-> In partitionMethod [DISTRIBUTE_BY_HASH; DISTRIBUTE_BY_RANGE; DISTRIBUTE_BY_APPEND])
    /\ (forall constraints,
           ShardIntervalOpExpressions shardInterval rteIndex = Ok constraints ->
           List.length constraints = 1%nat)
    /\ (~ In partitionMethod [DISTRIBUTE_BY_HASH; DISTRIBUTE_BY_RANGE; DISTRIBUTE_BY_APPEND] ->
        exists errmsg,
          ShardIntervalOpExpressions shardInterval rteIndex
          = Fatal ERRCODE_INVALID_PARAMETER_VALUE errmsg)
    /\ (partitionMethod = DISTRIBUTE_BY_HASH ->
        forall otherIndex,
          ShardIntervalOpExpressions shardInterval otherIndex
          = ShardIntervalOpExpressions shardInterval rteIndex)
    /\ (minValueExists shardInterval && maxValueExists shardInterval = false ->
        partitionMethod = DISTRIBUTE_BY_HASH ->
        ShardIntervalOpExpressions shardInterval rteIndex
        = Ok [BuildBaseConstraint (Some MakeInt4Column)]).
Proof.
  intros E B s i method. unfold ShardIntervalOpExpressions. fold method.
  destruct (Ascii.eqb_spec method DISTRIBUTE_BY_HASH) as [Hhash|Hhash].
  - cbn [bindO]. split; [|split; [|split; [|split]]].
    + split; [intros _; left; now symmetry | intros _; eauto].
    + intros l [= <-]. reflexivity.
    + intros Hnot. exfalso. apply Hnot. left. now symmetry.
    + reflexivity.
    + intros -> _. reflexivity.
  - destruct (Ascii.eqb_spec method DISTRIBUTE_BY_RANGE) as [Hrange|Hrange];
      [|destruct (Ascii.eqb_spec method DISTRIBUTE_BY_APPEND) as [Happend|Happend]];
      cbn [orb bindO].
    + split; [|split; [|split; [|split]]].
      * split; [intros _; right; left; now symmetry | intros _; eauto].
      * intros l [= <-]. reflexivity.
      * intros Hnot. exfalso. apply Hnot. right; left. now symmetry.
      * intros Habs. now destruct Hhash.
      * intros _ Habs. now destruct Hhash.
    + split; [|split; [|split; [|split]]].
      * split; [intros _; right; right; left; now symmetry | intros _; eauto].
      * intros l [= <-]. reflexivity.
      * intros Hnot. exfalso. apply Hnot. right; right; left. now symmetry.
      * intros Habs. now destruct Hhash.
      * intros _ Habs. now destruct Hhash.
    + split; [|split; [|split; [|split]]].
      * split; [intros [c Hc]; discriminate Hc|].
        intros [H|[H|[H|[]]]]; symmetry in H; contradiction.
      * intros l H; discriminate H.
      * intros _. eauto.
      * intros Habs. now destruct Hhash.
      * intros _ Habs. now destruct Hhash.
Qed.

(** ** Workers that hold all the shards, whatever the length of their names *)

Section SameWorkerFacts.
Context {E : Externals}.

Lemma SameWorker_refl : forall a, SameWorker a a.
Proof. intros a; split; reflexivity. Qed.

Lemma SameWorker_sym : forall a b, SameWorker a b -> SameWorker b a.
Proof. intros a b [Hp Hn]; split; congruence. Qed.

Lemma SameWorker_trans : forall a b c, SameWorker a b -> SameWorker b c -> SameWorker a c.
Proof. intros a b c [Hp Hn] [Hp' Hn']; split; congruence. Qed.

Lemma PlacementNodeMatches_SameWorker : forall lhs rhs,
    PlacementNodeMatches lhs rhs = true <-> SameWorker lhs rhs.
Proof.
  intros lhs rhs. unfold PlacementNodeMatches, SameWorker.
  rewrite andb_true_iff, !Z.eqb_eq, strncmp_zero_substring.
  split; intros [Hp Hn]; split; congruence.
Qed.

Lemma In_IntersectPlacementList_worker : forall lhsList rhsList placement,
    In placement (IntersectPlacementList lhsList rhsList)
    <-> In placement rhsList /\ OnWorkerOf placement lhsList.
Proof.
  intros lhs rhs p. unfold IntersectPlacementList, OnWorkerOf. rewrite in_flat_map.
  split.
  - intros (q & Hq & Hin). apply filter_In in Hin. destruct Hin as [Hin Hmatch].
    split; [exact Hin|]. exists q. split; [exact Hq|].
    now apply PlacementNodeMatches_SameWorker.
  - intros (Hin & q & Hq & Hsame). exists q. split; [exact Hq|].
    apply filter_In. split; [exact Hin | now apply PlacementNodeMatches_SameWorker].
Qed.

Lemma In_fold_IntersectPlacementList_worker : forall placementLists current placement,
    In placement (fold_left IntersectPlacementList placementLists current)
    <-> In placement (last placementLists current)
        /\ OnWorkerOf placement current
        /\ Forall (OnWorkerOf placement) placementLists.
Proof.
  induction placementLists as [|r rs IH]; intros current p.
  - simpl; split.
    + intros Hin; repeat split; auto. exists p. split; [exact Hin | apply SameWorker_refl].
    + tauto.
  - cbn [fold_left]. rewrite IH.
    assert (Hlast : In p (last rs (IntersectPlacementList current r))
                    /\ OnWorkerOf p (IntersectPlacementList current r)
                    <-> In p (last (r :: rs) current)
                        /\ OnWorkerOf p current /\ OnWorkerOf p r).
    { destruct rs as [|r' rs'].
      - cbn [last]. rewrite In_IntersectPlacementList_worker.
        split.
        + intros ((Hp & Hon) & _); repeat split; auto.
          exists p. split; [exact Hp | apply SameWorker_refl].
        + intros (Hp & Hon & _); repeat split; auto.
          exists p; split; [|apply SameWorker_refl].
          apply In_IntersectPlacementList_worker; auto.
      - change (last (r :: r' :: rs') current) with (last (r' :: rs') current).
        rewrite (last_cons_default rs' r' (IntersectPlacementList current r) current).
        split.
        + intros (Hp & q & Hq & Hsame).
          apply In_IntersectPlacementList_worker in Hq.
          destruct Hq as (Hq & q' & Hq' & Hsame').
          repeat split; auto.
          * exists q'; split; [exact Hq' | eapply SameWorker_trans; eauto].
          * now exists q.
        + intros (Hp & (q & Hq & Hsame) & (q' & Hq' & Hsame')).
          split; [exact Hp|].
          exists q'; split; [|exact Hsame'].
          apply In_IntersectPlacementList_worker.
          split; [exact Hq'|]. exists q; split; [exact Hq|].
          eapply SameWorker_trans; [exact Hsame | now apply SameWorker_sym]. }
    rewrite Forall_cons_iff. tauto.
Qed.
End SameWorkerFacts.

(** X28.  The placements [WorkersContainingAllShards] returns, whatever
    the length of the node names: they are the placements of the last
    targeted shard for which every targeted shard has a placement on the
    same worker, where two placements are on the same worker when they have
    the same port and node names that agree on their first [WORKER_LENGTH]
    characters.  Pruned shard lists that are empty play no part. *)
Theorem WorkersContainingAllShards_exact :
  forall (E : Externals) (prunedShardIntervalsList : list (list ShardInterval))
         (placement : ShardPlacement),
    In placement (WorkersContainingAllShards prunedShardIntervalsList)
    <-> match TargetedShards prunedShardIntervalsList with
        | [] => False
        | first :: rest =>
            In placement (FinalizedShardPlacementList (si_shardId (last rest first)))
            /\ forall shardInterval,
                In shardInterval (first :: rest) ->
                OnWorkerOf placement
                           (FinalizedShardPlacementList (si_shardId shardInterval))
        end.
Proof.
  intros E lists p. rewrite WorkersContainingAllShards_fold.
  destruct (TargetedShards lists) as [|first rest]; [reflexivity|].
  rewrite In_fold_IntersectPlacementList_worker.
  rewrite (last_map_default (fun s => FinalizedShardPlacementList (si_shardId s))).
  rewrite Forall_map, Forall_forall.
  split.
  - intros (Hlast & Hfirst & Hrest); split; [exact Hlast|].
    intros s [<-|Hs]; auto.
  - intros (Hlast & Hall); repeat split; auto.
    + apply Hall; now left.
    + intros s Hs; apply Hall; now right.
Qed.

(** ** Which error the validator gives for a volatile function *)

Section ValidatorStages.
Context {E : Externals}.

Lemma ModifyQuerySupported_rangeTable_no_values :
  forall queryTree multiShardQuery l hasValuesScan count hasValuesScan' count',
    ModifyQuerySupported_rangeTable queryTree multiShardQuery l hasValuesScan count
    = inr (hasValuesScan', count') ->
    (forall rangeTableEntry, In rangeTableEntry l -> rtekind rangeTableEntry <> RTE_VALUES) ->
    hasValuesScan' = hasValuesScan.
Proof.
  intros q ms; induction l as [|r rest IH]; intros hv c hv' c' H Hno.
  - cbn in H. now injection H as <- _.
  - assert (Hrest : forall x, In x rest -> rtekind x <> RTE_VALUES)
      by (intros x Hx; apply Hno; now right).
    pose proof (Hno r (or_introl eq_refl)) as Hr.
    cbn [ModifyQuerySupported_rangeTable] in H.
    destruct (rtekind r); try (now destruct Hr);
      try (destruct (UpdateOrDeleteQuery q && negb ms); [|discriminate H];
           exact (IH _ _ _ _ H Hrest)).
    destruct (_ && negb IsCoordinator); [discriminate H|].
    destruct (Ascii.eqb (relkind r) RELKIND_VIEW); [discriminate H|].
    exact (IH _ _ _ _ H Hrest).
Qed.

(** Once the rules on the range table are satisfied, the verdict is that
    of the rules that follow. *)
Lemma ModifyQuerySupported_rules_after_range_table : forall queryTree multiShardQuery,
    RangeTableRulesSatisfied queryTree multiShardQuery ->
    ModifyQuerySupported_rules queryTree multiShardQuery
    = (let partitionColumn :=
           PartitionColumn (ExtractFirstDistributedTableId queryTree) 1 in
       let cmd := commandType queryTree in
       specifiesPartitionValue <--
         (if CmdType_beq cmd CMD_INSERT || CmdType_beq cmd CMD_UPDATE
             || CmdType_beq cmd CMD_DELETE
          then
            flags <-- ModifyQuerySupported_targetList queryTree partitionColumn
                        (targetList queryTree) false false false ;;
            let '(specifiesPartitionValue, hasVarArgument, hasBadCoalesce) := flags in
            flags <--
              match jointree queryTree with
              | Some joinTree =>
                  if contain_volatile_functions (quals joinTree) then inl WhereVolatileError
                  else
                    let '(_, hasVarArgument, hasBadCoalesce) :=
                        MasterIrreducibleExpression (quals joinTree)
                                                    hasVarArgument hasBadCoalesce in
                    inr (hasVarArgument, hasBadCoalesce)
              | None => inr (hasVarArgument, hasBadCoalesce)
              end ;;
            let '(hasVarArgument, hasBadCoalesce) := flags in
            _ <-- guard hasVarArgument StableVarArgumentError ;;
            _ <-- guard hasBadCoalesce BadCoalesceError ;;
            _ <-- guard (contain_mutable_functions
                           (TargetListNode (returningList queryTree)))
                        ReturningMutableError ;;
            inr specifiesPartitionValue
          else inr false) ;;
       let conflict := ModifyQuerySupported_onConflict queryTree in
       specifiesPartitionValue <--
         ModifyQuerySupported_onConflictSet partitionColumn (onConflictSet conflict)
                                            specifiesPartitionValue ;;
       _ <-- guard (contain_mutable_functions (arbiterWhere conflict)
                    || contain_mutable_functions (onConflictWhere conflict))
                   OnConflictWhereMutableError ;;
       inr specifiesPartitionValue).
Proof.
  intros q ms (Hsub & Hcte & Hrte & Hcount).
  assert (Hguard : hasSubLinks q && (negb (UpdateOrDeleteQuery q) || ms) = false).
  { destruct (hasSubLinks q); [|reflexivity]. specialize (Hsub eq_refl).
    apply andb_true_iff in Hsub. destruct Hsub as [-> Hms].
    apply negb_true_iff in Hms. now rewrite Hms. }
  assert (Hall : forallb (SupportedRangeTableEntry q ms) (ExtractRangeTableEntryWalker q)
                 = true).
  { apply forallb_forall. intros r Hr. now apply Hrte. }
  destruct (ModifyQuerySupported_rangeTable_supported q ms _ false 0 Hall)
    as ([hv count] & Hscan).
  assert (Hhv : hv = false).
  { apply (ModifyQuerySupported_rangeTable_no_values _ _ _ _ _ Hscan).
    intros r Hr. now apply Hrte. }
  subst hv.
  assert (Hjoin : negb (CmdType_beq (commandType q) CMD_INSERT) && negb (count =? 1)
                  && (negb (UpdateOrDeleteQuery q) || ms) = false).
  { destruct Hcount as [Hcmd|[Hsingle|Hone]].
    - now rewrite Hcmd.
    - apply andb_true_iff in Hsingle. destruct Hsingle as [-> Hms].
      apply negb_true_iff in Hms. rewrite Hms. apply andb_false_r.
    - destruct (ModifyQuerySupported_rangeTable_inr _ _ _ _ _ Hscan)
        as (_ & Hwrap & Hsame & _).
      rewrite Z.add_0_l, Hone in Hwrap.
      assert (Hc : count = 1).
      { destruct Hsame as [->|Hs]; [discriminate Hwrap | now rewrite Hs]. }
      rewrite Hc. cbn. now rewrite andb_false_r. }
  unfold ModifyQuerySupported_rules, bindE, guard.
  rewrite Hguard, Hcte, Hscan, Hjoin. reflexivity.
Qed.

Lemma ModifyQuerySupported_targetList_volatile :
  forall queryTree partitionColumn l spv hva hbc targetEntry,
    commandType queryTree = CMD_UPDATE ->
    In targetEntry l ->
    resjunk targetEntry = false ->
    contain_volatile_functions (Some (expr targetEntry)) = true ->
    ModifyQuerySupported_targetList queryTree partitionColumn l spv hva hbc
    = inl UpdateVolatileError.
Proof.
  intros q pc l spv hva hbc te Hcmd Hin Hjunk Hvol.
  revert spv hva hbc. induction l as [|x r IH]; intros spv hva hbc; [destruct Hin|].
  cbn [ModifyQuerySupported_targetList]. rewrite Hcmd. cbn [CmdType_beq andb].
  destruct Hin as [->|Hin].
  - now rewrite Hjunk, Hvol.
  - destruct (resjunk x); [now apply IH|].
    destruct (contain_volatile_functions (Some (expr x))); [reflexivity|].
    destruct (MasterIrreducibleExpression (Some (expr x)) hva hbc) as [[res hva1] hbc1].
    now apply IH.
Qed.

Lemma Irreducible_false : forall expression v b,
    Irreducible expression = false ->
    MasterIrreducibleExpression expression v b = (false, v, b).
Proof.
  intros e v b H. unfold Irreducible in H.
  destruct (MasterIrreducibleExpression_answer e v b) as [Heq Hans].
  rewrite Heq. rewrite H in *. symmetry in Hans. apply orb_false_iff in Hans.
  destruct Hans as [-> ->]. now rewrite !orb_false_r.
Qed.

Lemma ModifyQuerySupported_targetList_passes :
  forall queryTree partitionColumn l spv hva hbc,
    (commandType queryTree = CMD_UPDATE ->
     forall targetEntry, In targetEntry l -> resjunk targetEntry = false ->
                         contain_volatile_functions (Some (expr targetEntry)) = false) ->
    exists flags,
      ModifyQuerySupported_targetList queryTree partitionColumn l spv hva hbc = inr flags.
Proof.
  intros q pc l spv hva hbc Hall.
  destruct (CmdType_beq (commandType q) CMD_UPDATE) eqn:Hupd.
  - assert (Hcmd : commandType q = CMD_UPDATE)
      by (destruct (commandType q); try discriminate Hupd; reflexivity).
    specialize (Hall Hcmd).
    revert spv hva hbc. induction l as [|x r IH]; intros spv hva hbc; [cbn; eauto|].
    assert (Hr : forall te, In te r -> resjunk te = false ->
                            contain_volatile_functions (Some (expr te)) = false)
      by (intros te Hte; apply Hall; now right).
    cbn [ModifyQuerySupported_targetList]. rewrite Hupd. cbn [andb].
    destruct (resjunk x) eqn:Hjunk; [now apply IH|].
    rewrite (Hall x (or_introl eq_refl) Hjunk).
    destruct (MasterIrreducibleExpression (Some (expr x)) hva hbc) as [[res hva1] hbc1].
    now apply IH.
  - rewrite ModifyQuerySupported_targetList_not_update; [eauto|].
    intros Hcmd. rewrite Hcmd in Hupd. discriminate Hupd.
Qed.

Lemma ModifyQuerySupported_targetList_reducible :
  forall queryTree partitionColumn l spv hva hbc,
    (commandType queryTree = CMD_UPDATE ->
     forall targetEntry, In targetEntry l -> resjunk targetEntry = false ->
                         contain_volatile_functions (Some (expr targetEntry)) = false) ->
    (commandType queryTree = CMD_UPDATE ->
     forall targetEntry, In targetEntry l -> resjunk targetEntry = false ->
                         Irreducible (Some (expr targetEntry)) = false) ->
    exists spv',
      ModifyQuerySupported_targetList queryTree partitionColumn l spv hva hbc
      = inr (spv', hva, hbc).
Proof.
  intros q pc l spv hva hbc Hvol Hred.
  destruct (CmdType_beq (commandType q) CMD_UPDATE) eqn:Hupd.
  - assert (Hcmd : commandType q = CMD_UPDATE)
      by (destruct (commandType q); try discriminate Hupd; reflexivity).
    specialize (Hvol Hcmd). specialize (Hred Hcmd).
    revert spv. induction l as [|x r IH]; intros spv; [cbn; eauto|].
    assert (Hr : forall te, In te r -> resjunk te = false ->
                            contain_volatile_functions (Some (expr te)) = false)
      by (intros te Hte; apply Hvol; now right).
    assert (Hr' : forall te, In te r -> resjunk te = false ->
                             Irreducible (Some (expr te)) = false)
      by (intros te Hte; apply Hred; now right).
    cbn [ModifyQuerySupported_targetList]. rewrite Hupd. cbn [andb].
    destruct (resjunk x) eqn:Hjunk; [now apply IH|].
    rewrite (Hvol x (or_introl eq_refl) Hjunk).
    rewrite (Irreducible_false _ hva hbc (Hred x (or_introl eq_refl) Hjunk)).
    now apply IH.
  - rewrite ModifyQuerySupported_targetList_not_update; [eauto|].
    intros Hcmd. rewrite Hcmd in Hupd. discriminate Hupd.
Qed.

Lemma contain_volatile_functions_not_var : forall setExpr,
    contain_volatile_functions (Some setExpr) = true ->
    forall setVar, setExpr <> T_Var setVar.
Proof. intros setExpr Hvol v ->. discriminate Hvol. Qed.

Lemma ModifyQuerySupported_onConflictSet_rejects :
  forall partitionColumn l spv setTargetEntry,
    In setTargetEntry l ->
    IsPartitionColumnEntry partitionColumn setTargetEntry = false ->
    contain_volatile_functions (Some (expr setTargetEntry)) = true ->
    ModifyQuerySupported_onConflictSet partitionColumn l spv
    = inl OnConflictSetMutableError.
Proof.
  intros pc l spv te Hin Hother Hvol.
  pose proof (volatile_is_mutable _ Hvol) as Hmut.
  pose proof (contain_volatile_functions_not_var Hvol) as Hnotvar.
  revert spv. induction l as [|x r IH]; intros spv; [destruct Hin|].
  cbn [ModifyQuerySupported_onConflictSet].
  destruct Hin as [->|Hin].
  - unfold IsPartitionColumnEntry in Hother. destruct pc as [column|].
    + rewrite Hother. destruct (expr te) as [v| | | | | | | | |];
        try (now rewrite Hmut). now destruct (Hnotvar v).
    + destruct (expr te) as [v| | | | | | | | |];
        try (now rewrite Hmut). now destruct (Hnotvar v).
  - destruct pc as [column|].
    + destruct (resno x =? varattno column); [now apply IH|].
      destruct (expr x);
        try (match goal with |- context [if ?b then _ else _] => destruct b end;
             [reflexivity|]);
        now apply IH.
    + destruct (expr x);
        try (match goal with |- context [if ?b then _ else _] => destruct b end;
             [reflexivity|]);
        now apply IH.
Qed.

Lemma ModifyQuerySupported_onConflictSet_passes : forall partitionColumn l spv,
    ConflictSetRuleSatisfied partitionColumn l ->
    exists flag, ModifyQuerySupported_onConflictSet partitionColumn l spv = inr flag.
Proof.
  intros pc l; induction l as [|x r IH]; intros spv Hall; [cbn; eauto|].
  assert (Hr : ConflictSetRuleSatisfied pc r)
    by (intros te Hte; apply Hall; now right).
  cbn [ModifyQuerySupported_onConflictSet].
  destruct (Hall x (or_introl eq_refl)) as [Hpart|[(v & Hv)|Himm]].
  - unfold IsPartitionColumnEntry in Hpart. destruct pc as [column|]; [|discriminate Hpart].
    rewrite Hpart. now apply IH.
  - rewrite Hv. destruct pc as [column|].
    + destruct (resno x =? varattno column); now apply IH.
    + now apply IH.
  - destruct pc as [column|].
    + destruct (resno x =? varattno column); [now apply IH|].
      destruct (expr x); rewrite ?Himm; now apply IH.
    + destruct (expr x); rewrite ?Himm; now apply IH.
Qed.

Lemma modification_command : forall cmd,
    In cmd [CMD_INSERT; CMD_UPDATE; CMD_DELETE] ->
    CmdType_beq cmd CMD_INSERT || CmdType_beq cmd CMD_UPDATE || CmdType_beq cmd CMD_DELETE
    = true.
Proof. intros cmd [<-|[<-|[<-|[]]]]; reflexivity. Qed.
End ValidatorStages.

(** C7.  The validator gives a deferred error whenever a volatile function
    stands in the SET list of an UPDATE, in the WHERE clause of an INSERT,
    UPDATE or DELETE, in the RETURNING list, in the SET list of ON CONFLICT
    DO UPDATE (which assigns each column at most once), or in the arbiter or
    the filter predicate of ON CONFLICT.  Each of the five places has an
    error of its own, and that error is the one the validator returns when
    the rules it tests before it comes to the place are satisfied:
    [UpdateVolatileError] for the SET list of an UPDATE,
    [WhereVolatileError] for the WHERE clause, [ReturningMutableError] for
    the RETURNING list, [OnConflictSetMutableError] for an entry of the SET
    list of ON CONFLICT that is not on the partition column, and
    [OnConflictWhereMutableError] for the arbiter and the filter.  A volatile
    function assigned to the partition column in the SET list of ON CONFLICT
    is rejected with the error for a changed partition value when the other
    rules are satisfied.  The six errors are pairwise different. *)
Theorem ModifyQuerySupported_rejects_volatile :
  forall (E : Externals) (queryTree : Query) (multiShardQuery : bool),
    (commandType queryTree = CMD_UPDATE ->
     forall targetEntry,
       In targetEntry (targetList queryTree) ->
       resjunk targetEntry = false ->
       contain_volatile_functions (Some (expr targetEntry)) = true ->
       exists planningError,
         ModifyQuerySupported queryTree multiShardQuery = Some planningError)
    /\ (In (commandType queryTree) [CMD_INSERT; CMD_UPDATE; CMD_DELETE] ->
        forall joinTree,
          jointree queryTree = Some joinTree ->
          contain_volatile_functions (quals joinTree) = true ->
          exists planningError,
            ModifyQuerySupported queryTree multiShardQuery = Some planningError)
    /\ (In (commandType queryTree) [CMD_INSERT; CMD_UPDATE; CMD_DELETE] ->
        forall returningEntry,
          In returningEntry (returningList queryTree) ->
          contain_volatile_functions (Some (expr returningEntry)) = true ->
          exists planningError,
            ModifyQuerySupported queryTree multiShardQuery = Some planningError)
    /\ (commandType queryTree = CMD_INSERT ->
        forall onConflictClause setTargetEntry,
          onConflict queryTree = Some onConflictClause ->
          NoDup (map resno (onConflictSet onConflictClause)) ->
          In setTargetEntry (onConflictSet onConflictClause) ->
          contain_volatile_functions (Some (expr setTargetEntry)) = true ->
          exists planningError,
            ModifyQuerySupported queryTree multiShardQuery = Some planningError)
    /\ (commandType queryTree = CMD_INSERT ->
        forall onConflictClause,
          onConflict queryTree = Some onConflictClause ->
          contain_volatile_functions (arbiterWhere onConflictClause) = true
          \/ contain_volatile_functions (onConflictWhere onConflictClause) = true ->
          exists planningError,
            ModifyQuerySupported queryTree multiShardQuery = Some planningError)
    /\ (RangeTableRulesSatisfied queryTree multiShardQuery ->
        commandType queryTree = CMD_UPDATE ->
        forall targetEntry,
          In targetEntry (targetList queryTree) ->
          resjunk targetEntry = false ->
          contain_volatile_functions (Some (expr targetEntry)) = true ->
          ModifyQuerySupported queryTree multiShardQuery = Some UpdateVolatileError)
    /\ (RangeTableRulesSatisfied queryTree multiShardQuery ->
        TargetListRuleSatisfied queryTree ->
        In (commandType queryTree) [CMD_INSERT; CMD_UPDATE; CMD_DELETE] ->
        forall joinTree,
          jointree queryTree = Some joinTree ->
          contain_volatile_functions (quals joinTree) = true ->
          ModifyQuerySupported queryTree multiShardQuery = Some WhereVolatileError)
    /\ (RangeTableRulesSatisfied queryTree multiShardQuery ->
        TargetListRuleSatisfied queryTree ->
        WhereRulesSatisfied queryTree ->
        In (commandType queryTree) [CMD_INSERT; CMD_UPDATE; CMD_DELETE] ->
        forall returningEntry,
          In returningEntry (returningList queryTree) ->
          contain_volatile_functions (Some (expr returningEntry)) = true ->
          ModifyQuerySupported queryTree multiShardQuery = Some ReturningMutableError)
    /\ (RangeTableRulesSatisfied queryTree multiShardQuery ->
        WhereRulesSatisfied queryTree ->
        ReturningRuleSatisfied queryTree ->
        commandType queryTree = CMD_INSERT ->
        forall onConflictClause,
          onConflict queryTree = Some onConflictClause ->
          let partitionColumn :=
              PartitionColumn (ExtractFirstDistributedTableId queryTree) 1 in
          (forall setTargetEntry,
              In setTargetEntry (onConflictSet onConflictClause) ->
              IsPartitionColumnEntry partitionColumn setTargetEntry = false ->
              contain_volatile_functions (Some (expr setTargetEntry)) = true ->
              ModifyQuerySupported queryTree multiShardQuery
              = Some OnConflictSetMutableError)
          /\ (ConflictSetRuleSatisfied partitionColumn (onConflictSet onConflictClause) ->
              contain_volatile_functions (arbiterWhere onConflictClause) = true
              \/ contain_volatile_functions (onConflictWhere onConflictClause) = true ->
              ModifyQuerySupported queryTree multiShardQuery
              = Some OnConflictWhereMutableError)
          /\ (ConflictSetRuleSatisfied partitionColumn (onConflictSet onConflictClause) ->
              contain_mutable_functions (arbiterWhere onConflictClause) = false ->
              contain_mutable_functions (onConflictWhere onConflictClause) = false ->
              NoDup (map resno (onConflictSet onConflictClause)) ->
              forall setTargetEntry,
                In setTargetEntry (onConflictSet onConflictClause) ->
                IsPartitionColumnEntry partitionColumn setTargetEntry = true ->
                contain_volatile_functions (Some (expr setTargetEntry)) = true ->
                ModifyQuerySupported queryTree multiShardQuery
                = Some PartitionValueModifiedError))
    /\ NoDup [UpdateVolatileError; WhereVolatileError; ReturningMutableError;
              OnConflictSetMutableError; OnConflictWhereMutableError;
              PartitionValueModifiedError].
Proof.
  intros E q ms.
  assert (Hcases : forall P : Prop,
             (forall flag, ModifyQuerySupported_rules q ms = inr flag -> flag = false -> P -> False) ->
             P -> exists planningError, ModifyQuerySupported q ms = Some planningError).
  { intros P Hcontra HP. unfold ModifyQuerySupported.
    destruct (ModifyQuerySupported_rules q ms) as [e|flag] eqn:Hrules; [eauto|].
    destruct flag; [eauto|]. exfalso. exact (Hcontra false eq_refl eq_refl HP). }
  split; [|split; [|split; [|split; [|split; [|split; [|split; [|split; [|split]]]]]]]].
  - intros Hcmd te Hin Hjunk Hvol.
    apply (Hcases True); [|exact I]. intros flag Hrules _ _.
    apply ModifyQuerySupported_rules_inr in Hrules.
    destruct Hrules as (spv & _ & _ & _ & Hmod).
    destruct Hmod as ((hva & hbc & Hloop) & _); [rewrite Hcmd; simpl; auto|].
    apply ModifyQuerySupported_targetList_inr in Hloop. destruct Hloop as [_ Hnone].
    rewrite (Hnone Hcmd te Hin Hjunk) in Hvol. discriminate.
  - intros Hcmd joinTree Hjt Hvol.
    apply (Hcases True); [|exact I]. intros flag Hrules _ _.
    apply ModifyQuerySupported_rules_inr in Hrules.
    destruct Hrules as (spv & _ & _ & _ & Hmod).
    destruct (Hmod Hcmd) as (_ & Hwhere & _).
    rewrite (Hwhere joinTree Hjt) in Hvol. discriminate.
  - intros Hcmd te Hin Hvol.
    apply (Hcases True); [|exact I]. intros flag Hrules _ _.
    apply ModifyQuerySupported_rules_inr in Hrules.
    destruct Hrules as (spv & _ & _ & _ & Hmod).
    destruct (Hmod Hcmd) as (_ & _ & Hret).
    rewrite (contain_mutable_functions_in_list _ te Hin (volatile_is_mutable _ Hvol)) in Hret.
    discriminate.
  - intros Hcmd clause te Hclause Hnodup Hin Hvol.
    apply (Hcases True); [|exact I]. intros flag Hrules Hflag _.
    apply ModifyQuerySupported_rules_inr in Hrules.
    destruct Hrules as (spv & Hloop & _).
    assert (Hconflict : ModifyQuerySupported_onConflict q = clause).
    { unfold ModifyQuerySupported_onConflict. now rewrite Hclause, Hcmd. }
    rewrite Hconflict in Hloop.
    destruct (ModifyQuerySupported_onConflictSet_volatile
                (PartitionColumn (ExtractFirstDistributedTableId q) 1)
                (onConflictSet clause) spv te Hnodup Hin Hvol) as [(e & He)|Htrue];
      congruence.
  - intros Hcmd clause Hclause Hvol.
    apply (Hcases True); [|exact I]. intros flag Hrules _ _.
    apply ModifyQuerySupported_rules_inr in Hrules.
    destruct Hrules as (spv & _ & Harbiter & Hfilter & _).
    assert (Hconflict : ModifyQuerySupported_onConflict q = clause).
    { unfold ModifyQuerySupported_onConflict. now rewrite Hclause, Hcmd. }
    rewrite Hconflict in Harbiter, Hfilter.
    destruct Hvol as [Hvol|Hvol]; apply volatile_is_mutable in Hvol; congruence.
  - intros Hrange Hcmd te Hin Hjunk Hvol.
    unfold ModifyQuerySupported.
    rewrite (@ModifyQuerySupported_rules_after_range_table E q ms Hrange). cbv zeta.
    rewrite Hcmd. cbn [CmdType_beq orb].
    rewrite (@ModifyQuerySupported_targetList_volatile
               E q (PartitionColumn (ExtractFirstDistributedTableId q) 1)
               (targetList q) false false false te Hcmd Hin Hjunk Hvol).
    reflexivity.
  - intros Hrange Htargets Hcmd joinTree Hjt Hvol.
    unfold ModifyQuerySupported.
    rewrite (@ModifyQuerySupported_rules_after_range_table E q ms Hrange). cbv zeta.
    rewrite (modification_command Hcmd).
    destruct (@ModifyQuerySupported_targetList_passes
                E q (PartitionColumn (ExtractFirstDistributedTableId q) 1)
                (targetList q) false false false Htargets) as ([[spv hva] hbc] & ->).
    unfold bindE. rewrite Hjt, Hvol. reflexivity.
  - intros Hrange Htargets [Hreducible Hwhere] Hcmd re Hin Hvol.
    unfold ModifyQuerySupported.
    rewrite (@ModifyQuerySupported_rules_after_range_table E q ms Hrange). cbv zeta.
    rewrite (modification_command Hcmd).
    destruct (@ModifyQuerySupported_targetList_reducible
                E q (PartitionColumn (ExtractFirstDistributedTableId q) 1)
                (targetList q) false false false Htargets Hreducible) as (spv & ->).
    unfold bindE, guard.
    rewrite (@contain_mutable_functions_in_list E _ re Hin (@volatile_is_mutable E _ Hvol)).
    destruct (jointree q) as [joinTree|]; [|reflexivity].
    destruct (Hwhere joinTree eq_refl) as [Hvolatile Hred].
    rewrite Hvolatile, (@Irreducible_false E _ false false Hred). reflexivity.
  - intros Hrange [_ Hwhere] Hreturning Hcmd clause Hclause pc.
    assert (Hrules :
              ModifyQuerySupported_rules q ms
              = (specifiesPartitionValue <--
                   ModifyQuerySupported_onConflictSet pc (onConflictSet clause) false ;;
                 _ <-- guard (contain_mutable_functions (arbiterWhere clause)
                              || contain_mutable_functions (onConflictWhere clause))
                             OnConflictWhereMutableError ;;
                 inr specifiesPartitionValue)).
    { rewrite (@ModifyQuerySupported_rules_after_range_table E q ms Hrange). cbv zeta.
      fold pc. rewrite Hcmd. cbn [CmdType_beq orb].
      rewrite ModifyQuerySupported_targetList_not_update
        by (rewrite Hcmd; discriminate).
      unfold ModifyQuerySupported_onConflict. rewrite Hclause, Hcmd. cbn [CmdType_beq].
      unfold ReturningRuleSatisfied in Hreturning.
      unfold bindE at 1 2 3 4 5 6, guard at 1 2 3. rewrite Hreturning.
      destruct (jointree q) as [joinTree|]; [|reflexivity].
      destruct (Hwhere joinTree eq_refl) as [Hvolatile Hred].
      rewrite Hvolatile, (@Irreducible_false E _ false false Hred). reflexivity. }
    unfold ModifyQuerySupported. rewrite Hrules. unfold bindE, guard.
    split; [|split].
    + intros te Hin Hother Hvol.
      now rewrite (@ModifyQuerySupported_onConflictSet_rejects
                     E pc (onConflictSet clause) false te Hin Hother Hvol).
    + intros Hset Hvol.
      destruct (@ModifyQuerySupported_onConflictSet_passes E pc _ false Hset) as (flag & ->).
      assert (Hmut : contain_mutable_functions (arbiterWhere clause)
                     || contain_mutable_functions (onConflictWhere clause) = true).
      { apply orb_true_iff.
        destruct Hvol as [Hvol|Hvol]; [left | right]; now apply (@volatile_is_mutable E). }
      now rewrite Hmut.
    + intros Hset Harbiter Hfilter Hnodup te Hin Hpart Hvol.
      destruct (@ModifyQuerySupported_onConflictSet_passes E pc _ false Hset) as (flag & Hflag).
      destruct (@ModifyQuerySupported_onConflictSet_volatile
                  E pc (onConflictSet clause) false te Hnodup Hin Hvol)
        as [(e & He)|Htrue]; [congruence|].
      rewrite Htrue, Harbiter, Hfilter. reflexivity.
  - repeat constructor; simpl; intuition discriminate.
Qed.

Lemma ModifyQuerySupported_rejects_volatile_witness :
  (exists planningError,
      ModifyQuerySupported (E := Example.catalog)
                           (Example.update_total Example.call_random
                              (Example.equals Example.customer_id 42)
                              (T_Var Example.customer_id)) false
      = Some planningError)
  /\ ModifyQuerySupported (E := Example.catalog)
                          (Example.update_total Example.call_random
                             (Example.equals Example.customer_id 42)
                             (T_Var Example.customer_id)) false
     = Some UpdateVolatileError
  /\ ModifyQuerySupported (E := Example.catalog)
                          (Example.update_total (Example.literal 1)
                             (T_BoolExpr [Example.equals Example.customer_id 42;
                                          Example.call_random])
                             (T_Var Example.customer_id)) false
     = Some WhereVolatileError
  /\ ModifyQuerySupported (E := Example.catalog)
                          (Example.update_total (Example.literal 1)
                             (Example.equals Example.customer_id 42)
                             Example.call_random) false
     = Some ReturningMutableError
  /\ ModifyQuerySupported (E := Example.catalog)
                          (Example.upsert Example.call_random None None) false
     = Some OnConflictSetMutableError
  /\ ModifyQuerySupported (E := Example.catalog)
                          (Example.upsert (Example.literal 1)
                                          (Some Example.call_random) None) false
     = Some OnConflictWhereMutableError
  /\ ModifyQuerySupported (E := Example.catalog)
                          (Example.upsert (Example.literal 1) None
                                          (Some Example.call_random)) false
     = Some OnConflictWhereMutableError
  /\ ModifyQuerySupported (E := Example.catalog)
                          (Example.upsert_partition_column Example.call_random) false
     = Some PartitionValueModifiedError.
Proof.
  assert (Hupdate : forall setExpr filter returned,
             RangeTableRulesSatisfied (E := Example.catalog)
               (Example.update_total setExpr filter returned) false).
  { intros setExpr filter returned. split; [discriminate|]. split; [reflexivity|].
    split; [|right; left; reflexivity].
    intros rte [<-|[]]. split; [reflexivity | discriminate]. }
  assert (Hinsert : forall conflict,
             RangeTableRulesSatisfied (E := Example.catalog)
               (makeQuery CMD_INSERT false false []
                          [Example.relation_entry Example.orders ACL_INSERT;
                           Example.relation_entry Example.orders ACL_UPDATE]
                          (Some (makeFromExpr None))
                          [makeTargetEntry (Example.literal 42) 1 false;
                           makeTargetEntry (Example.literal 9) 2 false]
                          [] conflict) false).
  { intros conflict. split; [discriminate|]. split; [reflexivity|].
    split; [|left; reflexivity].
    intros rte [<-|[<-|[]]]; (split; [reflexivity | discriminate]). }
  assert (Hwhere : forall conflict,
             WhereRulesSatisfied (E := Example.catalog)
               (makeQuery CMD_INSERT false false []
                          [Example.relation_entry Example.orders ACL_INSERT;
                           Example.relation_entry Example.orders ACL_UPDATE]
                          (Some (makeFromExpr None))
                          [makeTargetEntry (Example.literal 42) 1 false;
                           makeTargetEntry (Example.literal 9) 2 false]
                          [] conflict)).
  { intros conflict. split; [discriminate|].
    intros joinTree [= <-]. split; reflexivity. }
  split; [|split; [|split; [|split; [|split; [|split; [|split]]]]]].
  - destruct (@ModifyQuerySupported_rejects_volatile
                Example.catalog
                (Example.update_total Example.call_random
                                      (Example.equals Example.customer_id 42)
                                      (T_Var Example.customer_id)) false)
      as (Hset & _).
    exact (Hset eq_refl (makeTargetEntry Example.call_random 2 false)
                (or_introl eq_refl) eq_refl eq_refl).
  - destruct (@ModifyQuerySupported_rejects_volatile
                Example.catalog
                (Example.update_total Example.call_random
                                      (Example.equals Example.customer_id 42)
                                      (T_Var Example.customer_id)) false)
      as (_ & _ & _ & _ & _ & Hset & _).
    exact (Hset (Hupdate _ _ _) eq_refl (makeTargetEntry Example.call_random 2 false)
                (or_introl eq_refl) eq_refl eq_refl).
  - destruct (@ModifyQuerySupported_rejects_volatile
                Example.catalog
                (Example.update_total (Example.literal 1)
                                      (T_BoolExpr [Example.equals Example.customer_id 42;
                                                   Example.call_random])
                                      (T_Var Example.customer_id)) false)
      as (_ & _ & _ & _ & _ & _ & Hfilter & _).
    refine (Hfilter (Hupdate _ _ _) _ (or_intror (or_introl eq_refl)) _ eq_refl eq_refl).
    intros _ te [<-|[]] _. reflexivity.
  - destruct (@ModifyQuerySupported_rejects_volatile
                Example.catalog
                (Example.update_total (Example.literal 1)
                                      (Example.equals Example.customer_id 42)
                                      Example.call_random) false)
      as (_ & _ & _ & _ & _ & _ & _ & Hreturning & _).
    refine (Hreturning (Hupdate _ _ _) _ _ (or_intror (or_introl eq_refl))
                       (makeTargetEntry Example.call_random 1 false)
                       (or_introl eq_refl) eq_refl).
    + intros _ te [<-|[]] _. reflexivity.
    + split.
      * intros _ te [<-|[]] _. reflexivity.
      * intros joinTree [= <-]. split; reflexivity.
  - destruct (@ModifyQuerySupported_rejects_volatile
                Example.catalog (Example.upsert Example.call_random None None) false)
      as (_ & _ & _ & _ & _ & _ & _ & _ & Hconflict & _).
    destruct (Hconflict (Hinsert _) (Hwhere _) eq_refl eq_refl _ eq_refl) as (Hset & _).
    exact (Hset (makeTargetEntry Example.call_random 2 false)
                (or_intror (or_introl eq_refl)) eq_refl eq_refl).
  - destruct (@ModifyQuerySupported_rejects_volatile
                Example.catalog
                (Example.upsert (Example.literal 1) (Some Example.call_random) None) false)
      as (_ & _ & _ & _ & _ & _ & _ & _ & Hconflict & _).
    destruct (Hconflict (Hinsert _) (Hwhere _) eq_refl eq_refl _ eq_refl)
      as (_ & Harbiter & _).
    apply Harbiter; [|left; reflexivity].
    intros te [<-|[<-|[]]]; [left; reflexivity | right; right; reflexivity].
  - destruct (@ModifyQuerySupported_rejects_volatile
                Example.catalog
                (Example.upsert (Example.literal 1) None (Some Example.call_random)) false)
      as (_ & _ & _ & _ & _ & _ & _ & _ & Hconflict & _).
    destruct (Hconflict (Hinsert _) (Hwhere _) eq_refl eq_refl _ eq_refl)
      as (_ & Hfilter & _).
    apply Hfilter; [|right; reflexivity].
    intros te [<-|[<-|[]]]; [left; reflexivity | right; right; reflexivity].
  - destruct (@ModifyQuerySupported_rejects_volatile
                Example.catalog (Example.upsert_partition_column Example.call_random) false)
      as (_ & _ & _ & _ & _ & _ & _ & _ & Hconflict & _).
    destruct (Hconflict (Hinsert _) (Hwhere _) eq_refl eq_refl _ eq_refl)
      as (_ & _ & Hpartition).
    refine (Hpartition _ eq_refl eq_refl _ (makeTargetEntry Example.call_random 1 false)
                       (or_introl eq_refl) eq_refl eq_refl).
    + intros te [<-|[<-|[]]]; [left; reflexivity | right; right; reflexivity].
    + repeat constructor; simpl; intuition discriminate.
Defined.
